(** * EpiSense: the data preparation, the scoring and the dashboard

    A shallow embedding of [src/data/prepare_data.py],
    [src/data/risk_score.py], [src/data/prepare_centroids.py] and of the
    dashboard [src/app.py] (loading,
    the year slider, the "Recalculate from Cloud" handler, the alert
    panel, the bins, the tooltips and the markers), with the pandas
    operations those scripts call written out as functions on tables.

    Floats are exact rationals ([Qc]); whole numbers of an [int64]
    column are integers, with the wrap-around of 64 bits written out
    where the scripts add or multiply them; characters of Python strings
    are the characters of [string]. *)

From Stdlib Require Import Ascii QArith Qcanon.
From stdpp Require Import base strings pretty list gmap numbers sorting.

Local Open Scope string_scope.
Local Open Scope list_scope.

Set Warnings "-clear-no-such-hyp".

(** ** Decoded JSON, as [resp.json()] and [json.loads] return it *)

#[warnings="-register-all"]
Inductive json :=
  | JNull
  | JBool (b : bool)
  | JNum (q : Qc)
  | JStr (s : string)
  | JArr (items : list json)
  | JObj (members : list (string * json)).

Fixpoint json_eqb (a b : json) {struct a} : bool :=
  match a, b with
  | JNull, JNull => true
  | JBool x, JBool y => bool_decide (x = y)
  | JNum x, JNum y => bool_decide (x = y)
  | JStr x, JStr y => bool_decide (x = y)
  | JArr xs, JArr ys =>
      (fix go (xs ys : list json) {struct xs} : bool :=
         match xs, ys with
         | [], [] => true
         | x :: xs', y :: ys' => json_eqb x y && go xs' ys'
         | _, _ => false
         end) xs ys
  | JObj xs, JObj ys =>
      (fix go (xs ys : list (string * json)) {struct xs} : bool :=
         match xs, ys with
         | [], [] => true
         | (k, x) :: xs', (k', y) :: ys' =>
             bool_decide (k = k') && json_eqb x y && go xs' ys'
         | _, _ => false
         end) xs ys
  | _, _ => false
  end.

Section json_induction.
  Variable P : json → Prop.
  Hypothesis Hnull : P JNull.
  Hypothesis Hbool : ∀ b, P (JBool b).
  Hypothesis Hnum : ∀ q, P (JNum q).
  Hypothesis Hstr : ∀ s, P (JStr s).
  Hypothesis Harr : ∀ xs, Forall P xs → P (JArr xs).
  Hypothesis Hobj : ∀ xs, Forall (λ p, P p.2) xs → P (JObj xs).

Fixpoint json_nested_ind (a : json) : P a :=
    match a with
    | JNull => Hnull
    | JBool b => Hbool b
    | JNum q => Hnum q
    | JStr s => Hstr s
    | JArr xs =>
        Harr xs ((fix go (l : list json) : Forall P l :=
                    match l with
                    | [] => @List.Forall_nil _ P
                    | x :: l' => @List.Forall_cons _ P x l' (json_nested_ind x) (go l')
                    end) xs)
    | JObj xs =>
        Hobj xs ((fix go (l : list (string * json)) : Forall (λ p, P p.2) l :=
                    match l with
                    | [] => @List.Forall_nil _ _
                    | x :: l' =>
                        @List.Forall_cons _ (λ p, P p.2) x l' (json_nested_ind x.2) (go l')
                    end) xs)
    end.
End json_induction.

Lemma json_eqb_eq (a c : json) : json_eqb a c = true ↔ a = c.
Proof.
  revert c. induction a as [| | | |xs IH|xs IH] using json_nested_ind; intros c.
  - destruct c; simpl; split; (done || congruence).
  - destruct c; simpl; rewrite ?bool_decide_eq_true; split; congruence.
  - destruct c; simpl; rewrite ?bool_decide_eq_true; split; congruence.
  - destruct c; simpl; rewrite ?bool_decide_eq_true; split; congruence.
  - destruct c as [| | | |ys|]; simpl; try (split; (done || congruence)).
    revert ys. induction IH as [|x xs' Hx _ IHxs]; intros [|y ys]; simpl;
      try (split; (done || congruence)).
    rewrite andb_true_iff, Hx, IHxs.
    split; [intros [-> ?]; congruence | intros ?; split; congruence].
  - destruct c as [| | | | |ys]; simpl; try (split; (done || congruence)).
    revert ys.
    induction IH as [|[k x] xs' Hx _ IHxs]; intros [|[k' y] ys]; simpl;
      try (split; (done || congruence)).
    rewrite !andb_true_iff, bool_decide_eq_true. simpl in Hx.
    rewrite Hx, IHxs.
    split; [intros [[-> ->] ?]; congruence | intros ?; repeat split; congruence].
Qed.

#[global] Instance json_eq_dec : EqDecision json.
Proof.
  intros a b. destruct (json_eqb a b) eqn:E.
  - left. by apply json_eqb_eq.
  - right. intros H. apply json_eqb_eq in H. congruence.
Defined.

(** ** Cells of a table *)

Inductive value :=
  | VNaN                      (* missing: NaN / None *)
  | VBool (b : bool)
  | VInt (z : Z)              (* int64 *)
  | VFloat (q : Qc)           (* float64, finite *)
  | VStr (s : string)
  | VObj (j : json).          (* any other Python object held in a cell *)

#[global] Instance value_eq_dec : EqDecision value.
Proof. solve_decision. Defined.

#[global] Instance value_inhabited : Inhabited value := populate VNaN.

(** ** Exceptions and results *)

Inductive error :=
  | KeyError (label : string)
  | ValueError (msg : string)
  | TypeError (msg : string)
  | ZeroDivisionError
  | FileNotFoundError (path : string).

Inductive result (A : Type) :=
  | Ok (a : A)
  | Raise (e : error).
Arguments Ok {A} a.
Arguments Raise {A} e.

#[global] Instance error_eq_dec : EqDecision error.
Proof. solve_decision. Defined.

#[global] Instance result_eq_dec {A} `{EqDecision A} : EqDecision (result A).
Proof. solve_decision. Defined.

Definition bind {A B} (m : result A) (f : A → result B) : result B :=
  match m with Ok a => f a | Raise e => Raise e end.

Notation "'let*' x ':=' m 'in' k" := (bind m (λ x, k))
  (at level 10, x pattern, m at level 100, k at level 200).

(** The value of a run that ended well, [d] for one that did not. *)
Definition from_ok {A} (d : A) (r : result A) : A :=
  match r with Ok a => a | Raise _ => d end.

Fixpoint try_map {A B} (f : A → result B) (l : list A) : result (list B) :=
  match l with
  | [] => Ok []
  | x :: l' => let* y := f x in let* ys := try_map f l' in Ok (y :: ys)
  end.

(** ** The Python and library functions the scripts call

    String methods, regular-expression search, [repr] of floats and of
    objects and [int(str)] belong to the interpreter; they are taken as an
    interface, so every statement below holds whatever they compute. *)

Class PyRuntime := {
  py_strip : string → string;               (* str.strip() *)
  py_lower : string → string;               (* str.lower() *)
  py_upper : string → string;               (* str.upper() *)
  re_search : string → string → bool;       (* re.search(pat, s) is not None *)
  re_match : string → string → bool;        (* re.match(pat, s) is not None *)
  float_repr : Qc → string;                 (* str(float) *)
  obj_repr : json → string;                 (* str(object) *)
  int_of_str : string → option Z;           (* int(s); None: ValueError *)
  float_of_str : string → option Qc;        (* float(s); None: ValueError *)
}.

(** [IsolationForest(...).fit(X).score_samples(X)]: the forest built from
    the seed and the batch, evaluated on the batch. One number per row. *)
Class IsolationForestLib := {
  forest_score_samples :
    ∀ (n_estimators : nat) (contamination : Qc) (seed : Z),
      list (list Qc) → list Qc;
  forest_score_samples_length n c seed X :
    length (forest_score_samples n c seed X) = length X;
}.

(** [json.loads]; None: the text is not JSON ([JSONDecodeError]). *)
Class JsonLib := { json_loads : string → option json }.

(** ** Views of a cell *)

Definition Qc_of_bool (b : bool) : Qc := if b then 1%Qc else 0%Qc.

(** The number held by a numeric cell. *)
Definition num_of (v : value) : option Qc :=
  match v with
  | VInt z => Some (Qc_of_Z z)
  | VFloat q => Some q
  | VBool b => Some (Qc_of_bool b)
  | _ => None
  end.

(** Reading a cell in arithmetic: NaN is "no number", text is a type error. *)
Definition as_number (v : value) : result (option Qc) :=
  match v with
  | VNaN => Ok None
  | VStr _ | VObj _ => Raise (TypeError "unsupported operand type")
  | _ => Ok (num_of v)
  end.

Definition as_int (v : value) : option Z :=
  match v with
  | VInt z => Some z
  | VBool b => Some (if b then 1%Z else 0%Z)
  | _ => None
  end.

(** [astype(float)] on a numeric cell. *)
Definition to_float (v : value) : value :=
  match v with
  | VInt z => VFloat (Qc_of_Z z)
  | VBool b => VFloat (Qc_of_bool b)
  | _ => v
  end.

Definition of_option (o : option Qc) : value :=
  match o with Some q => VFloat q | None => VNaN end.

Section with_runtime.
Context `{PyRuntime}.

(** [str(x)], as [astype(str)] applies it to each cell. *)
Definition py_str (v : value) : string :=
  match v with
  | VNaN => "nan"
  | VBool b => if b then "True" else "False"
  | VInt z => pretty z
  | VFloat q => float_repr q
  | VStr s => s
  | VObj j => obj_repr j
  end.

(** [Series.str.<method>()]: cells that are not strings give NaN. *)
Definition str_method (f : string → string) (v : value) : value :=
  match v with VStr s => VStr (f s) | _ => VNaN end.

(** [Series.str.contains(pat, na=...)] and [Series.str.match(pat, na=...)];
    without [na] a cell that is not a string gives NaN. *)
Definition str_test (test : string → bool) (na : option bool) (v : value) : value :=
  match v with
  | VStr s => VBool (test s)
  | _ => match na with Some b => VBool b | None => VNaN end
  end.

(** [Series.str.slice(start, stop)] for [0 <= start <= stop]. *)
Definition str_slice (start stop : nat) (s : string) : string :=
  String.substring start (stop - start) s.

(** [astype(int)] on a cell holding text. *)
Definition str_to_int (v : value) : result value :=
  match v with
  | VStr s =>
      match int_of_str s with
      | Some z => Ok (VInt z)
      | None => Raise (ValueError "invalid literal for int()")
      end
  | _ => Raise (ValueError "cannot convert to int")
  end.

End with_runtime.

(** ** The order used by sorting

    Cells are compared as pandas does within one column: numbers by value,
    text character by character, missing values last. *)

Definition lex {A} (R S : relation A) : relation A :=
  λ x y, R x y ∧ (R y x → S x y).

Fixpoint list_le {A} (R : relation A) (l1 l2 : list A) : Prop :=
  match l1, l2 with
  | [], _ => True
  | _ :: _, [] => False
  | x :: l1', y :: l2' => R x y ∧ (R y x → list_le R l1' l2')
  end.

Definition rank (v : value) : nat :=
  match v with
  | VBool _ | VInt _ | VFloat _ => 0
  | VStr _ => 1
  | VObj _ => 2
  | VNaN => 3
  end.

Definition num_key (v : value) : Qc := default 0%Qc (num_of v).

Definition str_key (v : value) : list N :=
  match v with
  | VStr s => Ascii.N_of_ascii <$> String.list_ascii_of_string s
  | _ => []
  end.

Definition on {A B} (f : A → B) (R : relation B) : relation A :=
  λ x y, R (f x) (f y).

Definition value_le : relation value :=
  lex (on rank Nat.le) (lex (on num_key Qcle) (on str_key (list_le N.le))).

(** Rows of a table, columns by name. *)
Abbreviation Row := (gmap string value).

Definition key_of (keys : list string) (r : Row) : list value :=
  (λ c, r !!! c) <$> keys.

(** [sort_values(by)] compares rows on the [by] columns, first column
    first. *)
Definition row_le (by_ : list string) : relation Row :=
  on (key_of by_) (list_le value_le).

(** A stable sort: rows with equal keys keep their order. *)
Fixpoint insert_sorted {A} (R : relation A) `{!RelDecision R}
    (x : A) (l : list A) : list A :=
  match l with
  | [] => [x]
  | y :: l' => if decide (R x y) then x :: l else y :: insert_sorted R x l'
  end.

Definition stable_sort {A} (R : relation A) `{!RelDecision R}
    (l : list A) : list A :=
  foldr (insert_sorted R) [] l.

#[global] Instance lex_dec {A} (R S : relation A)
  `{!RelDecision R, !RelDecision S} : RelDecision (lex R S).
Proof. intros x y. unfold lex. apply _. Defined.

#[global] Instance list_le_dec {A} (R : relation A) `{!RelDecision R} :
  RelDecision (list_le R).
Proof.
  intros l1. induction l1 as [|x l1 IH]; intros [|y l2]; simpl.
  - left; exact I.
  - left; exact I.
  - right; tauto.
  - destruct (decide (R x y)); [|right; tauto].
    destruct (decide (R y x)); [|left; tauto].
    destruct (IH l2); [left|right]; tauto.
Defined.

#[global] Instance on_dec {A B} (f : A → B) (R : relation B)
  `{!RelDecision R} : RelDecision (on f R).
Proof. intros x y. unfold on. apply _. Defined.

#[global] Instance value_le_dec : RelDecision value_le.
Proof. unfold value_le. apply _. Defined.

#[global] Instance row_le_dec by_ : RelDecision (row_le by_).
Proof. unfold row_le. apply _. Defined.


(** ** Tables (pandas [DataFrame]) and the operations the scripts use

    A table is its column labels, in order, and its rows, in order. Every
    column the scripts assign is computed from the very table it is
    assigned to, so pandas' alignment on the row index is the identity and
    rows are matched by position. (The dashboard is the exception and has
    its own labelled table below.) *)

Record DataFrame := { columns : list string; rows : list Row }.

#[global] Instance DataFrame_eq_dec : EqDecision DataFrame.
Proof. solve_decision. Defined.

(** [df[c]] *)
Definition getitem (df : DataFrame) (c : string) : result (list value) :=
  if decide (c ∈ columns df) then Ok ((λ r, r !!! c) <$> rows df)
  else Raise (KeyError c).

(** [df[c] = s] *)
Definition setitem (df : DataFrame) (c : string) (s : list value) : DataFrame :=
  {| columns := if decide (c ∈ columns df) then columns df else columns df ++ [c];
     rows := zip_with (λ r v, <[c := v]> r) (rows df) s |}.

(** [s.eq(v)] *)
Definition series_eq (s : list value) (v : value) : list bool :=
  (λ x, bool_decide (x = v)) <$> s.

(** [a | b] on two boolean columns. *)
Definition value_or (a b : value) : value :=
  match a, b with
  | VBool x, VBool y => VBool (x || y)
  | _, _ => VNaN
  end.
Definition series_or (a b : list value) : list value := zip_with value_or a b.

(** A column used as a row filter must hold booleans only. *)
Definition as_mask (s : list value) : result (list bool) :=
  try_map (λ v, match v with
                | VBool b => Ok b
                | _ => Raise (ValueError "Cannot mask with non-boolean array containing NA / NaN values")
                end) s.

(** [df[mask]] *)
Definition select (df : DataFrame) (mask : list bool) : DataFrame :=
  {| columns := columns df;
     rows := fst <$> filter (λ p, p.2 = true) (zip (rows df) mask) |}.

(** [df.rename(columns={old: new})]. A label that is absent is ignored.
    pandas would keep two columns under one label when [new] is already
    there; such a table has no counterpart here and the run is abandoned. *)
Definition rename (df : DataFrame) (old new : string) : result DataFrame :=
  if decide (old ∈ columns df) then
    if decide (new ∈ columns df) then
      Raise (ValueError "duplicate column label")
    else
      Ok {| columns := (λ c, if decide (c = old) then new else c) <$> columns df;
            rows := (λ r, <[new := r !!! old]> (delete old r)) <$> rows df |}
  else Ok df.

Definition require_columns (df : DataFrame) (cs : list string) : result () :=
  match filter (λ c, c ∉ columns df) cs with
  | [] => Ok ()
  | c :: _ => Raise (KeyError c)
  end.

(** *** Aggregations ([skipna=True]) *)

Fixpoint Qc_sum (l : list Qc) : Qc :=
  match l with [] => 0%Qc | q :: l' => (q + Qc_sum l')%Qc end.

Fixpoint Z_sum (l : list Z) : Z :=
  match l with [] => 0%Z | z :: l' => (z + Z_sum l')%Z end.

Definition Qc_of_nat (n : nat) : Qc := Qc_of_Z (Z.of_nat n).

Definition Qc_mean (l : list Qc) : Qc := (Qc_sum l / Qc_of_nat (length l))%Qc.

(** The numbers of a column, missing cells left out. *)
Definition present (s : list value) : result (list Qc) :=
  let* ns := try_map as_number s in Ok (omap id ns).

(** Two's complement on 64 bits: what an [int64] operation leaves of
    its exact result. *)
Definition wrap64 (z : Z) : Z := ((z + 2 ^ 63) `mod` 2 ^ 64 - 2 ^ 63)%Z.

(** [sum()] of one group. A group of integers (or booleans) comes from
    an [int64] column: its sum is an [int64], which wraps around. Any
    other group of numbers comes from a [float64] column: missing cells
    are skipped and the sum is a float, [0.0] when every cell of the
    group is missing. *)
Definition agg_sum (s : list value) : result value :=
  let* qs := present s in
  match mapM as_int s with
  | Some zs => Ok (VInt (wrap64 (Z_sum zs)))
  | None => Ok (VFloat (Qc_sum qs))
  end.

(** [mean()]: missing cells are skipped; a group with no number gives NaN. *)
Definition agg_mean (s : list value) : result value :=
  let* qs := present s in
  match qs with
  | [] => Ok VNaN
  | _ => Ok (VFloat (Qc_mean qs))
  end.

(** *** [groupby(keys, as_index=False)[col].agg()]

    Rows with a missing key are left out ([dropna=True]); one output row
    per distinct key, in sorted key order ([sort=True]). *)

Definition group_keys (keys : list string) (rs : list Row) : list (list value) :=
  stable_sort (list_le value_le)
    (remove_dups (filter (λ k, VNaN ∉ k) (key_of keys <$> rs))).

Definition group_rows (keys : list string) (k : list value) (rs : list Row) : list Row :=
  filter (λ r, key_of keys r = k) rs.

Definition key_row (keys : list string) (k : list value) : Row :=
  list_to_map (zip keys k).

Definition groupby_agg (agg : list value → result value)
    (df : DataFrame) (keys : list string) (col : string) : result DataFrame :=
  let* _ := require_columns df (keys ++ [col]) in
  let* rs :=
    try_map
      (λ k, let* v := agg ((λ r, r !!! col) <$> group_rows keys k (rows df)) in
            Ok (<[col := v]> (key_row keys k)))
      (group_keys keys (rows df)) in
  Ok {| columns := keys ++ [col]; rows := rs |}.

(** *** [left.merge(right, on=keys, how="left")]

    Every left row, in order, joined with each right row of equal key, or
    with missing cells when there is none. The two tables share no column
    besides the keys where the scripts call it. *)

Definition merge_left (left right : DataFrame) (keys : list string) : result DataFrame :=
  let* _ := require_columns right keys in
  let* _ := require_columns left keys in
  let extra := filter (λ c, c ∉ keys) (columns right) in
  let blank : Row := list_to_map ((λ c, (c, VNaN)) <$> extra) in
  let restrict (r : Row) : Row := list_to_map ((λ c, (c, r !!! c)) <$> extra) in
  Ok {| columns := columns left ++ extra;
        rows := rows left ≫= λ l,
                match filter (λ r, key_of keys r = key_of keys l) (rows right) with
                | [] => [blank ∪ l]
                | ms => (λ m, restrict m ∪ l) <$> ms
                end |}.

(** *** [df.sort_values(by).reset_index(drop=True)] *)

Definition sort_values (df : DataFrame) (by_ : list string) : result DataFrame :=
  let* _ := require_columns df by_ in
  Ok {| columns := columns df; rows := stable_sort (row_le by_) (rows df) |}.

(** *** Group-wise transforms: [groupby(keys)[col].transform(f)]

    [f] maps the rows of one group, in table order, to a column of the
    same length; the results go back to the rows they came from. A row
    whose key is missing belongs to no group and gets [d]. *)

Fixpoint transform_from {R K B} `{EqDecision K} (key : R → K) (valid : K → bool)
    (f : list R → list B) (d : B) (all seen rest : list R) : list B :=
  match rest with
  | [] => []
  | r :: rest' =>
      (if valid (key r) then
         let group := filter (λ r', key r' = key r) all in
         let pos := length (filter (λ r', key r' = key r) seen) in
         default d (f group !! pos)
       else d)
      :: transform_from key valid f d all (seen ++ [r]) rest'
  end.

Definition group_transform {R K B} `{EqDecision K} (key : R → K) (valid : K → bool)
    (f : list R → list B) (d : B) (rs : list R) : list B :=
  transform_from key valid f d rs [] rs.

(** [shift(n)]: each value moves [n] places down its group. *)
Definition shift (n : nat) (s : list value) : list value :=
  take (length s) (replicate n VNaN ++ (to_float <$> s)).

(** [rolling(w, min_periods=m).mean()] over the numbers of one group;
    [None] is a missing cell. *)
Definition window_mean (m : nat) (w : list (option Qc)) : value :=
  let qs := omap id w in
  if decide (m ≤ length qs)%nat then
    match qs with [] => VNaN | _ => VFloat (Qc_mean qs) end
  else VNaN.

Definition rolling_mean (w m : nat) (s : list (option Qc)) : list value :=
  imap (λ i _, let start := S i - w in
               window_mean m (take (S i - start) (drop start s))) s.

Definition no_nan (k : list value) : bool := bool_decide (VNaN ∉ k).

(** [df.groupby(keys)[col].shift(n)] *)
Definition groupby_shift (df : DataFrame) (keys : list string) (col : string)
    (n : nat) : result (list value) :=
  let* _ := require_columns df keys in
  let* _ := getitem df col in
  Ok (group_transform (key_of keys) no_nan
        (λ g, shift n ((λ r, r !!! col) <$> g)) VNaN (rows df)).

(** [df.groupby(keys)[col].transform(lambda s: s.rolling(w, min_periods=m).mean())];
    the column must hold numbers. *)
Definition groupby_rolling_mean (df : DataFrame) (keys : list string)
    (col : string) (w m : nat) : result (list value) :=
  let* _ := require_columns df keys in
  let* s := getitem df col in
  let* _ := try_map as_number s in
  Ok (group_transform (key_of keys) no_nan
        (λ g, rolling_mean w m ((λ r, num_of (r !!! col)) <$> g)) VNaN (rows df)).

(** *** Element-wise arithmetic *)

(** [a / b]. NumPy gives an infinity, not an exception, when a divisor is
    zero; tables here hold finite numbers only, so a zero divisor is
    reported as an error instead, and the statements about the rate show
    that it is never met. *)
Definition cell_div (x y : value) : result value :=
  let* nx := as_number x in let* ny := as_number y in
  match nx, ny with
  | Some p, Some q =>
      if decide (q = 0%Qc) then Raise ZeroDivisionError else Ok (VFloat (p / q))
  | _, _ => Ok VNaN
  end.

Definition series_div (a b : list value) : result (list value) :=
  try_map (λ p, cell_div p.1 p.2) (zip a b).

(** Python's [s * k] on text and [l * k] on a list: [k] copies, none
    when [k] is not positive. *)
Definition str_repeat (k : Z) (s : string) : string :=
  foldr String.app "" (replicate (Z.to_nat k) s).
Definition list_repeat {A} (k : Z) (l : list A) : list A :=
  concat (replicate (Z.to_nat k) l).

(** [s * k] for an integer [k]: an [int64] product wraps around, a float
    stays a float, a missing cell stays missing; in a column of objects
    the product is Python's, which repeats text and lists and knows no
    product of [None] or of a dict. *)
Definition cell_mul_int (k : Z) (x : value) : result value :=
  match x with
  | VNaN => Ok VNaN
  | VFloat q => Ok (VFloat (q * Qc_of_Z k))
  | VInt z => Ok (VInt (wrap64 (z * k)))
  | VBool b => Ok (VInt (wrap64 ((if b then 1 else 0) * k)))
  | VStr s => Ok (VStr (str_repeat k s))
  | VObj (JArr l) => Ok (VObj (JArr (list_repeat k l)))
  | VObj (JStr s) => Ok (VObj (JStr (str_repeat k s)))
  | VObj (JNum q) => Ok (VObj (JNum (q * Qc_of_Z k)))
  | VObj (JBool b) => Ok (VObj (JNum (Qc_of_Z ((if b then 1 else 0) * k))))
  | VObj JNull | VObj (JObj _) => Raise (TypeError "unsupported operand type")
  end.

(** [s * c] for a float [c]. *)
Definition cell_mul_float (c : Qc) (x : value) : result value :=
  let* n := as_number x in Ok (of_option ((λ q, q * c)%Qc <$> n)).

(** [s.replace(0, np.nan)] *)
Definition replace_zero_nan (v : value) : value :=
  match v with
  | VInt 0 => VNaN
  | VFloat q => if decide (q = 0%Qc) then VNaN else v
  | _ => v
  end.

(** [s.fillna(0)] *)
Definition fillna_zero (v : value) : value :=
  match v with VNaN => VFloat 0 | _ => v end.

(** Python truth of a cell, as [np.where] reads its condition. *)
Definition truthy (v : value) : bool :=
  match v with
  | VBool b => b
  | VInt z => bool_decide (z ≠ 0%Z)
  | VFloat q => bool_decide (q ≠ 0%Qc)
  | VStr s => bool_decide (s ≠ "")
  | VNaN | VObj _ => true
  end.

Fixpoint np_where (c a b : list value) : list value :=
  match c, a, b with
  | x :: c', y :: a', z :: b' => (if truthy x then y else z) :: np_where c' a' b'
  | _, _, _ => []
  end.

(** ** [src/data/prepare_data.py] *)

Section prepare_data.
Context `{PyRuntime}.

Definition REQUIRED : list string :=
  ["indicator_name"; "nombre_indicador"; "spatial_dim_type"; "spatial_dim";
   "spatial_dim_en"; "spatial_dim_es"; "time_dim_type"; "time_dim";
   "numeric_value"].

(** Step 2: the required columns. *)
Definition check_required (df : DataFrame) : result () :=
  match filter (λ c, c ∉ columns df) REQUIRED with
  | [] => Ok ()
  | c :: _ => Raise (ValueError ("Missing required column: " +:+ c))
  end.

(** [s.astype(str)] *)
Definition astype_str (s : list value) : list value :=
  (λ v, VStr (py_str v)) <$> s.

(** [s.astype(str).str.strip().str.lower()] and [...str.upper()] *)
Definition norm_lower (s : list value) : list value :=
  str_method py_lower <$> (str_method py_strip <$> astype_str s).
Definition norm_upper (s : list value) : list value :=
  str_method py_upper <$> (str_method py_strip <$> astype_str s).

(** Steps 2 to 4: normalised names and types, country rows only. *)
Definition normalize (df : DataFrame) : result DataFrame :=
  let* _ := check_required df in
  let* s := getitem df "indicator_name" in
  let df := setitem df "indicator_name_norm" (norm_lower s) in
  let* s := getitem df "nombre_indicador" in
  let df := setitem df "nombre_indicador_norm" (norm_lower s) in
  let* s := getitem df "spatial_dim_type" in
  let df := setitem df "spatial_dim_type" (norm_upper s) in
  let* s := getitem df "time_dim_type" in
  let df := setitem df "time_dim_type" (norm_upper s) in
  let* s := getitem df "spatial_dim_type" in
  Ok (select df (series_eq s (VStr "COUNTRY"))).

(** [s.str.contains(pat, regex=True)] and [s.str.match(pat)] *)
Definition str_contains (pat : string) (na : option bool) (s : list value) : list value :=
  str_test (re_search pat) na <$> s.
Definition str_match (pat : string) (na : option bool) (s : list value) : list value :=
  str_test (re_match pat) na <$> s.

(** Step 5: the dengue rows. *)
Definition select_dengue (df : DataFrame) : result DataFrame :=
  let* a := getitem df "indicator_name_norm" in
  let* b := getitem df "nombre_indicador_norm" in
  let* is_dengue :=
    as_mask (series_or (str_contains "\bdengue cases\b" None a)
                       (str_contains "\bdengue\b.*casos|\bcasos\b.*dengue" None b)) in
  Ok (select df is_dengue).

(** Step 6: the population rows. *)
Definition select_pop (df : DataFrame) : result DataFrame :=
  let* a := getitem df "indicator_name_norm" in
  let* b := getitem df "indicator_name_norm" in
  let* c := getitem df "indicator_name_norm" in
  let* d := getitem df "nombre_indicador_norm" in
  let* is_pop :=
    as_mask (series_or
               (series_or
                  (series_or (str_contains "total population" (Some false) a)
                             (str_contains "population .*thousand" (Some false) b))
                  (str_match "^population\b" (Some false) c))
               (str_contains "poblaci" (Some false) d)) in
  Ok (select df is_pop).

(** Steps 2 to 6: the case rows and the population rows. *)
Definition classify (df : DataFrame) : result (DataFrame * DataFrame) :=
  let* df := normalize df in
  let* dengue := select_dengue df in
  let* pop := select_pop df in
  Ok (dengue, pop).

(** [d["time_dim"].astype(str).str.slice(0, 4).astype(int)] *)
Definition year_of_time_dim (df : DataFrame) : result (list value) :=
  let* s := getitem df "time_dim" in
  try_map str_to_int (str_method (str_slice 0 4) <$> astype_str s).

Definition YEAR_KEY : list string :=
  ["spatial_dim"; "spatial_dim_en"; "spatial_dim_es"; "year"].
Definition TIME_DIM_KEY : list string :=
  ["spatial_dim"; "spatial_dim_en"; "spatial_dim_es"; "time_dim"].

(** The [else] branch of step 7, for one of the two tables: MONTH rows,
    a [year] column, one row per country and year. *)
Definition month_to_year (agg : list value → result value)
    (df : DataFrame) : result DataFrame :=
  let* t := getitem df "time_dim_type" in
  let monthly := select df (series_eq t (VStr "MONTH")) in
  let* y := year_of_time_dim monthly in
  groupby_agg agg (setitem monthly "year" y) YEAR_KEY "numeric_value".

(** The test of step 7: ["YEAR" in dengue["time_dim_type"].unique()]. *)
Definition has_year (dengue : DataFrame) : result bool :=
  let* t := getitem dengue "time_dim_type" in
  Ok (bool_decide (VStr "YEAR" ∈ t)).

Definition restrict_year (df : DataFrame) : result DataFrame :=
  let* t := getitem df "time_dim_type" in
  Ok (select df (series_eq t (VStr "YEAR"))).

(** Step 7: the time dimension. *)
Definition choose_time_dim (dengue pop : DataFrame) : result (DataFrame * DataFrame) :=
  let* yearly := has_year dengue in
  if yearly then
    let* dengue_y := restrict_year dengue in
    let* pop_y := restrict_year pop in
    Ok (dengue_y, pop_y)
  else
    let* dengue_y := month_to_year agg_sum dengue in
    let* pop_y := month_to_year agg_mean pop in
    Ok (dengue_y, pop_y).

(** The thousands detection of step 8. *)
Definition detect_thousands (pop_y : DataFrame) : result DataFrame :=
  let* a := getitem pop_y "indicator_name_norm" in
  let* b := getitem pop_y "nombre_indicador_norm" in
  let pop_y :=
    setitem pop_y "is_thousands"
      (series_or (str_contains "thousand" (Some false) a)
                 (str_contains "mil" (Some false) b)) in
  let* c := getitem pop_y "is_thousands" in
  let* x := getitem pop_y "population_raw" in
  let* x1000 := try_map (cell_mul_int 1000) x in
  let* y := getitem pop_y "population_raw" in
  Ok (setitem pop_y "population" (np_where c x1000 y)).

(** The key of step 9. *)
Definition merge_key (dengue_y : DataFrame) : list string :=
  if decide ("year" ∈ columns dengue_y) then YEAR_KEY else TIME_DIM_KEY.

(** Step 8: the case table and the population table under their new
    column names, the population in units. *)
Definition case_table (dengue_y : DataFrame) : result DataFrame :=
  rename dengue_y "numeric_value" "dengue_cases".
Definition population_table (pop_y : DataFrame) : result DataFrame :=
  let* pop_y := rename pop_y "numeric_value" "population_raw" in
  detect_thousands pop_y.

(** Steps 8 and 9: names, units, one row per key. *)
Definition consolidate (dengue_y pop_y : DataFrame) :
    result (DataFrame * DataFrame * list string) :=
  let* dengue_y := case_table dengue_y in
  let* pop_y := population_table pop_y in
  let key := merge_key dengue_y in
  let* dengue_y := groupby_agg agg_sum dengue_y key "dengue_cases" in
  let* pop_y := groupby_agg agg_mean pop_y key "population" in
  Ok (dengue_y, pop_y, key).

(** Step 11: cases per 100k. *)
Definition add_rate (df_yr : DataFrame) : result DataFrame :=
  let* cases := getitem df_yr "dengue_cases" in
  let* pop := getitem df_yr "population" in
  let* ratio := series_div cases (replace_zero_nan <$> pop) in
  let* rate := try_map (cell_mul_float (Qc_of_Z 100000)) ratio in
  Ok (setitem df_yr "cases_per_100k" rate).

(** Step 12: sorted rows, lags and moving average by country. *)
Definition add_lags (df_yr : DataFrame) : result DataFrame :=
  let* df_yr := sort_values df_yr ["spatial_dim"; "year"] in
  let* l1 := groupby_shift df_yr ["spatial_dim"] "dengue_cases" 1 in
  let df_yr := setitem df_yr "lag_cases_1" l1 in
  let* l2 := groupby_shift df_yr ["spatial_dim"] "dengue_cases" 2 in
  let df_yr := setitem df_yr "lag_cases_2" l2 in
  let* ma := groupby_rolling_mean df_yr ["spatial_dim"] "dengue_cases" 3 1 in
  Ok (setitem df_yr "ma3_cases" ma).

(** Step 10: cases joined with population, and the [year] column. *)
Definition join (dengue_y pop_y : DataFrame) (key : list string) : result DataFrame :=
  let* df_yr := merge_left dengue_y pop_y key in
  if decide ("year" ∈ columns df_yr) then Ok df_yr
  else let* y := year_of_time_dim df_yr in Ok (setitem df_yr "year" y).

(** Steps 10 to 12: the join and the features. *)
Definition align (dengue_y pop_y : DataFrame) (key : list string) : result DataFrame :=
  let* df_yr := join dengue_y pop_y key in
  let* df_yr := add_rate df_yr in
  add_lags df_yr.

(** The script, from the table read to the table written. *)
Definition prepare_data (df : DataFrame) : result DataFrame :=
  let* (dengue, pop) := classify df in
  let* (dengue_y, pop_y) := choose_time_dim dengue pop in
  let* (dengue_y, pop_y, key) := consolidate dengue_y pop_y in
  align dengue_y pop_y key.

End prepare_data.

(** A column of a table, cell by cell. *)
Definition column (c : string) (df : DataFrame) : list value :=
  (λ r, r !!! c) <$> rows df.

(** The rows of one country in a feature table, in table order. *)
Definition country_rows (c : value) (df : DataFrame) : list Row :=
  filter (λ r, r !!! "spatial_dim" = c) (rows df).

(** The rows of one country as a table. *)
Definition select_country (c : value) (df : DataFrame) : DataFrame :=
  {| columns := columns df; rows := country_rows c df |}.

(** The rows of one key as a table. *)
Definition select_key (keys : list string) (k : list value)
    (df : DataFrame) : DataFrame :=
  {| columns := columns df; rows := group_rows keys k (rows df) |}.

(** The case count of the [j]-th row of a list of rows. *)
Definition cases_at (g : list Row) (j : nat) : Qc :=
  default 0%Qc (g !! j ≫= λ r, num_of (r !!! "dengue_cases")).

(** ** A runtime for the examples

    An instance of the interface above on plain ASCII text, exact for the
    inputs of the examples: whitespace stripping, ASCII case mapping, the
    regular expressions of the scripts (literal characters, [\b], [.*],
    [^] and [|]) and decimal integers. *)

Definition is_space (c : ascii) : bool :=
  bool_decide (c ∈ [" "; "009"; "010"; "011"; "012"; "013"]%char).

Fixpoint lstrip (s : list ascii) : list ascii :=
  match s with
  | c :: s' => if is_space c then lstrip s' else s
  | [] => []
  end.

Definition ascii_strip (s : string) : string :=
  String.string_of_list_ascii
    (reverse (lstrip (reverse (lstrip (String.list_ascii_of_string s))))).

Definition map_string (f : ascii → ascii) (s : string) : string :=
  String.string_of_list_ascii (f <$> String.list_ascii_of_string s).

Definition lower_char (c : ascii) : ascii :=
  let n := Ascii.N_of_ascii c in
  if bool_decide (65 ≤ n ≤ 90)%N then Ascii.ascii_of_N (n + 32) else c.
Definition upper_char (c : ascii) : ascii :=
  let n := Ascii.N_of_ascii c in
  if bool_decide (97 ≤ n ≤ 122)%N then Ascii.ascii_of_N (n - 32) else c.

Definition ascii_lower : string → string := map_string lower_char.
Definition ascii_upper : string → string := map_string upper_char.

Inductive atom :=
  | AChar (c : ascii)   (* a literal character *)
  | AWordB              (* \b *)
  | AAnyStar            (* .* *)
  | ABol.               (* ^ *)

Fixpoint parse_atoms (p : list ascii) : list atom :=
  match p with
  | "\"%char :: "b"%char :: p' => AWordB :: parse_atoms p'
  | "."%char :: "*"%char :: p' => AAnyStar :: parse_atoms p'
  | "^"%char :: p' => ABol :: parse_atoms p'
  | c :: p' => AChar c :: parse_atoms p'
  | [] => []
  end.

Fixpoint split_on (sep : ascii) (cur : list ascii) (s : list ascii) : list (list ascii) :=
  match s with
  | [] => [reverse cur]
  | c :: s' =>
      if bool_decide (c = sep) then reverse cur :: split_on sep [] s'
      else split_on sep (c :: cur) s'
  end.

Definition parse_regex (pat : string) : list (list atom) :=
  parse_atoms <$> split_on "|"%char [] (String.list_ascii_of_string pat).

Definition is_word (c : option ascii) : bool :=
  match c with
  | None => false
  | Some c =>
      let n := Ascii.N_of_ascii c in
      bool_decide ((48 ≤ n ≤ 57) ∨ (65 ≤ n ≤ 90) ∨ (97 ≤ n ≤ 122) ∨ n = 95 ∨ 128 ≤ n)%N
  end.

Fixpoint match_atoms (p : list atom) (prev : option ascii) (s : list ascii) : bool :=
  match p with
  | [] => true
  | AChar c :: p' =>
      match s with
      | x :: s' => bool_decide (x = c) && match_atoms p' (Some x) s'
      | [] => false
      end
  | AWordB :: p' => xorb (is_word prev) (is_word (head s)) && match_atoms p' prev s
  | ABol :: p' => bool_decide (prev = None) && match_atoms p' prev s
  | AAnyStar :: p' =>
      (fix any (prev : option ascii) (s : list ascii) : bool :=
         match_atoms p' prev s ||
         match s with
         | x :: s' => bool_decide (x ≠ "010"%char) && any (Some x) s'
         | [] => false
         end) prev s
  end.

Definition match_any (alts : list (list atom)) (prev : option ascii) (s : list ascii) : bool :=
  existsb (λ p, match_atoms p prev s) alts.

Fixpoint search_from (alts : list (list atom)) (prev : option ascii) (s : list ascii) : bool :=
  match_any alts prev s ||
  match s with
  | x :: s' => search_from alts (Some x) s'
  | [] => false
  end.

Definition ascii_re_search (pat s : string) : bool :=
  search_from (parse_regex pat) None (String.list_ascii_of_string s).
Definition ascii_re_match (pat s : string) : bool :=
  match_any (parse_regex pat) None (String.list_ascii_of_string s).

Definition digit_of (c : ascii) : option Z :=
  let n := Ascii.N_of_ascii c in
  if bool_decide (48 ≤ n ≤ 57)%N then Some (Z.of_N n - 48)%Z else None.

Fixpoint digits_value (acc : Z) (s : list ascii) : option Z :=
  match s with
  | [] => Some acc
  | c :: s' => d ← digit_of c; digits_value (10 * acc + d)%Z s'
  end.

Definition ascii_int (s : string) : option Z :=
  match String.list_ascii_of_string (ascii_strip s) with
  | [] => None
  | "-"%char :: (_ :: _) as ds => Z.opp <$> digits_value 0 ds
  | "+"%char :: (_ :: _) as ds => digits_value 0 ds
  | "-"%char :: [] | "+"%char :: [] => None
  | ds => digits_value 0 ds
  end.

Definition ascii_float_repr (q : Qc) : string :=
  match Qden q with
  | 1%positive => pretty (Qnum q) +:+ ".0"
  | d => pretty (Qnum q) +:+ "/" +:+ pretty (Zpos d)
  end.

#[global] Instance ascii_runtime : PyRuntime := {|
  py_strip := ascii_strip;
  py_lower := ascii_lower;
  py_upper := ascii_upper;
  re_search := ascii_re_search;
  re_match := ascii_re_match;
  float_repr := ascii_float_repr;
  obj_repr := λ _, "<object>";
  int_of_str := ascii_int;
  float_of_str := λ s, Qc_of_Z <$> ascii_int s;
|}.

(** A table from its rows written cell by cell, as [read_csv] yields it. *)
Definition table (cols : list string) (cells : list (list value)) : DataFrame :=
  {| columns := cols; rows := (λ r, list_to_map (zip cols r)) <$> cells |}.

(** The cells of a table, row by row, in column order. *)
Definition cells (df : DataFrame) : list (list value) :=
  (λ r, (λ c, r !!! c) <$> columns df) <$> rows df.

(** ** Files and the operating system, as far as the scripts see them

    A file holds a table: writing a table and reading it back is taken
    to return the same cells. [os_entropy] is what a random generator
    created without a seed would read. *)

Record World := { files : gmap string DataFrame; os_entropy : Z }.

Definition read_csv (w : World) (path : string) : result DataFrame :=
  match files w !! path with
  | Some df => Ok df
  | None => Raise (FileNotFoundError path)
  end.

Definition to_csv (w : World) (path : string) (df : DataFrame) : World :=
  {| files := <[path := df]> (files w); os_entropy := os_entropy w |}.

Definition IN_FILE : string := "paho_all_indicators.csv".
Definition OUT_FILE : string := "data/processed/episense_annual.csv".
Definition RISK_FILE : string := "data/processed/episense_annual_with_risk.csv".

(** One run of [prepare_data.py]. *)
Definition run_prepare_data `{PyRuntime} (w : World) : result World :=
  let* df := read_csv w IN_FILE in
  let* df_yr := prepare_data df in
  Ok (to_csv w OUT_FILE df_yr).

(** ** [src/data/risk_score.py] *)

Definition FEATURES : list string :=
  ["cases_per_100k"; "lag_cases_1"; "lag_cases_2"; "ma3_cases"].

Record IsolationForest := {
  n_estimators : nat;
  contamination : Qc;
  random_state : option Z;
}.

(** [IsolationForest(n_estimators=200, contamination=0.1, random_state=42)] *)
Definition model : IsolationForest :=
  {| n_estimators := 200; contamination := Q2Qc (1 # 10); random_state := Some 42%Z |}.

(** scikit-learn's [check_random_state]: an integer seeds a generator of
    its own; [None] falls back on the global, OS-seeded one. *)
Definition check_random_state (m : IsolationForest) (w : World) : Z :=
  default (os_entropy w) (random_state m).

(** The smallest and largest element of a non-empty column. *)
Definition Qc_min (a b : Qc) : Qc := if decide (a ≤ b)%Qc then a else b.
Definition Qc_max (a b : Qc) : Qc := if decide (a ≤ b)%Qc then b else a.
Definition list_min (l : list Qc) : Qc :=
  match l with [] => 0%Qc | x :: l' => foldr Qc_min x l' end.
Definition list_max (l : list Qc) : Qc :=
  match l with [] => 0%Qc | x :: l' => foldr Qc_max x l' end.

(** [1e-9] *)
Definition EPS : Qc := Q2Qc (1 # 1000000000).

(** [100 * (raw - raw.min()) / (raw.max() - raw.min() + 1e-9)] *)
Definition normalize_scores (raw : list Qc) : list Qc :=
  (λ r, Qc_of_Z 100 * (r - list_min raw) / (list_max raw - list_min raw + EPS))%Qc
    <$> raw.

(** [df[FEATURES] = df[FEATURES].fillna(0)] *)
Definition fill_features (df : DataFrame) : result DataFrame :=
  let* _ := require_columns df FEATURES in
  Ok (foldl (λ d c, setitem d c ((λ r, fillna_zero (r !!! c)) <$> rows df)) df FEATURES).

(** The rows of [df[FEATURES]] as the estimator takes them: numbers only. *)
Definition feature_matrix (df : DataFrame) : result (list (list Qc)) :=
  try_map
    (λ r, try_map
            (λ c, match num_of (r !!! c) with
                  | Some q => Ok q
                  | None => Raise (ValueError "could not convert to float")
                  end) FEATURES)
    (rows df).

Section risk_score.
Context `{IsolationForestLib}.

(** [model.fit(X)] then [model.score_samples(X)]; an empty batch is
    refused by [fit]. *)
Definition fit_score_samples (m : IsolationForest) (w : World)
    (X : list (list Qc)) : result (list Qc) :=
  match X with
  | [] => Raise (ValueError "Found array with 0 sample(s)")
  | _ => Ok (forest_score_samples (n_estimators m) (contamination m)
               (check_random_state m w) X)
  end.

(** The body of the script between reading and writing. *)
Definition risk_score (w : World) (df : DataFrame) : result DataFrame :=
  let* df := fill_features df in
  let* X := feature_matrix df in
  let* scores := fit_score_samples model w X in
  let raw_scores := Qcopp <$> scores in
  Ok (setitem df "risk_score" (VFloat <$> normalize_scores raw_scores)).

(** One run of [risk_score.py]. *)
Definition run_risk_score (w : World) : result World :=
  let* df := read_csv w OUT_FILE in
  let* scored := risk_score w df in
  Ok (to_csv w RISK_FILE scored).

End risk_score.

(** ** The "Recalculate from Cloud" handler of [src/app.py]

    The dashboard's table keeps the row labels of the file it was loaded
    from, and pandas aligns an assigned [Series] on those labels. *)

Record IndexedFrame := { icolumns : list string; irows : list (Z * Row) }.

#[global] Instance IndexedFrame_eq_dec : EqDecision IndexedFrame.
Proof. solve_decision. Defined.

Definition NEEDED : list string :=
  ["spatial_dim"; "spatial_dim_en"; "year"; "risk_score"; "cases_per_100k";
   "lag_cases_1"; "lag_cases_2"; "ma3_cases"].

(** Integer part, towards zero, as [astype(int)] takes it. *)
Definition Qc_trunc (q : Qc) : Z := Z.quot (Qnum q) (Zpos (Qden q)).

Section app.
Context `{PyRuntime} `{JsonLib}.

(** [pd.to_numeric(s, errors="coerce").astype(int)] on one cell. *)
Definition year_cell (v : value) : result value :=
  match v with
  | VInt z => Ok (VInt z)
  | VBool b => Ok (VInt (if b then 1 else 0))
  | VFloat q => Ok (VInt (Qc_trunc q))
  | VStr s =>
      match float_of_str s with
      | Some q => Ok (VInt (Qc_trunc q))
      | None => Raise (ValueError "cannot convert NA to integer")
      end
  | VNaN | VObj _ => Raise (ValueError "cannot convert NA to integer")
  end.

(** [load_csv]: the table with labels 0, 1, 2, ... *)
Definition load_csv (w : World) (path : string) : result IndexedFrame :=
  let* df := read_csv w path in
  match filter (λ c, c ∉ columns df) NEEDED with
  | _ :: _ => Raise (ValueError "Missing columns in CSV")
  | [] =>
      let* y := getitem df "year" in
      let* y := try_map year_cell y in
      let df := setitem df "year" y in
      Ok {| icolumns := columns df;
            irows := imap (λ i r, (Z.of_nat i, r)) (rows df) |}
  end.

(** [dfy = df[df["year"] == year].copy()] *)
Definition rows_of_year (df : IndexedFrame) (year : Z) : IndexedFrame :=
  {| icolumns := icolumns df;
     irows := filter (λ p, p.2 !!! "year" = VInt year) (irows df) |}.

(** [dfy[FEATURES].fillna(0).to_dict("records")] *)
Definition payload (dfy : IndexedFrame) : list (list (string * value)) :=
  (λ p, (λ c, (c, fillna_zero (p.2 !!! c))) <$> FEATURES) <$> irows dfy.

(** What [requests.post], [raise_for_status] and [resp.json()] end in. *)
Inductive http_outcome :=
  | ConnectionFailed           (* requests.post raised *)
  | TimedOut                   (* requests.post raised Timeout *)
  | HttpError (status : Z)     (* raise_for_status raised *)
  | InvalidBody                (* resp.json() raised *)
  | Body (data : json).

(** [st.success] or [st.error]. *)
Inductive notice :=
  | Success
  | Error (msg : string).

#[global] Instance notice_eq_dec : EqDecision notice.
Proof. solve_decision. Defined.

Definition cell_of_json (j : json) : value :=
  match j with
  | JNull => VNaN
  | JBool b => VBool b
  | JNum q => VFloat q
  | JStr s => VStr s
  | _ => VObj j
  end.

Fixpoint assoc (k : string) (l : list (string * json)) : option json :=
  match l with
  | [] => None
  | (k', v) :: l' => if decide (k = k') then Some v else assoc k l'
  end.

Fixpoint is_prefix (p s : list ascii) : bool :=
  match p, s with
  | [], _ => true
  | c :: p', d :: s' => bool_decide (c = d) && is_prefix p' s'
  | _ :: _, [] => false
  end.
Fixpoint is_infix (p s : list ascii) : bool :=
  is_prefix p s || match s with [] => false | _ :: s' => is_infix p s' end.

(** ["risk_score" in data]; None: [TypeError], the value is no container. *)
Definition contains_risk_score (data : json) : option bool :=
  match data with
  | JObj members => Some (bool_decide (is_Some (assoc "risk_score" members)))
  | JArr items => Some (bool_decide (JStr "risk_score" ∈ items))
  | JStr s =>
      Some (is_infix (String.list_ascii_of_string "risk_score")
                     (String.list_ascii_of_string s))
  | _ => None
  end.

(** [pd.Series(x)]: the cells and their labels 0, 1, 2, ...; a dict is
    labelled by its keys, which are strings. *)
Definition series_of_json (x : json) : list (Z * value) :=
  match x with
  | JArr items => imap (λ i j, (Z.of_nat i, cell_of_json j)) items
  | JObj _ | JNull => []
  | _ => [(0%Z, cell_of_json x)]
  end.

Fixpoint series_at (s : list (Z * value)) (label : Z) : value :=
  match s with
  | [] => VNaN
  | (l, v) :: s' => if decide (l = label) then v else series_at s' label
  end.

(** [dfy[c] = s]: each row takes the cell that carries its own label. *)
Definition assign_aligned (dfy : IndexedFrame) (c : string)
    (s : list (Z * value)) : IndexedFrame :=
  {| icolumns := if decide (c ∈ icolumns dfy) then icolumns dfy
                 else icolumns dfy ++ [c];
     irows := (λ p, (p.1, <[c := series_at s p.1]> p.2)) <$> irows dfy |}.

Definition decode_body (data : json) : option json :=
  match data with
  | JStr s => json_loads s        (* "support body string" *)
  | _ => Some data
  end.

(** The [try] block once the request has ended in [o]. *)
Definition recalculate (dfy : IndexedFrame) (o : http_outcome) : IndexedFrame * notice :=
  match o with
  | ConnectionFailed | TimedOut | HttpError _ | InvalidBody =>
      (dfy, Error "Error calling API")
  | Body data =>
      match decode_body data with
      | None => (dfy, Error "Error calling API")
      | Some data =>
          match contains_risk_score data with
          | None => (dfy, Error "Error calling API")
          | Some false => (dfy, Error "Response missing 'risk_score'")
          | Some true =>
              match data with
              | JObj members =>
                  match assoc "risk_score" members with
                  | Some x =>
                      (assign_aligned dfy "risk_score" (series_of_json x), Success)
                  | None => (dfy, Error "Error calling API")
                  end
              | _ => (dfy, Error "Error calling API")
              end
          end
      end
  end.

(** The button: the request is sent with the payload, then handled. *)
Definition recalculate_from_cloud
    (post : list (list (string * value)) → http_outcome)
    (dfy : IndexedFrame) : IndexedFrame * notice :=
  recalculate dfy (post (payload dfy)).

End app.

(** ** Tables used in the examples *)

(** One raw row of the indicator file, with the required columns. *)
Definition indicator_row (name nombre code en es ttype : string)
    (time : Z) (v : value) : list value :=
  [VStr name; VStr nombre; VStr "COUNTRY"; VStr code; VStr en; VStr es;
   VStr ttype; VInt time; v].

Definition dengue_row (code en ttype : string) (time n : Z) : list value :=
  indicator_row "Dengue cases" "Casos de dengue" code en en ttype time (VInt n).

Definition population_row (code en ttype : string) (time n : Z) : list value :=
  indicator_row "Total population" "Poblacion total" code en en ttype time (VInt n).

(** Monthly population for one country, and cases given once by year and
    once by month. *)
Definition monthly_population : list (list value) :=
  [population_row "ABC" "Abcland" "MONTH" 202001 100000;
   population_row "ABC" "Abcland" "MONTH" 202002 300000].

Definition yearly_cases : DataFrame :=
  table REQUIRED (dengue_row "ABC" "Abcland" "YEAR" 2020 10 :: monthly_population).

Definition monthly_cases : DataFrame :=
  table REQUIRED (dengue_row "ABC" "Abcland" "MONTH" 202001 10 :: monthly_population).

(** The population rows of a raw table, and what step 7 makes of them. *)
Definition population_rows `{PyRuntime} (df : DataFrame) : result DataFrame :=
  let* (_, pop) := classify df in Ok pop.
Definition population_by_year `{PyRuntime} (df : DataFrame) : result DataFrame :=
  let* (dengue, pop) := classify df in
  let* (_, pop_y) := choose_time_dim dengue pop in
  Ok pop_y.

(** A scored table with two years of one country, as the dashboard
    loads it, and a reply that carries one score. *)
Definition scored_two_years : DataFrame :=
  table ["spatial_dim"; "spatial_dim_en"; "year"; "risk_score";
         "cases_per_100k"; "lag_cases_1"; "lag_cases_2"; "ma3_cases"]
    [[VStr "ABC"; VStr "Abcland"; VInt 2019; VFloat 0; VFloat (Qc_of_Z 10);
      VNaN; VNaN; VFloat (Qc_of_Z 10)];
     [VStr "ABC"; VStr "Abcland"; VInt 2020; VFloat (Qc_of_Z 50); VFloat (Qc_of_Z 20);
      VFloat (Qc_of_Z 10); VNaN; VFloat (Qc_of_Z 15)]].

Definition dashboard_world : World :=
  {| files := {[ RISK_FILE := scored_two_years ]}; os_entropy := 0 |}.

Definition one_score_reply : http_outcome :=
  Body (JObj [("risk_score", JArr [JNum (Qc_of_Z 77)])]).

(** A decoder for the examples: it knows no text at all. *)
#[global] Instance no_json : JsonLib := {| json_loads := λ _, None |}.

(** A stand-in estimator for the examples: the larger the features of a
    row, the more anomalous it is taken to be. *)
Definition demo_score_samples (n : nat) (c : Qc) (seed : Z)
    (X : list (list Qc)) : list Qc :=
  (λ x, - Qc_sum x)%Qc <$> X.

#[global] Instance demo_forest : IsolationForestLib := {|
  forest_score_samples := demo_score_samples;
  forest_score_samples_length := λ _ _ _ X, length_fmap _ X;
|}.

(** The numbers of a column as fractions, missing cells as [None]. *)
Definition numbers (s : list value) : list (option Q) :=
  (λ v, this <$> num_of v) <$> s.

(** A feature table of one row. *)
Definition single_row : DataFrame :=
  table ("spatial_dim" :: "year" :: FEATURES)
    [[VStr "ABC"; VInt 2020; VFloat (Qc_of_Z 10); VNaN; VNaN; VFloat (Qc_of_Z 10)]].

Definition empty_world : World := {| files := ∅; os_entropy := 0 |}.

(** ** Vocabulary of the statements on the feature table *)

(** The population cell that the join gives to a case row. *)
Definition joined_population (keys : list string) (right : DataFrame)
    (c : string) (l : Row) : value :=
  match filter (λ r, key_of keys r = key_of keys l) (rows right) with
  | [] => VNaN
  | m :: _ => m !!! c
  end.

(** A population cell is a number or missing. *)
Definition population_ok (r : Row) : Prop :=
  r !!! "population" = VNaN ∨ ∃ p, r !!! "population" = VFloat p.

(** The rate of a row as step 11 defines it. *)
Definition rate_of (r : Row) : value :=
  match num_of (r !!! "dengue_cases"), r !!! "population" with
  | Some cases, VFloat p =>
      if decide (p = 0%Qc) then VNaN
      else VFloat (cases / p * Qc_of_Z 100000)%Qc
  | _, _ => VNaN
  end.

(** A row whose case count is a number, whose population is a number or
    missing, and whose rate is the one of step 11. *)
Definition rate_row_ok (r : Row) : Prop :=
  (∃ cases, num_of (r !!! "dengue_cases") = Some cases) ∧
  population_ok r ∧
  r !!! "cases_per_100k" = rate_of r.

(** The features of step 12 for the rows [g] of one country, in order:
    a single pass over the series of its case counts. *)
Definition with_features (g : list Row) : list Row :=
  let cases := (λ r, r !!! "dengue_cases") <$> g in
  zip_with (λ r v, <["ma3_cases" := v]> r)
    (zip_with (λ r v, <["lag_cases_2" := v]> r)
       (zip_with (λ r v, <["lag_cases_1" := v]> r) g (shift 1 cases))
       (shift 2 cases))
    (rolling_mean 3 1 (num_of <$> cases)).

(** The rows of step 12 before the features are added. *)
Definition sorted_rows (df : DataFrame) : list Row :=
  stable_sort (row_le ["spatial_dim"; "year"]) (rows df).

(** Three years of one country with a constant population. *)
Definition three_years : DataFrame :=
  table REQUIRED
    [dengue_row "ABC" "Abcland" "YEAR" 2020 10;
     dengue_row "ABC" "Abcland" "YEAR" 2021 20;
     dengue_row "ABC" "Abcland" "YEAR" 2022 15;
     population_row "ABC" "Abcland" "YEAR" 2020 100000;
     population_row "ABC" "Abcland" "YEAR" 2021 100000;
     population_row "ABC" "Abcland" "YEAR" 2022 100000].

(** Cases for 2020 and 2022, none for 2021. *)
Definition gap_years : DataFrame :=
  table REQUIRED
    [dengue_row "ABC" "Abcland" "YEAR" 2020 10;
     dengue_row "ABC" "Abcland" "YEAR" 2022 15].

(** One country code and year under two English names. *)
Definition two_names : DataFrame :=
  table REQUIRED
    [dengue_row "ABC" "Abcland" "YEAR" 2020 10;
     dengue_row "ABC" "Abc Land" "YEAR" 2020 7].

(** A population of zero in 2020 and no population row for 2021. *)
Definition zero_population : DataFrame :=
  table REQUIRED
    [dengue_row "ABC" "Abcland" "YEAR" 2020 10;
     dengue_row "ABC" "Abcland" "YEAR" 2021 20;
     population_row "ABC" "Abcland" "YEAR" 2020 0].

(** The feature table of a raw table, the raw table itself when the
    script stops with an error. *)
Definition features_of `{PyRuntime} (df : DataFrame) : DataFrame :=
  from_ok df (prepare_data df).

(** The second and the third row of the feature table of a raw table. *)
Definition second_row `{PyRuntime} (df : DataFrame) : Row :=
  default ∅ (rows (features_of df) !! 1).
Definition third_row `{PyRuntime} (df : DataFrame) : Row :=
  default ∅ (rows (features_of df) !! 2).

(** ** Vocabulary of the statements on steps 7 and 9 and on the scoring *)

(** The rows of a table that have the time type [ty]. *)
Definition rows_of_type (ty : string) (df : DataFrame) : list Row :=
  filter (λ r, r !!! "time_dim_type" = VStr ty) (rows df).

(** The year of a row: the first four characters of its [time_dim],
    read as a whole number; [None] when they are no number. *)
Definition year_of_row `{PyRuntime} (r : Row) : option Z :=
  int_of_str (str_slice 0 4 (py_str (r !!! "time_dim"))).

(** A row with its year in the column [year]. *)
Definition with_year `{PyRuntime} (r m : Row) : Prop :=
  ∃ y, year_of_row r = Some y ∧ m = <["year" := VInt y]> r.

(** The numbers the estimator is given for one row: its four features,
    zero for a missing one. *)
Definition feature_vector (r : Row) : list Qc :=
  (λ c, default 0%Qc (num_of (fillna_zero (r !!! c)))) <$> FEATURES.

(** The cases and the population of one country and year, each reported
    twice. *)
Definition repeated_key : DataFrame :=
  table REQUIRED
    [dengue_row "ABC" "Abcland" "YEAR" 2020 10;
     dengue_row "ABC" "Abcland" "YEAR" 2020 7;
     population_row "ABC" "Abcland" "YEAR" 2020 100000;
     population_row "ABC" "Abcland" "YEAR" 2020 300000].

(** Two case counts whose sum does not fit 64 bits. *)
Definition large_counts : DataFrame :=
  table REQUIRED
    [dengue_row "ABC" "Abcland" "YEAR" 2020 9223372036854775807;
     dengue_row "ABC" "Abcland" "YEAR" 2020 1].

(** Two scored rows: features that sum to 20 and to 60. *)
Definition two_features : DataFrame :=
  table ("spatial_dim" :: "year" :: FEATURES)
    [[VStr "ABC"; VInt 2020; VFloat (Qc_of_Z 10); VNaN; VNaN; VFloat (Qc_of_Z 10)];
     [VStr "ABC"; VInt 2021; VFloat (Qc_of_Z 30); VFloat (Qc_of_Z 10); VNaN;
      VFloat (Qc_of_Z 20)]].

(** The case rows and the population rows of a raw table. *)
Definition case_rows_of `{PyRuntime} (df : DataFrame) : DataFrame :=
  (from_ok (df, df) (classify df)).1.
Definition population_rows_of `{PyRuntime} (df : DataFrame) : DataFrame :=
  (from_ok (df, df) (classify df)).2.

(** What step 7 hands on for a raw table. *)
Definition chosen_of `{PyRuntime} (df : DataFrame) : DataFrame * DataFrame :=
  from_ok (df, df) (choose_time_dim (case_rows_of df) (population_rows_of df)).

(** * Further vocabulary for the statements on the scripts *)

(** ** [prepare_data.py], row by row *)

(** [df[c] = s] on the column labels. *)
Definition add_column (cols : list string) (c : string) : list string :=
  if decide (c ∈ cols) then cols else cols ++ [c].

Section rows_of_prepare_data.
Context `{PyRuntime}.

(** [str(x).strip().lower()] and [str(x).strip().upper()] on one cell. *)
Definition lower_cell (v : value) : value :=
  str_method py_lower (str_method py_strip (VStr (py_str v))).
Definition upper_cell (v : value) : value :=
  str_method py_upper (str_method py_strip (VStr (py_str v))).

(** Step 3 on one row. *)
Definition normalize_row (r : Row) : Row :=
  let r := <["indicator_name_norm" := lower_cell (r !!! "indicator_name")]> r in
  let r := <["nombre_indicador_norm" := lower_cell (r !!! "nombre_indicador")]> r in
  let r := <["spatial_dim_type" := upper_cell (r !!! "spatial_dim_type")]> r in
  <["time_dim_type" := upper_cell (r !!! "time_dim_type")]> r.

(** A row of the COUNTRY level, as step 4 tests it. *)
Definition is_country (r : Row) : Prop :=
  py_upper (py_strip (py_str (r !!! "spatial_dim_type"))) = "COUNTRY".

#[global] Instance is_country_dec r : Decision (is_country r).
Proof. unfold is_country. apply _. Defined.

End rows_of_prepare_data.

(** The table with some of its rows only. *)
Definition keep_rows (Q : Row → Prop) `{!∀ r, Decision (Q r)}
    (df : DataFrame) : DataFrame :=
  {| columns := columns df; rows := filter Q (rows df) |}.

(** A raw table without the [time_dim_type] column, and the table
    [three_years] with a row of the REGION level before its rows. *)
Definition no_time_dim_type : DataFrame :=
  table ["indicator_name"; "nombre_indicador"; "spatial_dim_type"; "spatial_dim";
         "spatial_dim_en"; "spatial_dim_es"; "time_dim"; "numeric_value"] [].

Definition with_region_row : DataFrame :=
  table REQUIRED
    ([VStr "Dengue cases"; VStr "Casos de dengue"; VStr "Region"; VStr "ABC";
      VStr "Abcland"; VStr "Abcland"; VStr "YEAR"; VInt 2020; VInt 1000]
     :: cells three_years).

(** ** Units of the population (step 8) *)

Section units.
Context `{PyRuntime}.

(** [re.search(pat, cell)] on a cell, false on one that is no text. *)
Definition text_has (pat : string) (v : value) : bool :=
  match v with VStr s => re_search pat s | _ => false end.

(** A population row that step 8 takes as given in thousands. *)
Definition in_thousands (r : Row) : bool :=
  text_has "thousand" (r !!! "indicator_name_norm")
  || text_has "mil" (r !!! "nombre_indicador_norm").

End units.

(** Two population rows, the second given in thousands. *)
Definition population_rows_in_units : DataFrame :=
  table ["spatial_dim"; "indicator_name_norm"; "nombre_indicador_norm";
         "numeric_value"]
    [[VStr "ABC"; VStr "total population"; VStr "poblacion total"; VInt 5000];
     [VStr "ABC"; VStr "population (thousands)"; VStr "poblacion"; VInt 5]].

(** The sum of the numbers of a column, missing cells left out. *)
Definition total_of (s : list value) : Qc := Qc_sum (omap num_of s).

(** The whole numbers of a group add up within 64 bits; nothing is
    asked of a group that does not hold whole numbers only. *)
Definition fits_int64 (s : list value) : Prop :=
  match mapM as_int s with
  | Some zs => (- 2 ^ 63 ≤ Z_sum zs < 2 ^ 63)%Z
  | None => True
  end.

#[global] Instance fits_int64_dec s : Decision (fits_int64 s).
Proof. unfold fits_int64. destruct (mapM as_int s); apply _. Defined.

(** Case rows of one key reported twice, and one with no country code. *)
Definition repeated_cases : DataFrame :=
  table REQUIRED
    [dengue_row "ABC" "Abcland" "YEAR" 2020 10;
     dengue_row "ABC" "Abcland" "YEAR" 2020 7;
     dengue_row "ABC" "Abcland" "YEAR" 2021 5;
     [VStr "Dengue cases"; VStr "Casos de dengue"; VStr "COUNTRY"; VNaN;
      VStr "Nowhere"; VStr "Nowhere"; VStr "YEAR"; VInt 2020; VInt 100]].

(** ** [risk_score.py], row by row *)

(** [df[FEATURES] = df[FEATURES].fillna(0)] on one row. *)
Definition fill_row (r : Row) : Row :=
  <["ma3_cases" := fillna_zero (r !!! "ma3_cases")]>
    (<["lag_cases_2" := fillna_zero (r !!! "lag_cases_2")]>
       (<["lag_cases_1" := fillna_zero (r !!! "lag_cases_1")]>
          (<["cases_per_100k" := fillna_zero (r !!! "cases_per_100k")]> r))).

(** A cell the estimator can read once the missing ones are filled. *)
Definition number_or_missing (v : value) : Prop :=
  v = VNaN ∨ is_Some (num_of v).

#[global] Instance number_or_missing_dec v : Decision (number_or_missing v).
Proof. unfold number_or_missing. apply _. Defined.

(** A feature table of two rows with a missing lag and a country name
    that the scoring does not read, and the same table without rows. *)
Definition two_rows : DataFrame :=
  table ("spatial_dim" :: "year" :: FEATURES)
    [[VStr "ABC"; VInt 2020; VFloat (Qc_of_Z 10); VNaN; VNaN; VFloat (Qc_of_Z 10)];
     [VStr "ABC"; VInt 2021; VFloat (Qc_of_Z 30); VFloat (Qc_of_Z 10); VNaN;
      VFloat (Qc_of_Z 20)]].


(** A raw table whose only case row has no country code: the feature
    table has its columns and no row. *)
Definition no_usable_cases : DataFrame :=
  table REQUIRED
    [population_row "ABC" "Abcland" "YEAR" 2020 100000;
     [VStr "Dengue cases"; VStr "Casos de dengue"; VStr "COUNTRY"; VNaN;
      VStr "Nowhere"; VStr "Nowhere"; VStr "YEAR"; VInt 2020; VInt 100]].

(** A scored file of one year with two countries, and a reply with one
    score too few. *)
Definition scored_one_year : DataFrame :=
  table ["spatial_dim"; "spatial_dim_en"; "year"; "risk_score";
         "cases_per_100k"; "lag_cases_1"; "lag_cases_2"; "ma3_cases"]
    [[VStr "ABC"; VStr "Abcland"; VFloat (Q2Qc (20207 # 10)); VFloat 0;
      VFloat (Qc_of_Z 10); VNaN; VNaN; VFloat (Qc_of_Z 10)];
     [VStr "ABD"; VStr "Abdland"; VInt 2020; VFloat (Qc_of_Z 50);
      VFloat (Qc_of_Z 20); VFloat (Qc_of_Z 10); VNaN; VFloat (Qc_of_Z 15)]].

Definition one_year_world : World :=
  {| files := {[ RISK_FILE := scored_one_year ]}; os_entropy := 0 |}.

(** ** The panels of the dashboard ([src/app.py], lines 124 to 295)

    The table [df] of the page is the one [load_csv] returned, and
    [dfy] its rows of the selected year. *)

(** [f"{x:.1f}"] on a float. *)
Class FormatLib := { format_1f : Qc → string }.

(** [df[c]] on the labelled table. *)
Definition igetitem (df : IndexedFrame) (c : string) : result (list value) :=
  if decide (c ∈ icolumns df) then Ok ((λ p, p.2 !!! c) <$> irows df)
  else Raise (KeyError c).

(** [sorted(df["year"].dropna().unique().tolist())]; the years of a
    loaded table are whole numbers. *)
Definition years (df : IndexedFrame) : list Z :=
  stable_sort Z.le
    (remove_dups (omap (λ p, match p.2 !!! "year" with
                             | VInt y => Some y
                             | _ => None
                             end) (irows df))).

(** [min(years)] and [max(years)], the range of the year slider; its
    value is the last year until the user moves it. *)
Definition year_range (df : IndexedFrame) : result (Z * Z) :=
  match years df with
  | [] => Raise (ValueError "min() arg is an empty sequence")
  | y :: ys => Ok (foldr Z.min y ys, foldr Z.max y ys)
  end.

(** [1e-5] *)
Definition TOLERANCE : Qc := Q2Qc (1 # 100000).

(** [cell >= x]: false on a missing cell, a [TypeError] on text and on
    any other object. *)
Definition cell_ge (v : value) (x : Qc) : result bool :=
  match v with
  | VNaN => Ok false
  | VStr _ | VObj _ => Raise (TypeError "'>=' not supported")
  | _ => Ok (bool_decide (x ≤ num_key v)%Qc)
  end.

Definition ALERT_COLUMNS : list string :=
  ["spatial_dim"; "spatial_dim_en"; "risk_score"; "cases_per_100k";
   "lag_cases_1"; "lag_cases_2"; "ma3_cases"].

(** [df[[cols]]] on one row. *)
Definition restrict (cols : list string) (r : Row) : Row :=
  filter (λ kv, kv.1 ∈ cols) r.

(** The order of [sort_values("risk_score", ascending=False)]: numbers
    from the largest to the smallest, then the cells that hold none.
    pandas leaves the order of rows with equal scores open; here they
    keep the order they had, and nothing below depends on it. *)
Definition no_number (v : value) : nat :=
  match num_of v with Some _ => 0 | None => 1 end.

Definition score_desc : relation (Z * Row) :=
  on (λ p : Z * Row, p.2 !!! "risk_score")
     (lex (on no_number Nat.le) (on (λ v, - num_key v)%Qc Qcle)).

#[global] Instance score_desc_dec : RelDecision score_desc.
Proof. unfold score_desc. apply _. Defined.

(** The alert panel: the rows at or above the threshold, less a
    tolerance, with seven of their columns, highest score first. *)
Definition alert_df (dfy : IndexedFrame) (threshold : Z) : result IndexedFrame :=
  let* s := igetitem dfy "risk_score" in
  let* mask := try_map (λ v, cell_ge v (Qc_of_Z threshold - TOLERANCE)%Qc) s in
  let hot := fst <$> filter (λ p, p.2 = true) (zip (irows dfy) mask) in
  match filter (λ c, c ∉ icolumns dfy) ALERT_COLUMNS with
  | c :: _ => Raise (KeyError c)
  | [] =>
      Ok {| icolumns := ALERT_COLUMNS;
            irows := stable_sort score_desc
                       ((λ p, (p.1, restrict ALERT_COLUMNS p.2)) <$> hot) |}
  end.

(** [alert_df.iloc[0]] where the panel is not empty. *)
Definition top_alert (alerts : IndexedFrame) : option Row :=
  snd <$> head (irows alerts).

(** A row that the alert panel shows at the threshold [t]. *)
Definition alerting (t : Qc) (p : Z * Row) : Prop :=
  ∃ q, num_of (p.2 !!! "risk_score") = Some q ∧ (t ≤ q)%Qc.

#[global] Instance alerting_dec t p : Decision (alerting t p).
Proof.
  unfold alerting. destruct (num_of (p.2 !!! "risk_score")) as [q|].
  - destruct (decide (t ≤ q)%Qc); [left; by exists q|right].
    intros (q' & [= <-] & ?). done.
  - right. by intros (q & ? & ?).
Defined.

(** The bins of the choropleth for a threshold. *)
Definition bins (threshold : Z) : list Qc :=
  let t := Qc_of_Z threshold in
  [0; t * Q2Qc (1 # 2); t * Q2Qc (8 # 10); t;
   Qc_min (Qc_of_Z 100) (t + Qc_of_Z 10);
   Qc_min (Qc_of_Z 100) (t + Qc_of_Z 20);
   Qc_min (Qc_of_Z 100) (t + Qc_of_Z 30);
   Qc_of_Z 100]%Qc.

(** A [dict]: keys in the order of their first assignment, each with
    the value assigned last. NumPy's NaN is one object, so a missing
    key is one key. *)
Fixpoint dict_set {K V} `{EqDecision K} (k : K) (v : V)
    (d : list (K * V)) : list (K * V) :=
  match d with
  | [] => [(k, v)]
  | (k', v') :: d' =>
      if decide (k = k') then (k, v) :: d' else (k', v') :: dict_set k v d'
  end.

Fixpoint dict_get {K V} `{EqDecision K} (k : K) (d : list (K * V)) : option V :=
  match d with
  | [] => None
  | (k', v) :: d' => if decide (k = k') then Some v else dict_get k d'
  end.

Section tooltips.
Context `{PyRuntime} `{FormatLib}.

(** [f"{cell:.1f}"] on a cell of a row that [iterrows] hands out: a
    missing cell reads [nan], a boolean is the whole number 0 or 1; text
    has no such format, and neither has a list or a dict. *)
Definition format_cell (v : value) : result string :=
  match v with
  | VNaN => Ok "nan"
  | VBool b => Ok (format_1f (Qc_of_bool b))
  | VInt z => Ok (format_1f (Qc_of_Z z))
  | VFloat q => Ok (format_1f q)
  | VStr _ => Raise (ValueError "Unknown format code 'f' for object of type 'str'")
  | VObj _ => Raise (TypeError "unsupported format string")
  end.

(** The text of the tooltip of one row. *)
Definition tooltip (r : Row) : result string :=
  let name := py_str (r !!! "spatial_dim_en") in
  let* risk := format_cell (r !!! "risk_score") in
  let* rate := format_cell (r !!! "cases_per_100k") in
  let* lag1 := format_cell (r !!! "lag_cases_1") in
  let* lag2 := format_cell (r !!! "lag_cases_2") in
  let* ma3 := format_cell (r !!! "ma3_cases") in
  Ok ("<b>" +:+ name +:+ "</b><br>"
      +:+ "Risk: " +:+ risk +:+ "<br>"
      +:+ "Cases/100k: " +:+ rate +:+ "<br>"
      +:+ "Lag1: " +:+ lag1 +:+ " | Lag2: " +:+ lag2 +:+ "<br>"
      +:+ "MA3: " +:+ ma3).

(** The loop that fills [info_by_iso], row after row. *)
Fixpoint fill_info (rs : list (Z * Row)) (info : list (value * string)) :
    result (list (value * string)) :=
  match rs with
  | [] => Ok info
  | p :: rs' =>
      let* html := tooltip p.2 in
      fill_info rs' (dict_set (p.2 !!! "spatial_dim") html info)
  end.

Definition info_by_iso (dfy : IndexedFrame) : result (list (value * string)) :=
  fill_info (irows dfy) [].

End tooltips.

(** [load_centroids]: the table of the file, or [None] where the file
    cannot be read or lacks one of its three columns. *)
Definition load_centroids (w : World) (path : string) : option DataFrame :=
  match read_csv w path with
  | Ok cdf =>
      if decide (Forall (λ c, c ∈ columns cdf) ["iso3"; "lat"; "lon"])
      then Some cdf else None
  | Raise _ => None
  end.

(** [centroids.set_index("iso3")[["lat", "lon"]].to_dict(orient="index")];
    pandas refuses an index with a repeated label. *)
Definition to_cdict (c : DataFrame) : result (list (value * (value * value))) :=
  let* iso := getitem c "iso3" in
  let* _ := require_columns c ["lat"; "lon"] in
  if decide (NoDup iso) then
    Ok ((λ r : Row, (r !!! "iso3", (r !!! "lat", r !!! "lon"))) <$> rows c)
  else Raise (ValueError "DataFrame index must be unique for orient=index").


(** [folium.CircleMarker(location=[lat, lon], ..., popup=...)]; radius,
    colours and weights are the same for all markers. *)
Record Marker := { location : value * value; popup : string }.

(** The loop over the rows of [dfy] that sets the markers. *)
Fixpoint set_markers (cdict : list (value * (value * value)))
    (info : list (value * string)) (threshold : Z)
    (rs : list (Z * Row)) : result (list Marker) :=
  match rs with
  | [] => Ok []
  | p :: rs' =>
      let* hot := cell_ge (p.2 !!! "risk_score") (Qc_of_Z threshold) in
      let here :=
        if hot then
          match dict_get (p.2 !!! "spatial_dim") cdict with
          | Some at_ =>
              [{| location := at_;
                  popup := default "" (dict_get (p.2 !!! "spatial_dim") info) |}]
          | None => []
          end
        else [] in
      let* rest := set_markers cdict info threshold rs' in
      Ok (here ++ rest)
  end.

(** Lines 280 to 295: no markers without a table of centroids or with
    an empty one. *)
Definition markers (centroids : option DataFrame) (info : list (value * string))
    (dfy : IndexedFrame) (threshold : Z) : result (list Marker) :=
  match centroids with
  | None => Ok []
  | Some c =>
      if decide (rows c = [] ∨ columns c = []) then Ok []
      else
        let* cdict := to_cdict c in
        set_markers cdict info threshold (irows dfy)
  end.


(** A formatter for the examples: one decimal, a half rounded up,
    exact for the numbers the examples show. *)
Definition ascii_format_1f (q : Qc) : string :=
  let tenths := Qc_trunc (q * Qc_of_Z 10 + Q2Qc (1 # 2)) in
  pretty (tenths `div` 10)%Z +:+ "." +:+ pretty (tenths `mod` 10)%Z.

#[global] Instance ascii_format : FormatLib := {| format_1f := ascii_format_1f |}.

(** The rows of one year in the dashboard: a score just under the
    threshold 50, a score of 80, a missing score, and a second row of
    the first country. *)
Definition panel_row (code en : string) (score : value) : Row :=
  list_to_map
    (zip NEEDED [VStr code; VStr en; VInt 2020; score; VFloat (Qc_of_Z 10);
                 VNaN; VNaN; VFloat (Qc_of_Z 10)]).

Definition panel_rows : IndexedFrame :=
  {| icolumns := NEEDED;
     irows := [(3%Z, panel_row "ABC" "Abcland" (VFloat (Q2Qc (49999995 # 1000000))));
               (4%Z, panel_row "ABD" "Abdland" (VFloat (Qc_of_Z 80)));
               (7%Z, panel_row "ABE" "Abeland" VNaN);
               (9%Z, panel_row "ABC" "Abc Land" (VFloat (Qc_of_Z 60)))] |}.

Definition panel_centroids : DataFrame :=
  table ["iso3"; "lat"; "lon"]
    [[VStr "ABC"; VFloat (Qc_of_Z 10); VFloat (Qc_of_Z (-60))];
     [VStr "ABD"; VFloat (Qc_of_Z 15); VFloat (Qc_of_Z (-70))]].

Definition centroid_world : World :=
  {| files := {[ "data/iso3_centroids_cleaned.csv" := panel_centroids ]};
     os_entropy := 0 |}.

(** A scored file in which the two rows of 2020 come first, and the
    table the page makes of it. *)
Definition leading_year : DataFrame :=
  table ["spatial_dim"; "spatial_dim_en"; "year"; "risk_score";
         "cases_per_100k"; "lag_cases_1"; "lag_cases_2"; "ma3_cases"]
    [[VStr "ABC"; VStr "Abcland"; VInt 2020; VFloat 0;
      VFloat (Qc_of_Z 10); VNaN; VNaN; VFloat (Qc_of_Z 10)];
     [VStr "ABD"; VStr "Abdland"; VInt 2020; VFloat (Qc_of_Z 50);
      VFloat (Qc_of_Z 20); VNaN; VNaN; VFloat (Qc_of_Z 20)];
     [VStr "ABD"; VStr "Abdland"; VInt 2021; VFloat (Qc_of_Z 90);
      VFloat (Qc_of_Z 40); VFloat (Qc_of_Z 20); VNaN; VFloat (Qc_of_Z 30)]].

Definition leading_world : World :=
  {| files := {[ RISK_FILE := leading_year ]}; os_entropy := 0 |}.

Definition loaded_leading : IndexedFrame :=
  from_ok {| icolumns := []; irows := [] |} (load_csv leading_world RISK_FILE).

(** The table of [dashboard_world] as the page loads it, the tooltips
    of [panel_rows] and the markers for the threshold 50. *)
Definition loaded_two_years : IndexedFrame :=
  from_ok {| icolumns := []; irows := [] |} (load_csv dashboard_world RISK_FILE).

Definition panel_info : list (value * string) :=
  from_ok [] (info_by_iso panel_rows).

Definition panel_markers : list Marker :=
  from_ok []
    (markers (load_centroids centroid_world "data/iso3_centroids_cleaned.csv")
       panel_info panel_rows 50).

(** ** [src/data/prepare_centroids.py] *)

(** [countries.get(code).alpha3] of the package [iso3166]; [None]: the
    code is not known ([KeyError]). *)
Class Iso3166Lib := { alpha3 : string → option string }.

Definition CENTROID_COLUMNS : list string := ["iso3"; "lat"; "lon"].

(** [df[cols]] *)
Definition getitems (df : DataFrame) (cols : list string) : result DataFrame :=
  match filter (λ c, c ∉ columns df) cols with
  | c :: _ => Raise (KeyError c)
  | [] => Ok {| columns := cols; rows := restrict cols <$> rows df |}
  end.

(** [df.dropna(subset=cols)] *)
Definition dropna (df : DataFrame) (cols : list string) : result DataFrame :=
  let* _ := require_columns df cols in
  Ok {| columns := columns df;
        rows := filter (λ r, Forall (λ c, r !!! c ≠ VNaN) cols) (rows df) |}.

(** [df.drop_duplicates(subset=cols)]: of the rows that agree on
    [cols], the first stays. *)
Fixpoint keep_first {A K} `{EqDecision K} (key : A → K) (seen : list K)
    (l : list A) : list A :=
  match l with
  | [] => []
  | x :: l' =>
      if decide (key x ∈ seen) then keep_first key seen l'
      else x :: keep_first key (key x :: seen) l'
  end.

Definition drop_duplicates (df : DataFrame) (cols : list string) : result DataFrame :=
  let* _ := require_columns df cols in
  Ok {| columns := columns df; rows := keep_first (key_of cols) [] (rows df) |}.

(** [s.between(lo, hi)] on one cell: false on a missing cell, a
    [TypeError] on text and on any other object. *)
Definition cell_between (lo hi : Z) (v : value) : result bool :=
  match v with
  | VNaN => Ok false
  | VStr _ | VObj _ => Raise (TypeError "'>=' not supported")
  | _ => Ok (bool_decide ((Qc_of_Z lo ≤ num_key v)%Qc ∧ (num_key v ≤ Qc_of_Z hi)%Qc))
  end.

Section prepare_centroids.
Context `{PyRuntime} `{Iso3166Lib}.

(** [iso_to_iso3]: a code of three characters is taken as it is, one of
    two characters is looked up, anything else is left alone. *)
Definition iso_to_iso3 (iso : value) : string :=
  let iso := py_upper (py_strip (py_str iso)) in
  if decide (String.length iso = 3) then iso
  else if decide (String.length iso = 2) then
    match alpha3 iso with
    | Some a => a
    | None => iso
    end
  else iso.

(** The script between reading and writing. *)
Definition prepare_centroids (df : DataFrame) : result DataFrame :=
  let* iso := getitem df "ISO" in
  let df := setitem df "iso3" ((λ v, VStr (iso_to_iso3 v)) <$> iso) in
  let* df_clean := getitems df CENTROID_COLUMNS in
  let* df_clean := dropna df_clean CENTROID_COLUMNS in
  let* df_clean := drop_duplicates df_clean ["iso3"] in
  let* lat := getitem df_clean "lat" in
  let* in_lat := try_map (cell_between (-90) 90) lat in
  let* lon := getitem df_clean "lon" in
  let* in_lon := try_map (cell_between (-180) 180) lon in
  let df_clean := select df_clean (zip_with andb in_lat in_lon) in
  sort_values df_clean ["iso3"].

Definition CENTROIDS_IN : string := "data/iso3_centroids.csv".
Definition CENTROIDS_OUT : string := "data/iso3_centroids_cleaned.csv".

(** One run of [prepare_centroids.py]. *)
Definition run_prepare_centroids (w : World) : result World :=
  let* df := read_csv w CENTROIDS_IN in
  let* df_clean := prepare_centroids df in
  Ok (to_csv w CENTROIDS_OUT df_clean).

(** The code under which a row of the raw table goes on, and the row
    with that code and its coordinates only. *)
Definition iso3_of (r : Row) : value := VStr (iso_to_iso3 (r !!! "ISO")).

Definition centroid_row (r : Row) : Row :=
  restrict CENTROID_COLUMNS (<["iso3" := iso3_of r]> r).

End prepare_centroids.

(** A row with both coordinates, and a row whose coordinates are numbers
    within the bounds of latitude and longitude. *)
Definition located (r : Row) : Prop :=
  r !!! "lat" ≠ VNaN ∧ r !!! "lon" ≠ VNaN.

Definition on_the_globe (r : Row) : Prop :=
  (∃ q, num_of (r !!! "lat") = Some q ∧ (Qc_of_Z (-90) ≤ q)%Qc ∧ (q ≤ Qc_of_Z 90)%Qc) ∧
  (∃ q, num_of (r !!! "lon") = Some q ∧ (Qc_of_Z (-180) ≤ q)%Qc ∧ (q ≤ Qc_of_Z 180)%Qc).

(** A lookup for the examples: two codes are known. *)
#[global] Instance demo_iso3166 : Iso3166Lib := {|
  alpha3 := λ s, if decide (s = "MX") then Some "MEX"
                 else if decide (s = "BR") then Some "BRA" else None
|}.

(** Raw centroids: Mexico twice, the first time off the globe; Brazil
    by its short code and again by its long one; a row without a
    longitude; a code that is not known. *)
Definition raw_centroids : DataFrame :=
  table ["ISO"; "name"; "lat"; "lon"]
    [[VStr "PE"; VStr "Peru"; VFloat (Qc_of_Z (-10)); VFloat (Qc_of_Z (-76))];
     [VStr "mx "; VStr "Mexico"; VFloat (Qc_of_Z 230); VFloat (Qc_of_Z (-102))];
     [VStr "MEX"; VStr "Mexico"; VFloat (Qc_of_Z 23); VFloat (Qc_of_Z (-102))];
     [VStr "br"; VStr "Brazil"; VFloat (Qc_of_Z (-10)); VFloat (Qc_of_Z (-55))];
     [VStr "BRA"; VStr "Brasil"; VFloat (Qc_of_Z (-11)); VFloat (Qc_of_Z (-56))];
     [VStr "ARG"; VStr "Argentina"; VFloat (Qc_of_Z (-34)); VNaN]].

Definition cleaned_centroids : DataFrame :=
  from_ok raw_centroids (prepare_centroids raw_centroids).

#[global] Instance located_dec r : Decision (located r).
Proof. unfold located. apply _. Defined.

#[global] Instance on_the_globe_dec r : Decision (on_the_globe r).
Proof.
  unfold on_the_globe.
  destruct (num_of (r !!! "lat")) as [p|]; [|right; by intros [(q & ? & _) _]].
  destruct (num_of (r !!! "lon")) as [p'|]; [|right; by intros [_ (q & ? & _)]].
  destruct (decide ((Qc_of_Z (-90) ≤ p)%Qc ∧ (p ≤ Qc_of_Z 90)%Qc)) as [Hp|Hp];
    [|right; intros [(q & [= <-] & ?) _]; tauto].
  destruct (decide ((Qc_of_Z (-180) ≤ p')%Qc ∧ (p' ≤ Qc_of_Z 180)%Qc)) as [Hp'|Hp'];
    [|right; intros [_ (q & [= <-] & ?)]; tauto].
  left. split; eexists; split; try done; tauto.
Defined.
Section order_facts.
  Context {A : Type}.


#[global] Instance lex_total (R S : relation A)
  `{!RelDecision R, !Total R, !Total S} : Total (lex R S).
Proof.
  intros x y. unfold lex.
  destruct (decide (R x y)), (decide (R y x)), (total R x y), (total S x y);
    tauto.
Qed.

#[global] Instance lex_trans (R S : relation A)
  `{!Transitive R, !Transitive S} : Transitive (lex R S).
Proof.
  intros x y z [Hxy Sxy] [Hyz Syz]. split; [by trans y|].
  intros Hzx. trans y; [apply Sxy|apply Syz]; by etrans.
Qed.


#[global] Instance list_le_total (R : relation A)
  `{!RelDecision R, !Total R} : Total (list_le R).
Proof.
  intros l1. induction l1 as [|x l1 IH]; intros [|y l2]; simpl; auto.
  destruct (IH l2), (decide (R x y)), (decide (R y x)), (total R x y); tauto.
Qed.

#[global] Instance list_le_trans (R : relation A) `{!Transitive R} :
  Transitive (list_le R).
Proof.
  intros l1. induction l1 as [|x l1 IH]; intros [|y l2] [|z l3]; simpl;
    try tauto.
  intros [Hxy Lxy] [Hyz Lyz]. split; [by trans y|].
  intros Hzx. eapply IH; [apply Lxy|apply Lyz]; by etrans.
Qed.

#[global] Instance list_le_refl (R : relation A) `{!Reflexive R} :
  Reflexive (list_le R).
Proof. intros l. induction l; simpl; auto. Qed.
End order_facts.

#[global] Instance on_total {A B} (f : A → B) (R : relation B)
  `{!Total R} : Total (on f R).
Proof. intros x y. apply (total R). Qed.
#[global] Instance on_trans {A B} (f : A → B) (R : relation B)
  `{!Transitive R} : Transitive (on f R).
Proof. intros x y z. apply (transitivity (R:=R)). Qed.

#[global] Instance value_le_total : Total value_le.
Proof. unfold value_le. apply _. Qed.
#[global] Instance value_le_trans : Transitive value_le.
Proof. unfold value_le. apply _. Qed.

#[global] Instance row_le_total by_ : Total (row_le by_).
Proof. unfold row_le. apply _. Qed.
#[global] Instance row_le_trans by_ : Transitive (row_le by_).
Proof. unfold row_le. apply _. Qed.

Section stable_sort_facts.
  Context {A : Type} (R : relation A) `{!RelDecision R}.

Lemma insert_sorted_perm x l : insert_sorted R x l ≡ₚ x :: l.
Proof.
  induction l as [|y l IH]; simpl; [done|].
  case_decide; [done|]. rewrite IH. apply Permutation_swap.
Qed.

Lemma stable_sort_perm l : stable_sort R l ≡ₚ l.
Proof.
  induction l as [|x l IH]; simpl; [done|].
  by rewrite insert_sorted_perm, IH.
Qed.

Lemma insert_sorted_sorted `{!Total R, !Transitive R} x l :
  StronglySorted R l → StronglySorted R (insert_sorted R x l).
Proof.
  induction 1 as [|y l Hl IH Hy]; simpl; [repeat constructor|].
  case_decide as Hxy.
  - constructor; [by constructor|]. constructor; [done|].
    eapply Forall_impl; [exact Hy|]. intros z ?. by trans y.
  - constructor; [done|]. rewrite insert_sorted_perm.
    constructor; [|done]. by destruct (total R x y).
Qed.

Lemma stable_sort_sorted `{!Total R, !Transitive R} l :
  StronglySorted R (stable_sort R l).
Proof.
  induction l; simpl; [constructor|by apply insert_sorted_sorted].
Qed.
End stable_sort_facts.

(** ** Reasoning about results *)

Lemma bind_Ok {A B} (m : result A) (f : A → result B) (b : B) :
  bind m f = Ok b ↔ ∃ a, m = Ok a ∧ f a = Ok b.
Proof.
  destruct m as [a|e]; simpl; split.
  - eauto.
  - by intros (a' & [= ->] & ?).
  - done.
  - by intros (a' & ? & ?).
Qed.

Lemma bind_Raise {A B} (m : result A) (f : A → result B) (e : error) :
  bind m f = Raise e ↔ m = Raise e ∨ ∃ a, m = Ok a ∧ f a = Raise e.
Proof.
  destruct m as [a|e']; simpl; split.
  - eauto.
  - intros [?|(a' & Ha & ?)]; [done|]. by injection Ha as ->.
  - intros [= ->]. by left.
  - intros [[= ->]|(a' & ? & ?)]; done.
Qed.

(** Splits a successful run into its successful steps. *)
Ltac inv_ok :=
  repeat match goal with
    | H : bind _ _ = Ok _ |- _ =>
        let a := fresh "x" in
        let Ha := fresh "Hstep" in
        apply bind_Ok in H as (a & Ha & H); simpl in H
    | H : Ok _ = Ok _ |- _ => injection H as H
    | H : Raise _ = Ok _ |- _ => discriminate H
    | H : (let (_, _) := ?p in _) = Ok _ |- _ => destruct p
    | H : (match ?p with (_, _) => _ end) = Ok _ |- _ => destruct p
    end.

Lemma try_map_length {A B} (f : A → result B) l l' :
  try_map f l = Ok l' → length l' = length l.
Proof.
  revert l'. induction l as [|x l IH]; intros l' Hl; simpl in Hl.
  - by injection Hl as <-.
  - inv_ok. subst l'. simpl. f_equal. by apply IH.
Qed.

Lemma try_map_lookup {A B} (f : A → result B) l l' i x :
  try_map f l = Ok l' → l !! i = Some x → ∃ y, l' !! i = Some y ∧ f x = Ok y.
Proof.
  revert l' i. induction l as [|z l IH]; intros l' i Hl Hx; [done|].
  simpl in Hl. inv_ok. subst l'.
  destruct i as [|i]; simpl in *.
  - injection Hx as ->. eauto.
  - eauto.
Qed.

Lemma try_map_Forall2 {A B} (f : A → result B) l l' :
  try_map f l = Ok l' → Forall2 (λ x y, f x = Ok y) l l'.
Proof.
  revert l'. induction l as [|z l IH]; intros l' Hl; simpl in Hl.
  - injection Hl as <-. constructor.
  - inv_ok. subst l'. constructor; eauto.
Qed.

(** ** Columns of the tables the operations build *)

Lemma require_columns_Ok df cs :
  require_columns df cs = Ok () ↔ ∀ c, c ∈ cs → c ∈ columns df.
Proof.
  unfold require_columns.
  destruct (filter _ cs) as [|c l] eqn:E.
  - split; [|done]. intros _ c Hc.
    destruct (decide (c ∈ columns df)) as [|Hn]; [done|].
    assert (c ∈ filter (λ c, c ∉ columns df) cs) as Hin
      by (apply list_elem_of_filter; done).
    rewrite E in Hin. by apply elem_of_nil in Hin.
  - split; [done|]. intros Hall.
    assert (c ∈ filter (λ c, c ∉ columns df) cs) as Hin
      by (rewrite E; left).
    apply list_elem_of_filter in Hin as [Hn Hc]. by apply Hall in Hc.
Qed.

Lemma getitem_Ok df c s :
  getitem df c = Ok s ↔ c ∈ columns df ∧ s = (λ r, r !!! c) <$> rows df.
Proof.
  unfold getitem. case_decide; split; try done.
  - intros [= <-]. done.
  - intros [_ ->]. done.
  - intros [? _]. done.
Qed.

Lemma getitem_missing df c : c ∉ columns df → getitem df c = Raise (KeyError c).
Proof. intros. unfold getitem. by case_decide. Qed.

Lemma groupby_agg_columns agg df keys col d :
  groupby_agg agg df keys col = Ok d → columns d = keys ++ [col].
Proof. unfold groupby_agg. intros Hd. inv_ok. by subst d. Qed.

(** Decides membership of a label in a list of labels written out. *)
Ltac solve_cols :=
  rewrite ?elem_of_app, ?elem_of_cons, ?elem_of_nil;
  first [ tauto | by intuition congruence | naive_solver ].

Lemma rename_fresh df old new :
  old ∈ columns df → new ∉ columns df →
  rename df old new =
    Ok {| columns := (λ c, if decide (c = old) then new else c) <$> columns df;
          rows := (λ r, <[new := r !!! old]> (delete old r)) <$> rows df |}.
Proof. intros. unfold rename. by rewrite !decide_True_pi || (repeat case_decide). Qed.


(** ** Keys of rows under the table operations *)

Lemma key_of_insert_ne keys c v (r : Row) :
  c ∉ keys → key_of keys (<[c := v]> r) = key_of keys r.
Proof.
  intros Hc. unfold key_of. apply list_fmap_ext. intros i k Hk.
  apply lookup_total_insert_ne. intros ->.
  apply Hc. by eapply list_elem_of_lookup_2.
Qed.

Lemma key_of_length keys (r : Row) : length (key_of keys r) = length keys.
Proof. unfold key_of. by rewrite length_fmap. Qed.

(** A column that [f] does not read can be assigned without changing
    what [f] sees of the rows. *)
Lemma fmap_zip_with_insert {B} (f : Row → B) c (rs : list Row) (s : list value) :
  (∀ r v, f (<[c := v]> r) = f r) →
  length s = length rs →
  f <$> zip_with (λ r v, <[c := v]> r) rs s = f <$> rs.
Proof.
  intros Hf. revert s. induction rs as [|r rs IH]; intros [|v s] Hlen; try done.
  simpl. rewrite Hf. f_equal. apply IH. by injection Hlen.
Qed.

Lemma zip_with_insert_lookup c (rs : list Row) (s : list value) i r :
  zip_with (λ r v, <[c := v]> r) rs s !! i = Some r →
  ∃ r0 v, rs !! i = Some r0 ∧ s !! i = Some v ∧ r = <[c := v]> r0.
Proof.
  intros Hr. apply lookup_zip_with_Some in Hr as (r0 & v & -> & ? & ?).
  eauto.
Qed.

Lemma Forall_zip_with_insert (P : Row → Prop) c (rs : list Row) (s : list value) :
  (∀ r v, P r → P (<[c := v]> r)) →
  Forall P rs → Forall P (zip_with (λ r v, <[c := v]> r) rs s).
Proof.
  intros HP Hrs. revert s. induction Hrs as [|r rs Hr _ IH]; intros [|v s];
    simpl; constructor; auto.
Qed.

(** ** Facts on [groupby_agg] *)

Lemma key_of_key_row keys k :
  NoDup keys → length k = length keys → key_of keys (key_row keys k) = k.
Proof.
  unfold key_of, key_row. revert k.
  induction keys as [|c keys IH]; intros [|v k] Hnd Hlen; try done.
  apply NoDup_cons in Hnd as [Hc Hnd]. simpl.
  rewrite lookup_total_insert_eq. f_equal.
  etrans; [|apply (IH k Hnd); by injection Hlen].
  apply list_fmap_ext. intros i c' Hc'. apply lookup_total_insert_ne.
  intros ->. apply Hc. by eapply list_elem_of_lookup_2.
Qed.

Lemma group_keys_spec keys rs k :
  k ∈ group_keys keys rs ↔ k ∈ (key_of keys <$> rs) ∧ VNaN ∉ k.
Proof.
  unfold group_keys. rewrite stable_sort_perm, elem_of_remove_dups.
  rewrite list_elem_of_filter. tauto.
Qed.

Lemma group_keys_NoDup keys rs : NoDup (group_keys keys rs).
Proof. unfold group_keys. rewrite stable_sort_perm. apply NoDup_remove_dups. Qed.

(** What [groupby_agg] returns: its columns, one row per key, each key
    once and without missing parts, each value the aggregate of the rows
    of its key. *)
Lemma groupby_agg_spec agg df keys col d :
  NoDup keys → col ∉ keys →
  groupby_agg agg df keys col = Ok d →
  columns d = keys ++ [col] ∧
  key_of keys <$> rows d = group_keys keys (rows df) ∧
  Forall (λ r, agg ((λ r', r' !!! col) <$> group_rows keys (key_of keys r) (rows df))
               = Ok (r !!! col)) (rows d) ∧
  Forall (λ r, dom r = list_to_set (keys ++ [col])) (rows d).
Proof.
  intros Hnd Hcol. unfold groupby_agg. intros Hd. inv_ok. subst d. simpl.
  rename x0 into rs.
  assert (Forall2 (λ k r, ∃ v,
            agg ((λ r', r' !!! col) <$> group_rows keys k (rows df)) = Ok v ∧
            r = <[col := v]> (key_row keys k))
          (group_keys keys (rows df)) rs) as Hrs.
  { apply try_map_Forall2 in Hstep0.
    eapply Forall2_impl; [exact Hstep0|]. simpl. intros k r Hk.
    inv_ok. subst r. eauto. }
  assert (∀ k, k ∈ group_keys keys (rows df) → length k = length keys) as Hlen.
  { intros k [Hk _]%group_keys_spec.
    apply list_elem_of_fmap in Hk as (r & -> & _). apply key_of_length. }
  split; [done|].
  assert (Forall2 (λ k r, key_of keys r = k ∧
             agg ((λ r', r' !!! col) <$> group_rows keys (key_of keys r) (rows df))
               = Ok (r !!! col) ∧
             dom r = list_to_set (keys ++ [col]))
          (group_keys keys (rows df)) rs) as Hrs'.
  { apply Forall2_same_length_lookup. split; [by eapply Forall2_length|].
    intros i k r Hk Hr.
    destruct (Forall2_lookup_lr _ _ _ _ _ _ Hrs Hk Hr) as (v & Hv & ->).
    assert (key_of keys (<[col:=v]> (key_row keys k)) = k) as Hkey.
    { rewrite key_of_insert_ne by done. apply key_of_key_row; [done|].
      apply Hlen. by eapply list_elem_of_lookup_2. }
    split; [done|]. rewrite Hkey, lookup_total_insert_eq. split; [done|].
    rewrite dom_insert_L. unfold key_row. rewrite dom_list_to_map_L.
    rewrite fst_zip by (rewrite Hlen; [done|by eapply list_elem_of_lookup_2]).
    rewrite list_to_set_app_L. simpl. set_solver. }
  split_and!.
  - clear -Hrs'. induction Hrs' as [|k r ks rs' (? & _) _ IH]; simpl; [done|].
    by f_equal.
  - clear -Hrs'. induction Hrs' as [|k r ks rs' (_ & ? & _) _ IH];
      constructor; done.
  - clear -Hrs'. induction Hrs' as [|k r ks rs' (_ & _ & ?) _ IH];
      constructor; done.
Qed.

Lemma agg_sum_numeric s v : agg_sum s = Ok v → ∃ q, num_of v = Some q.
Proof.
  unfold agg_sum. intros Hv. inv_ok.
  destruct (mapM as_int _); injection Hv as <-; simpl; eauto.
Qed.

Lemma agg_mean_float s v : agg_mean s = Ok v → v = VNaN ∨ ∃ q, v = VFloat q.
Proof.
  unfold agg_mean. intros Hv. inv_ok.
  destruct x; injection Hv as <-; eauto.
Qed.

(** ** Facts on [merge_left] *)

Lemma filter_unique {A B} `{EqDecision B} (f : A → B) (k : B) (l : list A) :
  NoDup (f <$> l) →
  filter (λ x, f x = k) l = [] ∨ ∃ m, filter (λ x, f x = k) l = [m].
Proof.
  induction l as [|x l IH]; intros Hnd; [by left|].
  simpl in Hnd. apply NoDup_cons in Hnd as [Hx Hnd].
  rewrite filter_cons. case_decide as Hk.
  - right. exists x. f_equal.
    destruct (filter (λ x, f x = k) l) as [|y l'] eqn:E; [done|].
    exfalso. apply Hx.
    assert (y ∈ filter (λ x, f x = k) l) as Hy by (rewrite E; left).
    apply list_elem_of_filter in Hy as [Hy1 Hy2].
    apply list_elem_of_fmap. exists y. split; [congruence|done].
  - by apply IH.
Qed.

Lemma filter_extra (keys : list string) (c : string) :
  c ∉ keys → filter (λ c', c' ∉ keys) (keys ++ [c]) = [c].
Proof.
  intros Hc. rewrite filter_app.
  replace (filter (λ c', c' ∉ keys) keys) with (@nil string).
  - simpl. rewrite filter_cons. by rewrite decide_True.
  - symmetry. destruct (filter (λ c', c' ∉ keys) keys) as [|x l] eqn:E; [done|].
    assert (x ∈ filter (λ c', c' ∉ keys) keys) as Hx by (rewrite E; left).
    by apply list_elem_of_filter in Hx as [? ?].
Qed.

Lemma merge_left_spec left right keys c M :
  c ∉ keys →
  columns right = keys ++ [c] →
  NoDup (key_of keys <$> rows right) →
  merge_left left right keys = Ok M →
  columns M = columns left ++ [c] ∧
  rows M = (λ l, <[c := joined_population keys right c l]> l) <$> rows left.
Proof.
  intros Hc Hcols Hnd. unfold merge_left. intros HM. inv_ok. subst M. simpl.
  rewrite Hcols, filter_extra by done. split; [done|]. simpl.
  induction (rows left) as [|l ls IH]; [done|].
  rewrite bind_cons, fmap_cons. rewrite IH. clear IH.
  unfold joined_population.
  destruct (filter_unique (key_of keys) (key_of keys l) (rows right) Hnd)
    as [->|[m ->]]; simpl.
  - f_equal. rewrite <-insert_union_l. by rewrite (left_id_L ∅ (∪)).
  - f_equal. rewrite <-insert_union_l. by rewrite (left_id_L ∅ (∪)).
Qed.

Lemma Forall_key_transfer (cols : list string) (P : list value → Prop)
    (l1 l2 : list Row) :
  key_of cols <$> l1 ≡ₚ key_of cols <$> l2 →
  Forall (λ r, P (key_of cols r)) l2 → Forall (λ r, P (key_of cols r)) l1.
Proof.
  intros Hk H2.
  assert (Forall P (key_of cols <$> l2)) as H2'.
  { apply Forall_forall. intros k (r & -> & Hr)%list_elem_of_fmap.
    by apply (proj1 (Forall_forall _ _) H2). }
  rewrite <-Hk in H2'. apply Forall_forall. intros r Hr.
  apply (proj1 (Forall_forall _ _) H2'). apply list_elem_of_fmap. eauto.
Qed.

(** ** The tables of steps 8 to 10 *)

Lemma merge_key_cases d :
  merge_key d = YEAR_KEY ∨ merge_key d = TIME_DIM_KEY.
Proof. unfold merge_key. case_decide; eauto. Qed.

Lemma key_NoDup key :
  key = YEAR_KEY ∨ key = TIME_DIM_KEY →
  NoDup key ∧ ("dengue_cases" ∉ key) ∧ ("population" ∉ key) ∧
  ("cases_per_100k" ∉ key) ∧ ("lag_cases_1" ∉ key) ∧ ("lag_cases_2" ∉ key) ∧
  ("ma3_cases" ∉ key) ∧ ("spatial_dim" ∈ key).
Proof.
  intros [->| ->]; unfold YEAR_KEY, TIME_DIM_KEY;
    (split; [repeat (apply NoDup_cons; split; [solve_cols|]); apply NoDup_nil_2|]);
    split_and!; solve_cols.
Qed.

Section aligner.
Context `{PyRuntime}.

Lemma consolidate_spec dy0 py0 dy py key :
  consolidate dy0 py0 = Ok (dy, py, key) →
  (key = YEAR_KEY ∨ key = TIME_DIM_KEY) ∧
  columns dy = key ++ ["dengue_cases"] ∧
  columns py = key ++ ["population"] ∧
  NoDup (key_of key <$> rows dy) ∧
  NoDup (key_of key <$> rows py) ∧
  Forall (λ r, VNaN ∉ key_of key r) (rows dy) ∧
  Forall (λ r, ∃ q, num_of (r !!! "dengue_cases") = Some q) (rows dy) ∧
  Forall population_ok (rows py).
Proof.
  unfold consolidate. intros Hc. inv_ok. subst.
  rename x into d1, x0 into p1.
  pose proof (merge_key_cases d1) as Hkey.
  destruct (key_NoDup _ Hkey) as (Hnd & Hdc & Hpop & _).
  destruct (groupby_agg_spec _ _ _ _ _ Hnd Hdc Hstep1) as (Hc1 & Hk1 & Ha1 & _).
  destruct (groupby_agg_spec _ _ _ _ _ Hnd Hpop Hstep2) as (Hc2 & Hk2 & Ha2 & _).
  split_and!; try done;
    try (rewrite ?Hk1, ?Hk2; apply group_keys_NoDup).
  - apply Forall_forall. intros r Hr.
    assert (key_of (merge_key d1) r ∈ group_keys (merge_key d1) (rows d1)) as Hin.
    { rewrite <-Hk1. apply list_elem_of_fmap. eauto. }
    by apply group_keys_spec in Hin as [_ ?].
  - eapply Forall_impl; [exact Ha1|]. simpl. intros r Hr.
    by eapply agg_sum_numeric.
  - eapply Forall_impl; [exact Ha2|]. simpl. intros r Hr.
    by eapply agg_mean_float.
Qed.

(** Step 9 sums the cases and averages the population of the rows of
    each key. *)
Lemma consolidate_aggregates dy0 py0 dy py key :
  consolidate dy0 py0 = Ok (dy, py, key) →
  ∃ cases_tbl pop_tbl,
    case_table dy0 = Ok cases_tbl ∧
    population_table py0 = Ok pop_tbl ∧
    key = merge_key cases_tbl ∧
    key_of key <$> rows py = group_keys key (rows pop_tbl) ∧
    Forall (λ r, agg_sum ((λ r', r' !!! "dengue_cases") <$>
                            group_rows key (key_of key r) (rows cases_tbl))
                 = Ok (r !!! "dengue_cases")) (rows dy) ∧
    Forall (λ r, agg_mean ((λ r', r' !!! "population") <$>
                             group_rows key (key_of key r) (rows pop_tbl))
                 = Ok (r !!! "population")) (rows py).
Proof.
  unfold consolidate. intros Hc. inv_ok. subst.
  rename x into d1, x0 into p1.
  pose proof (merge_key_cases d1) as Hkey.
  destruct (key_NoDup _ Hkey) as (Hnd & Hdc & Hpop & _).
  destruct (groupby_agg_spec _ _ _ _ _ Hnd Hdc Hstep1) as (Hc1 & Hk1 & Ha1 & _).
  destruct (groupby_agg_spec _ _ _ _ _ Hnd Hpop Hstep2) as (Hc2 & Hk2 & Ha2 & _).
  exists d1, p1. by split_and!.
Qed.

Lemma joined_population_ok key py l :
  Forall population_ok (rows py) →
  joined_population key py "population" l = VNaN ∨
  ∃ p, joined_population key py "population" l = VFloat p.
Proof.
  intros Hpy. unfold joined_population.
  destruct (filter _ (rows py)) as [|m ms] eqn:E; [by left|].
  assert (m ∈ filter (λ r, key_of key r = key_of key l) (rows py)) as Hm
    by (rewrite E; left).
  apply list_elem_of_filter in Hm as [_ Hm].
  by apply (proj1 (Forall_forall _ _) Hpy) in Hm.
Qed.

(** The table of step 10: the case rows, each once and in their order,
    with the population of their key, or none, and a [year]. *)
Lemma join_rows dy0 py0 dy py key df_yr :
  consolidate dy0 py0 = Ok (dy, py, key) →
  join dy py key = Ok df_yr →
  ∀ cols, ("year" ∈ cols → "year" ∈ key) →
    key_of cols <$> rows df_yr
    = key_of cols <$>
        ((λ l, <["population" := joined_population key py "population" l]> l)
           <$> rows dy).
Proof.
  intros Hc Hj.
  destruct (consolidate_spec _ _ _ _ _ Hc)
    as (Hkey & Hcd & Hcp & Hnd & Hnp & _ & _ & Hpop).
  destruct (key_NoDup _ Hkey) as (Hndk & Hdc & Hpk & _).
  unfold join in Hj. inv_ok. rename x into M.
  destruct (merge_left_spec _ _ _ "population" M Hpk Hcp Hnp Hstep) as [HcM HrM].
  rewrite <-HrM. intros cols Hy.
  case_decide as Hyear; [by injection Hj as <-|].
  inv_ok. subst df_yr. rename x into y.
  assert (length y = length (rows M)) as Hlen.
  { unfold year_of_time_dim in Hstep0. inv_ok.
    apply try_map_length in Hstep0.
    apply getitem_Ok in Hstep1 as [_ ->].
    unfold astype_str in Hstep0. by rewrite !length_fmap in Hstep0. }
  assert ("year" ∉ key) as Hny.
  { intros Hin. apply Hyear. rewrite HcM, Hcd. revert Hin. solve_cols. }
  simpl. rewrite fmap_zip_with_insert; [done| |done].
  intros r v. apply key_of_insert_ne. tauto.
Qed.

Lemma join_spec dy0 py0 dy py key df_yr :
  consolidate dy0 py0 = Ok (dy, py, key) →
  join dy py key = Ok df_yr →
  (∀ cols, "population" ∉ cols → ("year" ∈ cols → "year" ∈ key) →
     key_of cols <$> rows df_yr = key_of cols <$> rows dy) ∧
  Forall population_ok (rows df_yr) ∧
  (∀ c, c ∈ key ++ ["dengue_cases"; "population"; "year"] → c ∈ columns df_yr).
Proof.
  intros Hc Hj.
  pose proof (join_rows _ _ _ _ _ _ Hc Hj) as Hrows.
  destruct (consolidate_spec _ _ _ _ _ Hc)
    as (Hkey & Hcd & Hcp & Hnd & Hnp & _ & _ & Hpop).
  destruct (key_NoDup _ Hkey) as (Hndk & Hdc & Hpk & _).
  split_and!.
  - intros cols Hcols Hy. rewrite Hrows by done.
    rewrite <-list_fmap_compose. apply list_fmap_ext. intros i l _. simpl.
    by apply key_of_insert_ne.
  - apply (Forall_key_transfer ["population"]
             (λ k, default VNaN (head k) = VNaN ∨
                   ∃ p, default VNaN (head k) = VFloat p)
             _ ((λ l, <["population" := joined_population key py "population" l]> l)
                  <$> rows dy)).
    + rewrite Hrows; [done|]. destruct Hkey as [-> | ->]; solve_cols.
    + apply Forall_fmap, Forall_forall. intros l _. unfold key_of. simpl.
      rewrite lookup_total_insert_eq. by apply joined_population_ok.
  - unfold join in Hj. inv_ok. rename x into M.
    destruct (merge_left_spec _ _ _ "population" M Hpk Hcp Hnp Hstep) as [HcM HrM].
    case_decide as Hyear.
    + injection Hj as <-. intros c Hin. rewrite HcM, Hcd. clear -Hin Hyear HcM Hcd.
      rewrite HcM, Hcd in Hyear. revert Hin Hyear. solve_cols.
    + inv_ok. subst df_yr. intros c Hin. simpl. rewrite decide_False by done.
      rewrite HcM, Hcd. clear -Hin. revert Hin. solve_cols.
Qed.

End aligner.

(** ** The rate of step 11 *)

Lemma as_number_num v q : num_of v = Some q → as_number v = Ok (Some q).
Proof. destruct v; simpl; intros Hq; try done; by rewrite <-Hq. Qed.

Lemma rate_cell r :
  (∃ q, num_of (r !!! "dengue_cases") = Some q) → population_ok r →
  ∃ ratio,
    cell_div (r !!! "dengue_cases") (replace_zero_nan (r !!! "population")) = Ok ratio ∧
    cell_mul_float (Qc_of_Z 100000) ratio = Ok (rate_of r).
Proof.
  intros [c Hc] Hp. unfold rate_of, cell_div. rewrite Hc.
  rewrite (as_number_num _ _ Hc). simpl.
  destruct Hp as [-> | [p ->]]; simpl.
  - by exists VNaN.
  - case_decide as Hz; simpl.
    + by exists VNaN.
    + rewrite decide_False by done. by eexists.
Qed.

Lemma rate_cells (rs : list Row) :
  Forall (λ r, ∃ q, num_of (r !!! "dengue_cases") = Some q) rs →
  Forall population_ok rs →
  ∃ ratio,
    series_div ((λ r, r !!! "dengue_cases") <$> rs)
               (replace_zero_nan <$> ((λ r, r !!! "population") <$> rs)) = Ok ratio ∧
    try_map (cell_mul_float (Qc_of_Z 100000)) ratio = Ok (rate_of <$> rs).
Proof.
  unfold series_div.
  induction rs as [|r rs IH]; intros Hc Hp; [by exists []|].
  apply Forall_cons in Hc as [Hc Hcs]. apply Forall_cons in Hp as [Hp Hps].
  destruct (IH Hcs Hps) as (ratio & Hr1 & Hr2).
  destruct (rate_cell r Hc Hp) as (x & Hx1 & Hx2).
  exists (x :: ratio). csimpl. rewrite Hx1. csimpl. rewrite Hr1. csimpl.
  rewrite Hx2. csimpl. by rewrite Hr2.
Qed.

Lemma add_rate_spec df_yr :
  "dengue_cases" ∈ columns df_yr → "population" ∈ columns df_yr →
  Forall (λ r, ∃ q, num_of (r !!! "dengue_cases") = Some q) (rows df_yr) →
  Forall population_ok (rows df_yr) →
  add_rate df_yr = Ok (setitem df_yr "cases_per_100k" (rate_of <$> rows df_yr)).
Proof.
  intros H1 H2 Hc Hp. unfold add_rate, getitem.
  rewrite !decide_True by done. simpl.
  destruct (rate_cells _ Hc Hp) as (ratio & -> & Hr2). simpl. by rewrite Hr2.
Qed.

(** ** Group-wise transforms put each group's column back in place *)

Section transform.
Context {R K B : Type} `{EqDecision K}.
Context (key : R → K) (valid : K → bool) (f : list R → list B) (d : B).

Lemma transform_from_length all seen rest :
  length (transform_from key valid f d all seen rest) = length rest.
Proof.
  revert seen. induction rest as [|r rest IH]; intros seen; simpl; [done|].
  by rewrite IH.
Qed.

Lemma group_transform_length rs :
  length (group_transform key valid f d rs) = length rs.
Proof. apply transform_from_length. Qed.

Lemma transform_from_group all seen rest k :
  all = seen ++ rest → valid k = true →
  (∀ g, length (f g) = length g) →
  snd <$> filter (λ p, key p.1 = k)
            (zip rest (transform_from key valid f d all seen rest))
  = drop (length (filter (λ r, key r = k) seen))
         (f (filter (λ r, key r = k) all)).
Proof.
  intros Hall Hk Hf. revert seen Hall.
  induction rest as [|r rest IH]; intros seen Hall.
  - simpl. rewrite app_nil_r in Hall. subst all.
    symmetry. apply drop_ge. by rewrite Hf.
  - simpl. rewrite filter_cons. simpl.
    assert (all = (seen ++ [r]) ++ rest) as Hall' by by rewrite <-app_assoc.
    specialize (IH _ Hall'). rewrite filter_app in IH.
    case_decide as Hr.
    + rewrite fmap_cons, IH. simpl. rewrite Hr, Hk.
      rewrite filter_cons_True by done. rewrite length_app. simpl.
      set (n := length (filter (λ r0, key r0 = k) seen)).
      assert (n < length (f (filter (λ r0, key r0 = k) all))) as Hn.
      { rewrite Hf, Hall, filter_app, filter_cons_True, length_app by done.
        simpl. fold n. lia. }
      apply lookup_lt_is_Some_2 in Hn as [y Hy].
      rewrite Hy. simpl. rewrite Nat.add_1_r.
      by rewrite (drop_S _ _ _ Hy).
    + rewrite IH. rewrite filter_cons_False by done.
      by rewrite app_nil_r.
Qed.

Lemma group_transform_group rs k :
  valid k = true → (∀ g, length (f g) = length g) →
  snd <$> filter (λ p, key p.1 = k) (zip rs (group_transform key valid f d rs))
  = f (filter (λ r, key r = k) rs).
Proof.
  intros Hk Hf. unfold group_transform.
  by rewrite (transform_from_group rs [] rs k).
Qed.

End transform.

Lemma filter_zip_with_fst {A B C} (P : C → Prop) (Q : A → Prop)
    `{∀ x, Decision (P x), ∀ x, Decision (Q x)}
    (g : A → B → C) (xs : list A) (ys : list B) :
  (∀ x y, P (g x y) ↔ Q x) →
  filter P (zip_with g xs ys)
  = zip_with g (filter Q xs) (snd <$> filter (λ p, Q p.1) (zip xs ys)).
Proof.
  intros HPQ. revert ys. induction xs as [|x xs IH]; intros [|y ys]; simpl.
  - done.
  - done.
  - by destruct (filter Q (x :: xs)).
  - rewrite !filter_cons. simpl.
    destruct (decide (Q x)) as [Hq|Hq].
    + rewrite decide_True by by apply HPQ. simpl. by rewrite IH.
    + rewrite decide_False by (by rewrite HPQ). apply IH.
Qed.

(** Assigning a group-wise column, seen from one group: the rows of the
    group, in order, each with its cell of [f] applied to the group. *)
Lemma grouped_setitem (keys : list string) (c : string)
    (f : list Row → list value) (rs : list Row) (k : list value) :
  c ∉ keys → no_nan k = true → (∀ g, length (f g) = length g) →
  filter (λ r, key_of keys r = k)
    (zip_with (λ r v, <[c := v]> r) rs
       (group_transform (key_of keys) no_nan f VNaN rs))
  = zip_with (λ r v, <[c := v]> r)
      (filter (λ r, key_of keys r = k) rs)
      (f (filter (λ r, key_of keys r = k) rs)).
Proof.
  intros Hc Hk Hf.
  rewrite (filter_zip_with_fst _ (λ r, key_of keys r = k)).
  - by rewrite group_transform_group.
  - intros r v. by rewrite key_of_insert_ne.
Qed.

(** ** Step 12, country by country *)

Lemma shift_length n s : length (shift n s) = length s.
Proof.
  unfold shift. rewrite length_take, length_app, length_replicate, length_fmap.
  lia.
Qed.

Lemma rolling_mean_length w m s : length (rolling_mean w m s) = length s.
Proof. unfold rolling_mean. by rewrite length_imap. Qed.

Lemma shift_lookup n s k :
  k < length s →
  shift n s !! k =
    Some (if decide (k < n) then VNaN else to_float (s !!! (k - n))).
Proof.
  intros Hk. unfold shift. rewrite lookup_take_lt by done.
  case_decide as Hn.
  - rewrite lookup_app_l by (by rewrite length_replicate).
    by rewrite lookup_replicate_2.
  - rewrite lookup_app_r by (rewrite length_replicate; lia).
    rewrite length_replicate, list_lookup_fmap.
    assert (k - n < length s) as Hlt by lia.
    apply lookup_lt_is_Some_2 in Hlt as [x Hx].
    rewrite Hx. simpl. by rewrite (list_lookup_total_correct _ _ _ Hx).
Qed.

Lemma key_of_spatial_dim (r : Row) (c : value) :
  key_of ["spatial_dim"] r = [c] ↔ r !!! "spatial_dim" = c.
Proof. unfold key_of. simpl. split; [by intros [= ->]|by intros ->]. Qed.

Lemma add_lags_rows rated t :
  add_lags rated = Ok t →
  let key := key_of ["spatial_dim"] in
  let cases := λ g : list Row, (λ r : Row, r !!! "dengue_cases") <$> g in
  let s0 := sorted_rows rated in
  let s1 := zip_with (λ r v, <["lag_cases_1" := v]> r) s0
              (group_transform key no_nan (λ g, shift 1 (cases g)) VNaN s0) in
  let s2 := zip_with (λ r v, <["lag_cases_2" := v]> r) s1
              (group_transform key no_nan (λ g, shift 2 (cases g)) VNaN s1) in
  rows t = zip_with (λ r v, <["ma3_cases" := v]> r) s2
             (group_transform key no_nan
                (λ g, rolling_mean 3 1 ((λ r : Row, num_of (r !!! "dengue_cases")) <$> g))
                VNaN s2).
Proof.
  unfold add_lags, sort_values, groupby_shift, groupby_rolling_mean.
  intros Ht. inv_ok. by subst.
Qed.

Lemma add_lags_insensitive {X} (f : Row → X) rated t :
  (∀ c v r, c ∈ ["lag_cases_1"; "lag_cases_2"; "ma3_cases"] →
            f (<[c := v]> r) = f r) →
  add_lags rated = Ok t →
  f <$> rows t = f <$> sorted_rows rated.
Proof.
  intros Hf Ht. rewrite (add_lags_rows _ _ Ht). simpl.
  rewrite !fmap_zip_with_insert; try done.
  all: try (intros; apply Hf; solve_cols).
  all: rewrite group_transform_length; try done.
  all: rewrite ?length_zip_with, ?group_transform_length; lia.
Qed.

(** The rows of one country in the finished table are the sorted rows of
    that country with their features. *)
Lemma filter_spatial_dim (c : value) (l : list Row) :
  filter (λ r, r !!! "spatial_dim" = c) l
  = filter (λ r, key_of ["spatial_dim"] r = [c]) l.
Proof. apply list_filter_iff. intros r. by rewrite key_of_spatial_dim. Qed.

Lemma cases_zip_with_insert c' (g : list Row) (l : list value) :
  c' ≠ "dengue_cases" → length l = length g →
  (λ r : Row, r !!! "dengue_cases") <$> zip_with (λ (r : Row) v, <[c' := v]> r) g l
  = (λ r : Row, r !!! "dengue_cases") <$> g.
Proof.
  intros Hne Hl. apply fmap_zip_with_insert; [|done].
  intros r v. by rewrite lookup_total_insert_ne.
Qed.

Lemma num_of_cases (g : list Row) :
  (λ r : Row, num_of (r !!! "dengue_cases")) <$> g
  = num_of <$> ((λ r : Row, r !!! "dengue_cases") <$> g).
Proof. by rewrite <-list_fmap_compose. Qed.

Lemma add_lags_by_country rated t c :
  add_lags rated = Ok t → c ≠ VNaN →
  country_rows c t =
    with_features (filter (λ r, r !!! "spatial_dim" = c) (sorted_rows rated)).
Proof.
  intros Ht Hc. unfold country_rows. rewrite (add_lags_rows _ _ Ht). simpl.
  assert (no_nan [c] = true) as Hnn.
  { unfold no_nan. apply bool_decide_eq_true. intros Hin.
    apply list_elem_of_singleton in Hin. done. }
  rewrite !filter_spatial_dim.
  rewrite grouped_setitem; [|solve_cols|done|]; last first.
  { intros g. by rewrite rolling_mean_length, !length_fmap. }
  rewrite grouped_setitem; [|solve_cols|done|]; last first.
  { intros g. by rewrite shift_length, !length_fmap. }
  rewrite grouped_setitem; [|solve_cols|done|]; last first.
  { intros g. by rewrite shift_length, !length_fmap. }
  unfold with_features.
  set (g := filter _ (sorted_rows rated)).
  rewrite num_of_cases.
  rewrite !cases_zip_with_insert; try done.
  all: rewrite ?length_zip_with, ?shift_length, ?length_fmap; try lia.
  all: rewrite ?cases_zip_with_insert; try done.
  all: rewrite ?length_zip_with, ?shift_length, ?length_fmap; try lia.
Qed.

(** ** The feature table *)

Lemma rate_row_ok_insert c v r :
  c ∉ ["dengue_cases"; "population"; "cases_per_100k"] →
  rate_row_ok r → rate_row_ok (<[c := v]> r).
Proof.
  intros Hc. unfold rate_row_ok, population_ok, rate_of.
  rewrite !lookup_total_insert_ne by (intros ->; apply Hc; solve_cols).
  done.
Qed.

Lemma rate_rows_ok (l : list Row) :
  Forall (λ r, ∃ q, num_of (r !!! "dengue_cases") = Some q) l →
  Forall population_ok l →
  Forall rate_row_ok
    (zip_with (λ r v, <["cases_per_100k" := v]> r) l (rate_of <$> l)).
Proof.
  induction l as [|r l IH]; intros Hc Hp; [constructor|].
  apply Forall_cons in Hc as [Hc Hcs]. apply Forall_cons in Hp as [Hp Hps].
  simpl. constructor; [|by apply IH].
  unfold rate_row_ok, population_ok, rate_of.
  rewrite lookup_total_insert_eq, !lookup_total_insert_ne by done.
  done.
Qed.

Section feature_table.
Context `{PyRuntime}.

Lemma prepare_data_stages df t :
  prepare_data df = Ok t →
  ∃ dengue pop dy0 py0 dy py key df_yr rated,
    classify df = Ok (dengue, pop) ∧
    choose_time_dim dengue pop = Ok (dy0, py0) ∧
    consolidate dy0 py0 = Ok (dy, py, key) ∧
    join dy py key = Ok df_yr ∧
    add_rate df_yr = Ok rated ∧
    add_lags rated = Ok t.
Proof.
  unfold prepare_data, align. intros Ht. inv_ok.
  repeat eexists; eauto.
Qed.

Lemma feature_table_spec dy0 py0 dy py key df_yr rated t :
  consolidate dy0 py0 = Ok (dy, py, key) →
  join dy py key = Ok df_yr →
  add_rate df_yr = Ok rated →
  add_lags rated = Ok t →
  (∀ cols,
     (∀ c, c ∈ ["cases_per_100k"; "lag_cases_1"; "lag_cases_2"; "ma3_cases"] →
           c ∉ cols) →
     key_of cols <$> rows t ≡ₚ key_of cols <$> rows df_yr) ∧
  Forall rate_row_ok (rows t) ∧
  rows rated =
    zip_with (λ r v, <["cases_per_100k" := v]> r) (rows df_yr)
      (rate_of <$> rows df_yr).
Proof.
  intros Hc Hj Hr Hl.
  destruct (consolidate_spec _ _ _ _ _ Hc)
    as (Hkey & Hcd & Hcp & Hnd & Hnp & Hnan & Hnum & Hpop).
  destruct (join_spec _ _ _ _ _ _ Hc Hj) as (HK & HP & Hcols).
  assert (Forall (λ r, ∃ q, num_of (r !!! "dengue_cases") = Some q) (rows df_yr))
    as Hnum'.
  { apply (Forall_key_transfer ["dengue_cases"]
             (λ k, ∃ q, num_of (default VNaN (head k)) = Some q) _ (rows dy));
      [|done].
    rewrite HK; [done|solve_cols|solve_cols]. }
  rewrite add_rate_spec in Hr; [|apply Hcols; solve_cols..|done|done].
  injection Hr as <-.
  assert (Forall rate_row_ok (sorted_rows (setitem df_yr "cases_per_100k"
                                             (rate_of <$> rows df_yr)))) as Hs.
  { unfold sorted_rows. rewrite stable_sort_perm. simpl. by apply rate_rows_ok. }
  split_and!; [| |done].
  - intros cols Hcs.
    rewrite (add_lags_insensitive (key_of cols)
               (setitem df_yr "cases_per_100k" (rate_of <$> rows df_yr)) t); [|
      intros c v r Hin; apply key_of_insert_ne, Hcs; revert Hin; solve_cols|
      done].
    unfold sorted_rows. rewrite stable_sort_perm. simpl.
    rewrite fmap_zip_with_insert; [done| |by rewrite length_fmap].
    intros r v. apply key_of_insert_ne, Hcs. solve_cols.
  - rewrite (add_lags_rows _ _ Hl). simpl.
    repeat (apply Forall_zip_with_insert;
            [intros r v; apply rate_row_ok_insert; solve_cols|]).
    done.
Qed.

End feature_table.

(** ** The rows of one country *)

Lemma with_features_length g : length (with_features g) = length g.
Proof.
  unfold with_features.
  rewrite !length_zip_with, !shift_length, rolling_mean_length, !length_fmap.
  lia.
Qed.

Lemma with_features_row g k r :
  with_features g !! k = Some r →
  ∃ r0 l1 l2 ma,
    g !! k = Some r0 ∧
    shift 1 ((λ r, r !!! "dengue_cases") <$> g) !! k = Some l1 ∧
    shift 2 ((λ r, r !!! "dengue_cases") <$> g) !! k = Some l2 ∧
    rolling_mean 3 1 (num_of <$> ((λ r, r !!! "dengue_cases") <$> g)) !! k = Some ma ∧
    r = <["ma3_cases" := ma]> (<["lag_cases_2" := l2]> (<["lag_cases_1" := l1]> r0)).
Proof.
  unfold with_features. intros Hr.
  apply lookup_zip_with_Some in Hr as (r2 & ma & -> & Hr2 & Hma).
  apply lookup_zip_with_Some in Hr2 as (r1 & l2 & -> & Hr1 & Hl2).
  apply lookup_zip_with_Some in Hr1 as (r0 & l1 & -> & Hr0 & Hl1).
  by exists r0, l1, l2, ma.
Qed.

Lemma with_features_unchanged g c :
  c ∉ ["lag_cases_1"; "lag_cases_2"; "ma3_cases"] →
  (λ r : Row, r !!! c) <$> with_features g = (λ r : Row, r !!! c) <$> g.
Proof.
  intros Hc. unfold with_features.
  rewrite !fmap_zip_with_insert; try done.
  all: try (intros r v; apply lookup_total_insert_ne; intros <-; apply Hc; solve_cols).
  all: rewrite ?length_zip_with, ?shift_length, ?rolling_mean_length, ?length_fmap; lia.
Qed.

Lemma to_float_num v q : num_of v = Some q → to_float v = VFloat q.
Proof. destruct v; simpl; intros [= <-]; done. Qed.

Lemma cases_at_lookup (g : list Row) j r q :
  g !! j = Some r → num_of (r !!! "dengue_cases") = Some q → cases_at g j = q.
Proof. intros Hr Hq. unfold cases_at. rewrite Hr. simpl. by rewrite Hq. Qed.

Lemma Qc_mean_singleton q : Qc_mean [q] = q.
Proof.
  unfold Qc_mean, Qc_of_nat. simpl. rewrite Qcplus_0_r.
  change (Qc_of_Z 1) with 1%Qc. apply Qcdiv_right_id.
Qed.

Lemma take_drop_three {A} (s : list A) k a b c :
  s !! k = Some a → s !! S k = Some b → s !! S (S k) = Some c →
  take 3 (drop k s) = [a; b; c].
Proof.
  intros Ha Hb Hc.
  rewrite (drop_S _ _ _ Ha), (drop_S _ _ _ Hb), (drop_S _ _ _ Hc). done.
Qed.

(** Sorting by country and year leaves the rows of each country in
    ascending order of their years. *)
Lemma value_le_refl v : value_le v v.
Proof. by destruct (total value_le v v). Qed.

Lemma StronglySorted_filter_fmap {A B} (R : relation A) (R' : relation B)
    (P : A → Prop) `{∀ x, Decision (P x)} (f : A → B) (l : list A) :
  (∀ x y, P x → P y → R x y → R' (f x) (f y)) →
  StronglySorted R l → StronglySorted R' (f <$> filter P l).
Proof.
  intros HR. induction 1 as [|x l Hl IH Hx]; [constructor|].
  rewrite filter_cons. case_decide as HP; [|done].
  simpl. constructor; [done|].
  apply Forall_fmap, Forall_forall. intros y [HPy Hy]%list_elem_of_filter.
  apply HR; try done. by apply (proj1 (Forall_forall _ _) Hx).
Qed.

Lemma country_years_sorted (c : value) (l : list Row) :
  StronglySorted value_le
    ((λ r : Row, r !!! "year") <$>
       filter (λ r, r !!! "spatial_dim" = c)
         (stable_sort (row_le ["spatial_dim"; "year"]) l)).
Proof.
  apply (StronglySorted_filter_fmap (row_le ["spatial_dim"; "year"])).
  - intros x y Hx Hy. unfold row_le, on, key_of. simpl.
    rewrite Hx, Hy. intros [_ Hle]. by apply Hle, value_le_refl.
  - apply stable_sort_sorted; apply _.
Qed.

(** ** The feature table: keys, rate, lags and moving average *)

Lemma omap_id_Some {A} (l : list A) : omap id (Some <$> l) = l.
Proof. induction l as [|x l IH]; [done|]. csimpl. by rewrite IH. Qed.

Lemma window_mean_all qs :
  qs ≠ [] → window_mean 1 (Some <$> qs) = VFloat (Qc_mean qs).
Proof.
  intros Hne. unfold window_mean. rewrite omap_id_Some.
  destruct qs as [|q qs]; [done|]. rewrite decide_True by (simpl; lia). done.
Qed.

Lemma take_drop_one {A} (s : list A) a :
  s !! 0 = Some a → take 1 (drop 0 s) = [a].
Proof. intros Ha. by rewrite (drop_S _ _ _ Ha). Qed.

Lemma take_drop_two {A} (s : list A) a b :
  s !! 0 = Some a → s !! 1 = Some b → take 2 (drop 0 s) = [a; b].
Proof. intros Ha Hb. by rewrite (drop_S _ _ _ Ha), (drop_S _ _ _ Hb). Qed.


(** ** The MONTH branch of step 7 *)

Section month_branch.
Context `{PyRuntime}.

Lemma month_to_year_columns agg df d :
  month_to_year agg df = Ok d → columns d = YEAR_KEY ++ ["numeric_value"].
Proof.
  unfold month_to_year. intros Hd. inv_ok.
  by apply groupby_agg_columns in Hd.
Qed.

Lemma choose_time_dim_month dengue pop dengue_y pop_y :
  has_year dengue = Ok false →
  choose_time_dim dengue pop = Ok (dengue_y, pop_y) →
  month_to_year agg_sum dengue = Ok dengue_y ∧
  month_to_year agg_mean pop = Ok pop_y.
Proof.
  unfold choose_time_dim. intros -> Hc. simpl in Hc. inv_ok.
  by subst.
Qed.

Lemma consolidate_after_month dengue_y pop_y :
  columns dengue_y = YEAR_KEY ++ ["numeric_value"] →
  columns pop_y = YEAR_KEY ++ ["numeric_value"] →
  consolidate dengue_y pop_y = Raise (KeyError "indicator_name_norm").
Proof.
  intros Hd Hp. unfold consolidate, case_table, population_table.
  rewrite (rename_fresh dengue_y), (rename_fresh pop_y);
    [|rewrite ?Hd, ?Hp; unfold YEAR_KEY; solve_cols..].
  simpl. unfold detect_thousands.
  rewrite getitem_missing; [done|].
  simpl. rewrite Hp. unfold YEAR_KEY. simpl.
  repeat case_decide; solve_cols.
Qed.

End month_branch.

(** ** Which key step 9 uses *)

Lemma setitem_columns df c s c' :
  c' ∈ columns (setitem df c s) ↔ c' ∈ columns df ∨ c' = c.
Proof.
  simpl. case_decide as Hc.
  - split; [by left|]. by intros [?| ->].
  - rewrite elem_of_app, list_elem_of_singleton. done.
Qed.

Lemma rename_columns df old new d c :
  rename df old new = Ok d → c ≠ old → c ≠ new →
  (c ∈ columns d ↔ c ∈ columns df).
Proof.
  unfold rename. intros Hd Ho Hn. repeat case_decide; try done.
  - injection Hd as <-. simpl. rewrite list_elem_of_fmap. split.
    + intros (c0 & Hc0 & Hin). case_decide; by subst.
    + intros Hin. exists c. by rewrite decide_False.
  - by injection Hd as <-.
Qed.

Section merge_key_of_input.
Context `{PyRuntime}.

Lemma check_required_Ok df u :
  check_required df = Ok u → ∀ c, c ∈ REQUIRED → c ∈ columns df.
Proof.
  unfold check_required. intros Hu c Hc.
  destruct (filter _ REQUIRED) as [|x l] eqn:E; [|done].
  destruct (decide (c ∈ columns df)) as [|Hn]; [done|].
  assert (c ∈ filter (λ c, c ∉ columns df) REQUIRED) as Hin
    by (by apply list_elem_of_filter).
  rewrite E in Hin. by apply elem_of_nil in Hin.
Qed.

Lemma normalize_columns df d c :
  normalize df = Ok d →
  c ∉ ["indicator_name_norm"; "nombre_indicador_norm"] →
  (c ∈ columns d ↔ c ∈ columns df).
Proof.
  unfold normalize. intros Hd Hc. inv_ok. subst d.
  pose proof (check_required_Ok _ _ Hstep) as Hreq.
  cbn [columns select]. rewrite !setitem_columns.
  split; [|tauto].
  intros [[[[?| ->]| ->]| ->]| ->]; try done.
  - exfalso. apply Hc. solve_cols.
  - exfalso. apply Hc. solve_cols.
  - apply Hreq. unfold REQUIRED. solve_cols.
  - apply Hreq. unfold REQUIRED. solve_cols.
Qed.

Lemma classify_columns df dengue pop c :
  classify df = Ok (dengue, pop) →
  c ∉ ["indicator_name_norm"; "nombre_indicador_norm"] →
  (c ∈ columns dengue ↔ c ∈ columns df).
Proof.
  unfold classify, select_dengue, select_pop. intros Hcl Hc. inv_ok. subst.
  simpl. by eapply normalize_columns.
Qed.

Lemma has_year_total dengue pop r :
  choose_time_dim dengue pop = Ok r → ∃ b, has_year dengue = Ok b.
Proof.
  unfold choose_time_dim. intros Hr. destruct (has_year dengue); [eauto|done].
Qed.

(** A run that gets past step 8 took the YEAR branch of step 7, and its
    key is the one that the columns of the raw table select. *)
Lemma consolidate_key df dengue pop dy0 py0 dy py key :
  classify df = Ok (dengue, pop) →
  choose_time_dim dengue pop = Ok (dy0, py0) →
  consolidate dy0 py0 = Ok (dy, py, key) →
  has_year dengue = Ok true ∧ key = merge_key df.
Proof.
  intros Hcl Hch Hco.
  destruct (has_year_total _ _ _ Hch) as [[] Hy].
  - split; [done|].
    destruct (consolidate_aggregates _ _ _ _ _ Hco)
      as (d1 & p1 & Hd1 & _ & -> & _).
    unfold choose_time_dim in Hch. rewrite Hy in Hch. simpl in Hch.
    unfold restrict_year in Hch. inv_ok. subst.
    unfold merge_key.
    assert ("year" ∈ columns d1 ↔ "year" ∈ columns df) as Hiff.
    { etrans; [by eapply rename_columns|]. simpl.
      eapply classify_columns; [done|solve_cols]. }
    repeat case_decide; tauto.
  - exfalso.
    destruct (choose_time_dim_month _ _ _ _ Hy Hch) as [Hd Hp].
    apply month_to_year_columns in Hd, Hp.
    by rewrite (consolidate_after_month _ _ Hd Hp) in Hco.
Qed.

End merge_key_of_input.

(** ** The rows of one country in the feature table *)

Section features.
Context `{PyRuntime}.

Lemma feature_rows_have_country df t :
  prepare_data df = Ok t → Forall (λ r, r !!! "spatial_dim" ≠ VNaN) (rows t).
Proof.
  intros Ht.
  destruct (prepare_data_stages _ _ Ht)
    as (dengue & pop & dy0 & py0 & dy & py & key & df_yr & rated &
        _ & _ & Hc & Hj & Hr & Hl).
  destruct (consolidate_spec _ _ _ _ _ Hc) as (Hkey & _ & _ & _ & _ & Hnan & _).
  destruct (feature_table_spec _ _ _ _ _ _ _ _ Hc Hj Hr Hl) as (HK & _).
  destruct (join_spec _ _ _ _ _ _ Hc Hj) as (HK' & _).
  apply (Forall_key_transfer ["spatial_dim"]
           (λ k, default VNaN (head k) ≠ VNaN) _ (rows dy)).
  - rewrite HK by (intros c Hin; revert Hin; solve_cols).
    rewrite HK'; [done|solve_cols|solve_cols].
  - eapply Forall_impl; [exact Hnan|]. simpl. intros r Hr' Heq.
    apply Hr'. unfold key_of.
    destruct Hkey as [-> | ->]; simpl; rewrite Heq; left.
Qed.

Lemma country_rows_spec df t c :
  prepare_data df = Ok t →
  ∃ g,
    country_rows c t = with_features g ∧
    StronglySorted value_le ((λ r : Row, r !!! "year") <$> g) ∧
    Forall (λ r, ∃ q, num_of (r !!! "dengue_cases") = Some q) g.
Proof.
  intros Ht.
  destruct (decide (c = VNaN)) as [->|Hc'].
  { exists []. split; [|split; constructor].
    pose proof (feature_rows_have_country _ _ Ht) as Hsd.
    unfold country_rows.
    destruct (filter _ (rows t)) as [|r l] eqn:E; [done|].
    assert (r ∈ filter (λ r : Row, r !!! "spatial_dim" = VNaN) (rows t)) as Hr
      by (rewrite E; left).
    apply list_elem_of_filter in Hr as [Hr1 Hr2].
    by apply (proj1 (Forall_forall _ _) Hsd) in Hr2. }
  destruct (prepare_data_stages _ _ Ht)
    as (dengue & pop & dy0 & py0 & dy & py & key & df_yr & rated &
        _ & _ & Hc & Hj & Hr & Hl).
  destruct (feature_table_spec _ _ _ _ _ _ _ _ Hc Hj Hr Hl) as (_ & Hok & Hrows).
  exists (filter (λ r, r !!! "spatial_dim" = c) (sorted_rows rated)).
  split_and!.
  - by apply add_lags_by_country.
  - apply country_years_sorted.
  - apply Forall_forall. intros r [_ Hin]%list_elem_of_filter.
    unfold sorted_rows in Hin. rewrite stable_sort_perm in Hin.
    assert (Forall rate_row_ok (rows rated)) as Hrated.
    { destruct (consolidate_spec _ _ _ _ _ Hc) as (_ & _ & _ & _ & _ & _ & Hnum & _).
      destruct (join_spec _ _ _ _ _ _ Hc Hj) as (HK & HP & _).
      rewrite Hrows. apply rate_rows_ok; [|done].
      apply (Forall_key_transfer ["dengue_cases"]
               (λ k, ∃ q, num_of (default VNaN (head k)) = Some q) _ (rows dy));
        [|done].
      rewrite HK; [done|solve_cols|solve_cols]. }
    by apply (proj1 (Forall_forall _ _) Hrated) in Hin as [? _].
Qed.

(** The rows of a country in the table: ascending years, numeric case
    counts, and each row's features in terms of the rows before it. *)
Lemma country_row_features df t c k r :
  prepare_data df = Ok t →
  country_rows c t !! k = Some r →
  let g := country_rows c t in
  StronglySorted value_le ((λ r : Row, r !!! "year") <$> g) ∧
  (∀ j r', g !! j = Some r' →
           num_of (r' !!! "dengue_cases") = Some (cases_at g j)) ∧
  r !!! "lag_cases_1" =
    match k with 0 => VNaN | S k' => VFloat (cases_at g k') end ∧
  r !!! "lag_cases_2" =
    match k with S (S k') => VFloat (cases_at g k') | _ => VNaN end ∧
  r !!! "ma3_cases" =
    VFloat match k with
           | 0 => cases_at g 0
           | 1 => Qc_mean [cases_at g 0; cases_at g 1]
           | S (S k') =>
               Qc_mean [cases_at g k'; cases_at g (S k'); cases_at g (S (S k'))]
           end.
Proof.
  intros Ht Hr g.
  destruct (country_rows_spec _ _ c Ht) as (g0 & Hg & Hsorted & Hnum).
  assert ((λ r : Row, r !!! "dengue_cases") <$> g
          = (λ r : Row, r !!! "dengue_cases") <$> g0) as Hcases.
  { unfold g. rewrite Hg. apply with_features_unchanged. solve_cols. }
  assert (length g = length g0) as Hlen
    by (unfold g; rewrite Hg; apply with_features_length).
  assert (∀ j r', g !! j = Some r' →
            num_of (r' !!! "dengue_cases") = Some (cases_at g j)) as Hnumg.
  { intros j r' Hr'.
    assert (((λ r : Row, r !!! "dengue_cases") <$> g0) !! j
            = Some (r' !!! "dengue_cases")) as Hj
      by (by rewrite <-Hcases, list_lookup_fmap, Hr').
    rewrite list_lookup_fmap in Hj.
    destruct (g0 !! j) as [r0|] eqn:Hr0; [|done]. injection Hj as Hj.
    apply list_elem_of_lookup_2 in Hr0.
    apply (proj1 (Forall_forall _ _) Hnum) in Hr0 as [q Hq].
    rewrite <-Hj, Hq. f_equal. symmetry.
    eapply cases_at_lookup; [done|]. by rewrite <-Hj. }
  assert (∀ j, j < length g →
            ((λ r : Row, r !!! "dengue_cases") <$> g0) !! j ≫= num_of
            = Some (cases_at g j)) as Hat.
  { intros j Hj. apply lookup_lt_is_Some_2 in Hj as [r' Hr'].
    rewrite <-Hcases, list_lookup_fmap, Hr'. simpl. by apply Hnumg. }
  split; [|split; [done|]].
  { unfold g. rewrite Hg, with_features_unchanged; [done|solve_cols]. }
  unfold g in Hr. rewrite Hg in Hr.
  apply with_features_row in Hr as (r0 & l1 & l2 & ma & Hr0 & Hl1 & Hl2 & Hma & ->).
  assert (k < length g) as Hk by (rewrite Hlen; by eapply lookup_lt_Some).
  assert (∀ j q, j < length g → cases_at g j = q →
            to_float (((λ r : Row, r !!! "dengue_cases") <$> g0) !!! j) = VFloat q)
    as Hfloat.
  { intros j q Hj <-. specialize (Hat j Hj).
    destruct (((λ r : Row, r !!! "dengue_cases") <$> g0) !! j) as [v|] eqn:Hv;
      [|done].
    rewrite (list_lookup_total_correct _ _ _ Hv). by apply to_float_num. }
  rewrite lookup_total_insert_ne, lookup_total_insert_ne,
    lookup_total_insert_eq by done.
  rewrite (lookup_total_insert_ne _ "ma3_cases" "lag_cases_2"),
    lookup_total_insert_eq by done.
  rewrite lookup_total_insert_eq.
  rewrite shift_lookup in Hl1, Hl2 by (rewrite length_fmap; lia).
  injection Hl1 as <-. injection Hl2 as <-.
  split_and!.
  - destruct k as [|k']; [done|].
    rewrite decide_False by lia. simpl. rewrite Nat.sub_0_r.
    apply Hfloat; [lia|done].
  - destruct k as [|[|k']]; [done|done|].
    rewrite decide_False by lia. simpl. rewrite Nat.sub_0_r.
    apply Hfloat; [lia|done].
  - unfold rolling_mean in Hma. rewrite list_lookup_imap in Hma.
    apply fmap_Some in Hma as (x & Hx & ->).
    assert (∀ j, j < length g →
              (num_of <$> ((λ r : Row, r !!! "dengue_cases") <$> g0)) !! j
              = Some (Some (cases_at g j))) as Hn.
    { intros j Hj. specialize (Hat j Hj). rewrite list_lookup_fmap.
      destruct (((λ r : Row, r !!! "dengue_cases") <$> g0) !! j); [|done].
      simpl in *. by rewrite Hat. }
    destruct k as [|[|k']].
    + replace (1 - 3) with 0 by lia. replace (1 - 0) with 1 by lia.
      rewrite (take_drop_one _ _ (Hn 0 Hk)).
      etrans; [by apply (window_mean_all [cases_at g 0])|].
      by rewrite Qc_mean_singleton.
    + replace (2 - 3) with 0 by lia. replace (2 - 0) with 2 by lia.
      rewrite (take_drop_two _ _ _ (Hn 0 ltac:(lia)) (Hn 1 ltac:(lia))).
      by apply (window_mean_all [cases_at g 0; cases_at g 1]).
    + replace (S (S (S k')) - 3) with k' by lia.
      replace (S (S (S k')) - k') with 3 by lia.
      rewrite (take_drop_three _ _ _ _ _ (Hn k' ltac:(lia))
                 (Hn (S k') ltac:(lia)) (Hn (S (S k')) ltac:(lia))).
      by apply (window_mean_all
                  [cases_at g k'; cases_at g (S k'); cases_at g (S (S k'))]).
Qed.

End features.

(** ** Years in ascending order *)

Lemma value_le_VInt (a b : Z) : value_le (VInt a) (VInt b) → (a ≤ b)%Z.
Proof.
  intros [_ Hl]. destruct Hl as [Hq _]; [unfold on; simpl; lia|].
  unfold on, num_key in Hq. simpl in Hq. by apply Z2Qc_inj_le.
Qed.

Lemma StronglySorted_lookup {A} (R : relation A) (l : list A) i j x y :
  StronglySorted R l → l !! i = Some x → l !! j = Some y → i < j → R x y.
Proof.
  intros Hs. revert i j. induction Hs as [|z l Hs IH Hz]; intros i j Hi Hj Hlt.
  { by rewrite lookup_nil in Hi. }
  destruct j as [|j]; [lia|]. simpl in Hj. destruct i as [|i].
  - simpl in Hi. injection Hi as ->.
    apply (proj1 (Forall_forall _ _) Hz). by eapply list_elem_of_lookup_2.
  - simpl in Hi. apply (IH i j); [done|done|lia].
Qed.

(** In a list of distinct whole years in ascending order, the year
    [a - 1] stands just before the year [a]. *)
Lemma sorted_years_adjacent (ys : list value) (j k : nat) (a : Z) :
  StronglySorted value_le ys →
  NoDup ys →
  Forall (λ v, ∃ y, v = VInt y) ys →
  ys !! j = Some (VInt (a - 1)) →
  ys !! k = Some (VInt a) →
  k = S j.
Proof.
  intros Hs Hnd Hint Hj Hk.
  assert (∀ i i' b b', ys !! i = Some (VInt b) → ys !! i' = Some (VInt b') →
                       (b < b')%Z → i < i') as Hmono.
  { intros i i' b b' Hi Hi' Hlt.
    destruct (decide (i < i')) as [|Hge]; [done|exfalso].
    destruct (decide (i = i')) as [->|Hne].
    - rewrite Hi in Hi'. injection Hi' as ->. lia.
    - assert (i' < i) as Hlt' by lia.
      pose proof (StronglySorted_lookup _ _ _ _ _ _ Hs Hi' Hi Hlt') as Hle.
      apply value_le_VInt in Hle. lia. }
  assert (j < k) as Hjk by (apply (Hmono j k (a - 1)%Z a); [done|done|lia]).
  destruct (decide (k = S j)) as [|Hne]; [done|exfalso].
  destruct (lookup_lt_is_Some_2 ys (S j)) as [v Hv].
  { apply lookup_lt_Some in Hk. lia. }
  destruct (proj1 (Forall_forall _ _) Hint v) as [b ->].
  { by eapply list_elem_of_lookup_2. }
  assert (j < S j) as H1 by lia.
  assert (S j < k) as H2 by lia.
  pose proof (StronglySorted_lookup _ _ _ _ _ _ Hs Hj Hv H1) as Hle1.
  pose proof (StronglySorted_lookup _ _ _ _ _ _ Hs Hv Hk H2) as Hle2.
  apply value_le_VInt in Hle1, Hle2.
  destruct (decide (b = a)) as [->|Hb].
  - pose proof (NoDup_lookup _ _ _ _ Hnd Hv Hk). lia.
  - assert (b = (a - 1)%Z) as -> by lia.
    pose proof (NoDup_lookup _ _ _ _ Hnd Hv Hj). lia.
Qed.

(** ** Properties that depend on the key of a row only *)

Lemma Forall_by_key (cols : list string) (P : Row → Prop) (l1 l2 : list Row) :
  (∀ r r', key_of cols r = key_of cols r' → P r' → P r) →
  key_of cols <$> l1 ≡ₚ key_of cols <$> l2 →
  Forall P l2 → Forall P l1.
Proof.
  intros HP Hk H2. apply Forall_forall. intros r Hr.
  assert (key_of cols r ∈ key_of cols <$> l2) as Hin.
  { rewrite <-Hk. apply list_elem_of_fmap. eauto. }
  apply list_elem_of_fmap in Hin as (r' & Heq & Hr').
  apply (HP r r' Heq). by apply (proj1 (Forall_forall _ _) H2).
Qed.

Lemma key_of_app cols1 cols2 (r : Row) :
  key_of (cols1 ++ cols2) r = key_of cols1 r ++ key_of cols2 r.
Proof. unfold key_of. by rewrite fmap_app. Qed.

Lemma key_of_app_inv cols1 cols2 (r r' : Row) :
  key_of (cols1 ++ cols2) r = key_of (cols1 ++ cols2) r' →
  key_of cols1 r = key_of cols1 r' ∧ key_of cols2 r = key_of cols2 r'.
Proof.
  rewrite !key_of_app. intros Heq.
  apply app_inj_1 in Heq; [done|]. by rewrite !key_of_length.
Qed.

Lemma select_fmap df (P : Row → Prop) `{!∀ r, Decision (P r)} :
  select df ((λ r, bool_decide (P r)) <$> rows df)
  = {| columns := columns df; rows := filter P (rows df) |}.
Proof.
  unfold select. f_equal.
  induction (rows df) as [|r l IH]; [done|].
  csimpl. rewrite !filter_cons. simpl.
  destruct (decide (P r)) as [HP|HP].
  - rewrite bool_decide_eq_true_2 by done.
    rewrite decide_True by done. csimpl. by rewrite IH.
  - rewrite bool_decide_eq_false_2 by done.
    rewrite decide_False by done. done.
Qed.

Lemma present_numbers s qs : present s = Ok qs → qs = omap num_of s.
Proof.
  unfold present. intros Hp.
  apply bind_Ok in Hp as (ns & Hns & Hp). injection Hp as <-.
  revert ns Hns. induction s as [|v s IH]; intros ns Hns; simpl in Hns.
  - by injection Hns as <-.
  - apply bind_Ok in Hns as (y & Hy & Hns).
    apply bind_Ok in Hns as (ys & Hys & Hns). injection Hns as <-.
    csimpl. rewrite (IH _ Hys).
    destruct v; simpl in Hy; try discriminate; by injection Hy as <-.
Qed.

Lemma fill_features_rows df d :
  fill_features df = Ok d →
  columns d = columns df ∧ rows d = fill_row <$> rows df.
Proof.
  unfold fill_features. intros Hd. inv_ok. subst d. destruct x.
  pose proof (proj1 (require_columns_Ok _ _) Hstep) as Hreq. clear Hstep.
  rename Hreq into Hstep.
  unfold FEATURES in *. split.
  - simpl.
    rewrite (decide_True (P := "cases_per_100k" ∈ columns df))
      by (apply Hstep; solve_cols).
    rewrite (decide_True (P := "lag_cases_1" ∈ columns df))
      by (apply Hstep; solve_cols).
    rewrite (decide_True (P := "lag_cases_2" ∈ columns df))
      by (apply Hstep; solve_cols).
    by rewrite (decide_True (P := "ma3_cases" ∈ columns df))
      by (apply Hstep; solve_cols).
  - simpl. rewrite !zip_with_fmap_r.
    rewrite zip_with_diag.
    do 3 (rewrite zip_with_fmap_l, zip_with_diag). done.
Qed.

Lemma fill_row_feature r c :
  c ∈ FEATURES → fill_row r !!! c = fillna_zero (r !!! c).
Proof.
  unfold FEATURES, fill_row. intros Hc.
  repeat (apply elem_of_cons in Hc as [->|Hc]);
    [..|by apply elem_of_nil in Hc];
    rewrite ?lookup_total_insert_eq; try done;
    repeat (rewrite lookup_total_insert_ne by done;
            rewrite ?lookup_total_insert_eq); done.
Qed.

Section case_keys.
Context `{PyRuntime}.

Lemma consolidate_case_keys dy0 py0 dy py key :
  consolidate dy0 py0 = Ok (dy, py, key) →
  ∃ cases_tbl,
    case_table dy0 = Ok cases_tbl ∧
    key_of key <$> rows dy = group_keys key (rows cases_tbl).
Proof.
  unfold consolidate. intros Hc. inv_ok. subst.
  rename x into d1, x0 into p1.
  pose proof (merge_key_cases d1) as Hkey.
  destruct (key_NoDup _ Hkey) as (Hnd & Hdc & Hpop & _).
  destruct (groupby_agg_spec _ _ _ _ _ Hnd Hdc Hstep1) as (_ & Hk1 & _).
  by exists d1.
Qed.

End case_keys.

(** ** Sums on 64 bits *)

Lemma wrap64_small z : (- 2 ^ 63 ≤ z < 2 ^ 63)%Z → wrap64 z = z.
Proof. intros Hz. unfold wrap64. rewrite Z.mod_small; lia. Qed.

Lemma wrap64_range z : (- 2 ^ 63 ≤ wrap64 z < 2 ^ 63)%Z.
Proof.
  unfold wrap64.
  pose proof (Z.mod_pos_bound (z + 2 ^ 63) (2 ^ 64)) as Hb. lia.
Qed.

Lemma wrap64_eqm z : (wrap64 z `mod` 2 ^ 64 = z `mod` 2 ^ 64)%Z.
Proof.
  unfold wrap64.
  rewrite <-(Z.add_opp_r _ (2 ^ 63)), <-Zplus_mod_idemp_l, Z.mod_mod by lia.
  rewrite Zplus_mod_idemp_l. f_equal. lia.
Qed.

(** What [agg_sum] and [agg_mean] return, written out. *)
Lemma agg_sum_Ok s v :
  agg_sum s = Ok v →
  (∀ zs, mapM as_int s = Some zs → v = VInt (wrap64 (Z_sum zs))) ∧
  (mapM as_int s = None → v = VFloat (Qc_sum (omap num_of s))).
Proof.
  unfold agg_sum. intros Hv. inv_ok. rename x into qs.
  apply present_numbers in Hstep as ->.
  destruct (mapM as_int s) as [zs|]; injection Hv as <-; split; try done.
  by intros ? [= <-].
Qed.

Lemma agg_mean_Ok s v :
  agg_mean s = Ok v →
  v = match omap num_of s with [] => VNaN | qs => VFloat (Qc_mean qs) end.
Proof.
  unfold agg_mean. intros Hv. inv_ok. rename x into qs.
  apply present_numbers in Hstep as ->.
  destruct (omap num_of s); by injection Hv as <-.
Qed.

(** In a list of distinct whole years in ascending order, the earlier
    place holds the smaller year. *)
Lemma sorted_years_order (ys : list value) (j k : nat) (a b : Z) :
  StronglySorted value_le ys →
  NoDup ys →
  ys !! j = Some (VInt a) →
  ys !! k = Some (VInt b) →
  j < k ↔ (a < b)%Z.
Proof.
  intros Hs Hnd Hj Hk. split.
  - intros Hlt.
    pose proof (StronglySorted_lookup _ _ _ _ _ _ Hs Hj Hk Hlt) as Hle.
    apply value_le_VInt in Hle.
    destruct (decide (a = b)) as [->|]; [|lia].
    pose proof (NoDup_lookup _ _ _ _ Hnd Hj Hk). lia.
  - intros Hlt. destruct (decide (j < k)) as [|Hge]; [done|exfalso].
    destruct (decide (j = k)) as [->|Hne].
    + rewrite Hj in Hk. injection Hk as ->. lia.
    + assert (k < j) as Hlt' by lia.
      pose proof (StronglySorted_lookup _ _ _ _ _ _ Hs Hk Hj Hlt') as Hle.
      apply value_le_VInt in Hle. lia.
Qed.

(** ** Facts on step 7 *)

Lemma try_map_ext_in {A B} (f : A → result B) (g : A → B) l l' :
  (∀ x y, x ∈ l → f x = Ok y → y = g x) →
  try_map f l = Ok l' → l' = g <$> l.
Proof.
  revert l'. induction l as [|x l IH]; intros l' Hg Hl; simpl in Hl.
  - by injection Hl as <-.
  - apply bind_Ok in Hl as (y & Hy & Hl).
    apply bind_Ok in Hl as (ys & Hys & Hl). injection Hl as <-. csimpl.
    f_equal.
    + apply Hg; [left|done].
    + apply IH; [|done]. intros x' y' Hin. apply Hg. by right.
Qed.

Lemma select_series_eq df c v :
  select df (series_eq ((λ r, r !!! c) <$> rows df) v)
  = {| columns := columns df; rows := filter (λ r, r !!! c = v) (rows df) |}.
Proof.
  unfold series_eq. rewrite <-list_fmap_compose.
  apply (select_fmap df (λ r, r !!! c = v)).
Qed.

Section time_dimension_facts.
Context `{PyRuntime}.

Lemma has_year_spec dengue yearly :
  has_year dengue = Ok yearly →
  yearly = true ↔ ∃ r, r ∈ rows dengue ∧ r !!! "time_dim_type" = VStr "YEAR".
Proof.
  unfold has_year. intros Hy. inv_ok. subst yearly.
  apply getitem_Ok in Hstep as [_ ->].
  rewrite bool_decide_eq_true, list_elem_of_fmap.
  split; intros (r & ? & ?); exists r; by split.
Qed.

Lemma restrict_year_rows df d :
  restrict_year df = Ok d →
  columns d = columns df ∧ rows d = rows_of_type "YEAR" df.
Proof.
  unfold restrict_year. intros Hd. inv_ok. subst d.
  apply getitem_Ok in Hstep as [_ ->].
  by rewrite select_series_eq.
Qed.

Lemma month_to_year_rows agg df d :
  month_to_year agg df = Ok d →
  ∃ ms : list Row,
    Forall2 with_year (rows_of_type "MONTH" df) ms ∧
    columns d = YEAR_KEY ++ ["numeric_value"] ∧
    key_of YEAR_KEY <$> rows d = group_keys YEAR_KEY ms ∧
    Forall (λ r, agg ((λ m, m !!! "numeric_value")
                        <$> group_rows YEAR_KEY (key_of YEAR_KEY r) ms)
                 = Ok (r !!! "numeric_value")) (rows d).
Proof.
  unfold month_to_year. intros Hd. inv_ok. rename x into t, x0 into y.
  apply getitem_Ok in Hstep as [_ ->].
  rewrite select_series_eq in *.
  fold (rows_of_type "MONTH" df) in *.
  set (monthly := {| columns := columns df; rows := rows_of_type "MONTH" df |}) in *.
  exists (rows (setitem monthly "year" y)).
  assert (NoDup YEAR_KEY) as Hnd by (unfold YEAR_KEY; compute_done).
  assert ("numeric_value" ∉ YEAR_KEY) as Hnv by (unfold YEAR_KEY; solve_cols).
  destruct (groupby_agg_spec _ _ _ _ _ Hnd Hnv Hd) as (Hc & Hk & Ha & _).
  split_and!; try done.
  unfold year_of_time_dim in Hstep0. inv_ok. rename x into s.
  apply getitem_Ok in Hstep as [_ ->]. simpl in *.
  apply try_map_Forall2 in Hstep0.
  unfold astype_str in Hstep0. rewrite <-!list_fmap_compose in Hstep0.
  apply Forall2_fmap_l in Hstep0.
  clear -Hstep0. induction Hstep0 as [|r v rs vs Hv _ IH]; simpl; [done|].
  constructor; [|done]. simpl in Hv. unfold with_year, year_of_row.
  destruct (int_of_str _) as [z|]; [|done]. injection Hv as <-. eauto.
Qed.

End time_dimension_facts.

(** ** Facts on the scoring *)

Lemma feature_matrix_filled df filled X :
  fill_features df = Ok filled →
  feature_matrix filled = Ok X →
  X = feature_vector <$> rows df.
Proof.
  intros Hf HX. destruct (fill_features_rows _ _ Hf) as [_ Hrows].
  unfold feature_matrix in HX. rewrite Hrows in HX.
  apply (try_map_ext_in _ (λ r, (λ c, default 0%Qc (num_of (r !!! c))) <$> FEATURES))
    in HX.
  - rewrite HX, <-list_fmap_compose. apply list_fmap_ext. intros _ r _.
    unfold compose, feature_vector. apply list_fmap_ext. intros i c Hc.
    cbn beta. rewrite fill_row_feature; [done|]. by eapply list_elem_of_lookup_2.
  - intros r x _ Hx. revert Hx. apply try_map_ext_in. intros c q _ Hq.
    destruct (num_of (r !!! c)); [|done]. by injection Hq as <-.
Qed.

Lemma fit_score_samples_Ok `{IsolationForestLib} w X scores :
  fit_score_samples model w X = Ok scores →
  X ≠ [] ∧ scores = forest_score_samples 200 (Q2Qc (1 # 10)) 42 X.
Proof.
  unfold fit_score_samples. destruct X; [done|]. by intros [= <-].
Qed.
(** * Statements on the scripts *)


(** ** The MONTH fallback of [prepare_data.py] *)

Section month_fallback.
Context `{PyRuntime}.

(** C10. When no case row has the YEAR type, the population table that
    the MONTH fallback builds has lost both indicator-name columns, the
    thousands detection stops on the first of them with a [KeyError], and
    the script ends in an error: no feature table is produced. *)
Theorem month_fallback_yields_no_table df dengue pop :
  classify df = Ok (dengue, pop) →
  has_year dengue = Ok false →
  (∃ e, prepare_data df = Raise e) ∧
  ∀ dengue_y pop_y,
    choose_time_dim dengue pop = Ok (dengue_y, pop_y) →
    ("indicator_name_norm" ∉ columns pop_y) ∧
    ("nombre_indicador_norm" ∉ columns pop_y) ∧
    consolidate dengue_y pop_y = Raise (KeyError "indicator_name_norm") ∧
    prepare_data df = Raise (KeyError "indicator_name_norm").
Proof.
  intros Hcl Hy.
  assert (∀ dengue_y pop_y,
    choose_time_dim dengue pop = Ok (dengue_y, pop_y) →
    ("indicator_name_norm" ∉ columns pop_y) ∧
    ("nombre_indicador_norm" ∉ columns pop_y) ∧
    consolidate dengue_y pop_y = Raise (KeyError "indicator_name_norm") ∧
    prepare_data df = Raise (KeyError "indicator_name_norm")) as Hmain.
  { intros dengue_y pop_y Hc.
    destruct (choose_time_dim_month _ _ _ _ Hy Hc) as [Hd Hp].
    apply month_to_year_columns in Hd, Hp.
    assert (consolidate dengue_y pop_y = Raise (KeyError "indicator_name_norm"))
      as Hcons by by apply consolidate_after_month.
    repeat split.
    - rewrite Hp. unfold YEAR_KEY. solve_cols.
    - rewrite Hp. unfold YEAR_KEY. solve_cols.
    - done.
    - unfold prepare_data. rewrite Hcl. simpl. rewrite Hc. simpl.
      by rewrite Hcons. }
  split; [|done].
  destruct (choose_time_dim dengue pop) as [[dengue_y pop_y]|e] eqn:Hc.
  - exists (KeyError "indicator_name_norm"). by apply (Hmain dengue_y pop_y).
  - exists e. unfold prepare_data. rewrite Hcl. simpl. by rewrite Hc.
Qed.

End month_fallback.

(** ** The choice of the time dimension (step 7) *)

Section time_dimension.
Context `{PyRuntime}.

(** C3, as the code has it. The choice is made once, by the case rows:
    when some case row has the YEAR type, the case rows and the
    population rows are both restricted to their YEAR rows; otherwise
    both are aggregated from their MONTH rows, by country and year, the
    cases by sum and the population by mean. The time types of the
    population rows have no part in the choice: two runs over the same
    population rows whose case rows answer the YEAR test alike treat
    those population rows alike. *)
Theorem population_choice_follows_cases :
  (∀ dengue pop dengue_y pop_y yearly,
     has_year dengue = Ok yearly →
     choose_time_dim dengue pop = Ok (dengue_y, pop_y) →
     (yearly = true ↔
      ∃ r, r ∈ rows dengue ∧ r !!! "time_dim_type" = VStr "YEAR") ∧
     (if yearly then restrict_year dengue else month_to_year agg_sum dengue)
       = Ok dengue_y ∧
     (if yearly then restrict_year pop else month_to_year agg_mean pop)
       = Ok pop_y ∧
     if yearly then
       columns dengue_y = columns dengue ∧
       rows dengue_y = rows_of_type "YEAR" dengue ∧
       columns pop_y = columns pop ∧
       rows pop_y = rows_of_type "YEAR" pop
     else
       ∃ dengue_m pop_m : list Row,
         Forall2 with_year (rows_of_type "MONTH" dengue) dengue_m ∧
         Forall2 with_year (rows_of_type "MONTH" pop) pop_m ∧
         columns dengue_y = YEAR_KEY ++ ["numeric_value"] ∧
         columns pop_y = YEAR_KEY ++ ["numeric_value"] ∧
         key_of YEAR_KEY <$> rows dengue_y = group_keys YEAR_KEY dengue_m ∧
         key_of YEAR_KEY <$> rows pop_y = group_keys YEAR_KEY pop_m ∧
         Forall (λ r, agg_sum ((λ m, m !!! "numeric_value")
                                 <$> group_rows YEAR_KEY (key_of YEAR_KEY r) dengue_m)
                      = Ok (r !!! "numeric_value")) (rows dengue_y) ∧
         Forall (λ r, agg_mean ((λ m, m !!! "numeric_value")
                                  <$> group_rows YEAR_KEY (key_of YEAR_KEY r) pop_m)
                      = Ok (r !!! "numeric_value")) (rows pop_y)) ∧
  (∀ dengue pop r,
     choose_time_dim dengue pop = Ok r → ∃ yearly, has_year dengue = Ok yearly) ∧
  (∀ dengue1 dengue2 pop r1 r2,
     has_year dengue1 = has_year dengue2 →
     choose_time_dim dengue1 pop = Ok r1 →
     choose_time_dim dengue2 pop = Ok r2 →
     r1.2 = r2.2).
Proof.
  assert (∀ dengue pop dengue_y pop_y yearly,
     has_year dengue = Ok yearly →
     choose_time_dim dengue pop = Ok (dengue_y, pop_y) →
     (if yearly then restrict_year dengue else month_to_year agg_sum dengue)
       = Ok dengue_y ∧
     (if yearly then restrict_year pop else month_to_year agg_mean pop)
       = Ok pop_y)
    as Hfirst.
  { intros dengue pop dengue_y pop_y yearly Hy Hc.
    unfold choose_time_dim in Hc. rewrite Hy in Hc. simpl in Hc.
    destruct yearly; inv_ok; by subst. }
  split_and!.
  - intros dengue pop dengue_y pop_y yearly Hy Hc.
    destruct (Hfirst _ _ _ _ _ Hy Hc) as [Hd Hp].
    split; [by apply has_year_spec|]. split; [done|]. split; [done|].
    destruct yearly.
    + apply restrict_year_rows in Hd as [? ?], Hp as [? ?]. by split_and!.
    + apply month_to_year_rows in Hd as (dengue_m & ? & ? & ? & ?).
      apply month_to_year_rows in Hp as (pop_m & ? & ? & ? & ?).
      exists dengue_m, pop_m. by split_and!.
  - intros dengue pop r Hc. by eapply has_year_total.
  - intros dengue1 dengue2 pop [d1 p1] [d2 p2] Hsame H1 H2. simpl.
    destruct (has_year dengue1) as [y|e] eqn:Hy1.
    + symmetry in Hsame.
      destruct (Hfirst _ _ _ _ _ Hy1 H1) as [_ E1].
      destruct (Hfirst _ _ _ _ _ Hsame H2) as [_ E2].
      congruence.
    + unfold choose_time_dim in H1. by rewrite Hy1 in H1.
Qed.

End time_dimension.

(** A run of the MONTH fallback: cases given by month only. *)
Lemma month_fallback_witness :
  ∃ dengue pop,
    classify monthly_cases = Ok (dengue, pop) ∧
    has_year dengue = Ok false ∧
    ((∃ e, prepare_data monthly_cases = Raise e) ∧
     ∀ dengue_y pop_y,
       choose_time_dim dengue pop = Ok (dengue_y, pop_y) →
       ("indicator_name_norm" ∉ columns pop_y) ∧
       ("nombre_indicador_norm" ∉ columns pop_y) ∧
       consolidate dengue_y pop_y = Raise (KeyError "indicator_name_norm") ∧
       prepare_data monthly_cases = Raise (KeyError "indicator_name_norm")).
Proof.
  exists (from_ok (monthly_cases, monthly_cases) (classify monthly_cases)).1,
         (from_ok (monthly_cases, monthly_cases) (classify monthly_cases)).2.
  split; [compute_done|]. split; [compute_done|].
  apply (month_fallback_yields_no_table monthly_cases); compute_done.
Defined.

(** Step 7 on a table with a YEAR case row and on one without: the
    first keeps the YEAR rows of both kinds (its population rows are all
    of the MONTH type, so none is left), the second aggregates the MONTH
    rows of both kinds by year. *)
Lemma time_dimension_witness :
  (has_year (case_rows_of yearly_cases) = Ok true ∧
   rows (chosen_of yearly_cases).1
   = rows_of_type "YEAR" (case_rows_of yearly_cases) ∧
   rows (chosen_of yearly_cases).2
   = rows_of_type "YEAR" (population_rows_of yearly_cases) ∧
   length (rows (chosen_of yearly_cases).1) = 1 ∧
   rows (chosen_of yearly_cases).2 = []) ∧
  (has_year (case_rows_of monthly_cases) = Ok false ∧
   month_to_year agg_sum (case_rows_of monthly_cases)
   = Ok (chosen_of monthly_cases).1 ∧
   month_to_year agg_mean (population_rows_of monthly_cases)
   = Ok (chosen_of monthly_cases).2 ∧
   column "numeric_value" (chosen_of monthly_cases).1 = [VInt 10] ∧
   numbers (column "numeric_value" (chosen_of monthly_cases).2)
   = [Some 200000%Q]).
Proof.
  split.
  - destruct (proj1 population_choice_follows_cases
                (case_rows_of yearly_cases) (population_rows_of yearly_cases)
                (chosen_of yearly_cases).1 (chosen_of yearly_cases).2 true)
      as (_ & _ & _ & _ & Hd & _ & Hp); [compute_done..|].
    split; [compute_done|]. split; [exact Hd|]. split; [exact Hp|].
    split; compute_done.
  - destruct (proj1 population_choice_follows_cases
                (case_rows_of monthly_cases) (population_rows_of monthly_cases)
                (chosen_of monthly_cases).1 (chosen_of monthly_cases).2 false)
      as (_ & Hd & Hp & _); [compute_done..|].
    split; [compute_done|]. split; [exact Hd|]. split; [exact Hp|].
    split; compute_done.
Defined.

(** C3, as stated, fails: the two raw tables below hold the very same
    population rows, all of the MONTH type, and differ in their case row
    only; with a YEAR case row the population rows are restricted to YEAR
    (none is left), with a MONTH case row they are aggregated by year. *)
Lemma population_choice_depends_on_cases :
  population_rows yearly_cases = population_rows monthly_cases ∧
  ∃ pop_y1 pop_y2,
    population_by_year yearly_cases = Ok pop_y1 ∧
    population_by_year monthly_cases = Ok pop_y2 ∧
    rows pop_y1 = [] ∧
    columns pop_y2 = YEAR_KEY ++ ["numeric_value"] ∧
    length (rows pop_y2) = 1.
Proof.
  split; [compute_done|].
  exists (from_ok yearly_cases (population_by_year yearly_cases)),
         (from_ok monthly_cases (population_by_year monthly_cases)).
  split_and!; compute_done.
Qed.

(** ** The "Recalculate from Cloud" handler *)

Section recalculation.
Context `{JsonLib}.

Lemma recalculate_cases dfy o :
  (∃ msg, recalculate dfy o = (dfy, Error msg)) ∨
  (∃ body members x,
     o = Body body ∧ decode_body body = Some (JObj members) ∧
     assoc "risk_score" members = Some x ∧
     recalculate dfy o =
       (assign_aligned dfy "risk_score" (series_of_json x), Success)).
Proof.
  destruct o as [| | | |body]; simpl; eauto.
  destruct (decode_body body) as [data|] eqn:Hd; eauto.
  destruct (contains_risk_score data) as [[]|] eqn:Hc; eauto.
  destruct data as [| | | | |members]; eauto.
  destruct (assoc "risk_score" members) as [x|] eqn:Hx; eauto.
  right. by exists body, members, x.
Qed.


(** The string form of a reply is handled as the object it decodes to. *)
Lemma string_body_as_object dfy s members :
  json_loads s = Some (JObj members) →
  recalculate dfy (Body (JStr s)) = recalculate dfy (Body (JObj members)).
Proof. intros Hs. simpl. by rewrite Hs. Qed.

(** With labels 0, 1, 2, ... on the rows, each row takes the score at
    its own position. *)
Lemma assign_aligned_range c rs items cols :
  irows (assign_aligned {| icolumns := cols;
                           irows := imap (λ i r, (Z.of_nat i, r)) rs |}
           c (series_of_json (JArr items))) =
  imap (λ i r, (Z.of_nat i,
                <[c := from_option cell_of_json VNaN (items !! i)]> r)) rs.
Proof.
  simpl.
  assert (∀ (n : nat) (k : nat) its,
    series_at (imap (λ i j, (Z.of_nat (k + i), cell_of_json j)) its)
      (Z.of_nat (k + n)) = from_option cell_of_json VNaN (its !! n)) as Hat.
  { intros n k its. revert n k.
    induction its as [|j its IH]; intros n k; [done|].
    simpl. destruct n as [|n].
    - rewrite Nat.add_0_r. by rewrite decide_True.
    - rewrite decide_False by lia. simpl.
      rewrite <-(IH n (S k)).
      f_equal; [|f_equal; lia].
      apply imap_ext. intros i x _. simpl. do 2 f_equal. lia. }
  rewrite fmap_imap. apply imap_ext. intros i r _. simpl.
  do 3 f_equal. apply (Hat i 0%nat).
Qed.

End recalculation.

(** C6 at a table with two years. The dashboard keeps the labels of the
    file: the row of 2020 is labelled 1. The reply's only score is
    labelled 0, so the only submitted record ends with no score at all,
    although the recalculation is reported as a success. *)
Lemma recalculation_misplaces_scores :
  ∃ df dfy',
    load_csv dashboard_world RISK_FILE = Ok df ∧
    length (payload (rows_of_year df 2020)) = 1 ∧
    fst <$> irows (rows_of_year df 2020) = [1%Z] ∧
    recalculate (rows_of_year df 2020) one_score_reply = (dfy', Success) ∧
    (λ p, p.2 !!! "risk_score") <$> irows dfy' = [VNaN].
Proof.
  set (df := from_ok {| icolumns := []; irows := [] |}
               (load_csv dashboard_world RISK_FILE)).
  exists df, (recalculate (rows_of_year df 2020) one_score_reply).1.
  subst df. split_and!; compute_done.
Qed.

(** ** The normalisation of [risk_score.py] *)

Lemma getitem_setitem df c s :
  length s = length (rows df) → getitem (setitem df c s) c = Ok s.
Proof.
  intros Hlen. unfold getitem, setitem. simpl.
  rewrite decide_True by (case_decide; solve_cols).
  f_equal. revert s Hlen.
  induction (rows df) as [|r rs IH]; intros [|v s] Hlen; try done.
  simpl. rewrite lookup_total_insert_eq. f_equal. apply IH. by injection Hlen.
Qed.

Lemma setitem_length df c s :
  length s = length (rows df) → length (rows (setitem df c s)) = length (rows df).
Proof. intros Hlen. simpl. rewrite length_zip_with. lia. Qed.

Lemma Qc_min_le_l a b : (Qc_min a b ≤ a)%Qc.
Proof.
  unfold Qc_min. case_decide; [done|]. apply Qclt_le_weak. by apply Qclt_nge.
Qed.
Lemma Qc_min_le_r a b : (Qc_min a b ≤ b)%Qc.
Proof. unfold Qc_min. by case_decide. Qed.
Lemma Qc_max_ge_l a b : (a ≤ Qc_max a b)%Qc.
Proof. unfold Qc_max. by case_decide. Qed.
Lemma Qc_max_ge_r a b : (b ≤ Qc_max a b)%Qc.
Proof.
  unfold Qc_max. case_decide; [done|]. apply Qclt_le_weak. by apply Qclt_nge.
Qed.

Lemma list_min_le raw r : r ∈ raw → (list_min raw ≤ r)%Qc.
Proof.
  destruct raw as [|x l]; [by intros ?%elem_of_nil|]. simpl.
  revert r. induction l as [|y l IH]; intros r Hr; simpl.
  - apply list_elem_of_singleton in Hr as ->. done.
  - apply elem_of_cons in Hr as [->|Hr].
    + etrans; [apply Qc_min_le_r|]. apply IH. left.
    + apply elem_of_cons in Hr as [->|Hr]; [apply Qc_min_le_l|].
      etrans; [apply Qc_min_le_r|]. apply IH. by right.
Qed.

Lemma list_max_ge raw r : r ∈ raw → (r ≤ list_max raw)%Qc.
Proof.
  destruct raw as [|x l]; [by intros ?%elem_of_nil|]. simpl.
  revert r. induction l as [|y l IH]; intros r Hr; simpl.
  - apply list_elem_of_singleton in Hr as ->. done.
  - apply elem_of_cons in Hr as [->|Hr].
    + etrans; [|apply Qc_max_ge_r]. apply IH. left.
    + apply elem_of_cons in Hr as [->|Hr]; [apply Qc_max_ge_l|].
      etrans; [|apply Qc_max_ge_r]. apply IH. by right.
Qed.

Lemma list_min_in raw : raw ≠ [] → list_min raw ∈ raw.
Proof.
  destruct raw as [|x l]; [done|]. intros _. simpl.
  induction l as [|y l IH]; simpl; [left|].
  unfold Qc_min at 1. case_decide; [right; left|].
  apply elem_of_cons in IH as [->|IH]; [left|right; by right].
Qed.

Lemma list_max_in raw : raw ≠ [] → list_max raw ∈ raw.
Proof.
  destruct raw as [|x l]; [done|]. intros _. simpl.
  induction l as [|y l IH]; simpl; [left|].
  unfold Qc_max at 1. case_decide; [|right; left].
  apply elem_of_cons in IH as [->|IH]; [left|right; by right].
Qed.

Lemma EPS_pos : (0 < EPS)%Qc.
Proof. done. Qed.

Lemma spread_pos lo hi : (lo ≤ hi)%Qc → (0 < hi - lo + EPS)%Qc.
Proof.
  intros Hle. apply Qcplus_nonneg_pos; [|apply EPS_pos].
  apply Qcle_minus_iff in Hle. done.
Qed.

(** The rescaling maps [lo..hi] into [0, 100). *)
Lemma rescale_bounds lo hi r :
  (lo ≤ r)%Qc → (r ≤ hi)%Qc →
  (0 ≤ Qc_of_Z 100 * (r - lo) / (hi - lo + EPS) < Qc_of_Z 100)%Qc.
Proof.
  intros Hlo Hhi.
  assert (0 < hi - lo + EPS)%Qc as HD by (apply spread_pos; by etrans).
  split.
  - apply Qcmult_nonneg_nonneg; [|apply Qclt_le_weak, Qcinv_pos, HD].
    apply Qcmult_nonneg_nonneg; [done|]. by apply Qcle_minus_iff in Hlo.
  - apply (Qcmult_lt_mono_pos_r _ _ (hi - lo + EPS)); [done|].
    unfold Qcdiv. rewrite <-Qcmult_assoc, Qcmult_inv_l, Qcmult_1_r
      by (apply not_eq_sym, Qclt_not_eq, HD).
    apply Qcmult_lt_mono_pos_l; [done|].
    apply Qcle_lt_trans with (hi - lo)%Qc.
    + by apply Qcplus_le_mono_r.
    + rewrite <-(Qcplus_0_r (hi - lo)) at 1.
      apply Qcplus_lt_mono_l, EPS_pos.
Qed.

Lemma normalize_scores_lookup raw i r :
  raw !! i = Some r →
  normalize_scores raw !! i =
    Some (Qc_of_Z 100 * (r - list_min raw) / (list_max raw - list_min raw + EPS))%Qc.
Proof. intros Hr. unfold normalize_scores. by rewrite list_lookup_fmap, Hr. Qed.

Lemma rescale_min lo hi :
  (lo ≤ hi)%Qc → (Qc_of_Z 100 * (lo - lo) / (hi - lo + EPS) = 0)%Qc.
Proof.
  intros Hle. replace (lo - lo)%Qc with 0%Qc by ring.
  unfold Qcdiv. by rewrite Qcmult_0_r, Qcmult_0_l.
Qed.

Lemma rescale_max_gap (c d e : Qc) :
  (d + e ≠ 0)%Qc → (c - c * d / (d + e) = c * e / (d + e))%Qc.
Proof. intros Hne. field. done. Qed.

Lemma fill_features_length df d :
  fill_features df = Ok d → length (rows d) = length (rows df).
Proof.
  unfold fill_features. intros Hd. inv_ok. subst d. unfold FEATURES. simpl.
  rewrite !length_zip_with, !length_fmap. lia.
Qed.

Section scoring.
Context `{IsolationForestLib}.

(** C2, as the code has it. The raw magnitudes of a batch are the
    negated scores that the forest of 200 trees, contamination 0.1 and
    seed 42, fitted on the four features of all rows (zero for a missing
    one), gives to those rows. Every batch that is scored is non-empty
    and gets one score per row, [100 * (raw - min) / (max - min + EPS)],
    which lies in [0, 100): the rows of minimal magnitude get exactly 0,
    and the rows of maximal magnitude fall short of 100 by
    [100 * EPS / (max - min + EPS)], so that they get 0 as well when all
    magnitudes of the batch are equal. *)
Theorem risk_scores_rescaled w df scored :
  risk_score w df = Ok scored →
  ∃ raw,
    raw = Qcopp <$> forest_score_samples 200 (Q2Qc (1 # 10)) 42
                      (feature_vector <$> rows df) ∧
    raw ≠ [] ∧ length raw = length (rows df) ∧
    getitem scored "risk_score" = Ok (VFloat <$> normalize_scores raw) ∧
    (∀ i r, raw !! i = Some r →
       ∃ s, normalize_scores raw !! i = Some s ∧
            s = (Qc_of_Z 100 * (r - list_min raw)
                 / (list_max raw - list_min raw + EPS))%Qc ∧
            (0 ≤ s < Qc_of_Z 100)%Qc) ∧
    (∃ i, raw !! i = Some (list_min raw)) ∧
    (∀ i, raw !! i = Some (list_min raw) → normalize_scores raw !! i = Some 0%Qc) ∧
    (∃ i, raw !! i = Some (list_max raw)) ∧
    (∀ i, raw !! i = Some (list_max raw) →
       ∃ s, normalize_scores raw !! i = Some s ∧
            (Qc_of_Z 100 - s =
               Qc_of_Z 100 * EPS / (list_max raw - list_min raw + EPS))%Qc ∧
            (list_min raw = list_max raw → s = 0%Qc)).
Proof.
  unfold risk_score. intros Hs. inv_ok.
  rename x into filled, x0 into X, x1 into scores.
  pose proof (fill_features_length _ _ Hstep) as Hlen1.
  pose proof (try_map_length _ _ _ Hstep0) as Hlen2.
  pose proof (feature_matrix_filled _ _ _ Hstep Hstep0) as HXeq.
  destruct (fit_score_samples_Ok _ _ _ Hstep1) as [HX Hscores].
  assert (length scores = length X) as Hlen3.
  { rewrite Hscores. apply forest_score_samples_length. }
  rewrite HXeq in Hscores.
  set (raw := Qcopp <$> scores) in *.
  assert (length raw = length (rows df)) as Hlen.
  { unfold raw. rewrite length_fmap. congruence. }
  assert (raw ≠ []) as Hne.
  { intros E. rewrite E in Hlen. simpl in Hlen.
    destruct X; [done|]. simpl in *. lia. }
  assert (list_min raw ≤ list_max raw)%Qc as Hminmax.
  { etrans; [apply list_min_le|apply list_max_ge]; by apply list_min_in. }
  exists raw. split_and!; try done.
  - unfold raw. by rewrite Hscores.
  - subst scored. apply getitem_setitem.
    unfold normalize_scores. rewrite !length_fmap. fold raw. congruence.
  - intros i r Hr. eexists. split; [by apply normalize_scores_lookup|].
    split; [done|]. apply rescale_bounds.
    + apply list_min_le. by eapply list_elem_of_lookup_2.
    + apply list_max_ge. by eapply list_elem_of_lookup_2.
  - by apply list_elem_of_lookup_1, list_min_in.
  - intros i Hi. rewrite (normalize_scores_lookup _ _ _ Hi).
    by rewrite rescale_min.
  - by apply list_elem_of_lookup_1, list_max_in.
  - intros i Hi. eexists. split; [by apply normalize_scores_lookup|]. split.
    + apply rescale_max_gap. apply not_eq_sym, Qclt_not_eq.
      by apply spread_pos.
    + intros ->. by apply rescale_min.
Qed.

End scoring.

(** A scored batch of two rows whose features sum to 20 and to 60: with
    the estimator of the examples these are their magnitudes, and their
    scores are 0 and [4000 / (40 + EPS)]. *)
Lemma risk_scores_rescaled_witness :
  ∃ scored raw,
    risk_score empty_world two_features = Ok scored ∧
    raw = Qcopp <$> forest_score_samples 200 (Q2Qc (1 # 10)) 42
                      (feature_vector <$> rows two_features) ∧
    this <$> raw = [20%Q; 60%Q] ∧
    getitem scored "risk_score" = Ok (VFloat <$> normalize_scores raw) ∧
    numbers (column "risk_score" scored)
    = [Some 0%Q; Some (4000000000000 # 40000000001)%Q].
Proof.
  exists (from_ok two_features (risk_score empty_world two_features)).
  destruct (risk_scores_rescaled empty_world two_features
              (from_ok two_features (risk_score empty_world two_features)))
    as (raw & Hraw & _ & _ & Hcol & _); [compute_done|].
  exists raw. split; [compute_done|]. split; [exact Hraw|].
  split; [rewrite Hraw; compute_done|]. split; [exact Hcol|compute_done].
Defined.

(** C2, as stated, fails on a batch of one row: that row has both the
    largest and the smallest magnitude of its batch, and its score is 0,
    not 100. *)
Lemma single_row_scores_zero :
  ∃ scored col,
    risk_score empty_world single_row = Ok scored ∧
    length (rows scored) = 1 ∧
    getitem scored "risk_score" = Ok col ∧
    numbers col = [Some 0%Q].
Proof.
  exists (from_ok single_row (risk_score empty_world single_row)),
         (column "risk_score"
            (from_ok single_row (risk_score empty_world single_row))).
  split_and!; compute_done.
Qed.

(** * The feature table: keys, rate, lags and moving average *)

Section features.
Context `{PyRuntime}.

(** C8, as the code has it. In the feature table no two rows share the
    key of step 9, which is the country code with both country names
    and the time column ([year] if the raw table has such a column,
    [time_dim] otherwise). Every row stands for at least one case row
    of its key. Its cases are the sum over the case rows of its key: of
    whole numbers the sum on 64 bits, which is the exact sum as long as
    that lies between [-2^63] and [2^63 - 1] and wraps around beyond,
    and otherwise the sum of the numbers that are there. Its population
    is the mean over the population rows of its key of the numbers that
    are there, missing when there is none. *)
Theorem feature_table_keys_unique df t :
  prepare_data df = Ok t →
  NoDup (key_of (merge_key df) <$> rows t) ∧
  ∃ dengue pop dengue_y pop_y cases_tbl pop_tbl,
    classify df = Ok (dengue, pop) ∧
    choose_time_dim dengue pop = Ok (dengue_y, pop_y) ∧
    case_table dengue_y = Ok cases_tbl ∧
    population_table pop_y = Ok pop_tbl ∧
    Forall (λ r,
      let cases :=
        column "dengue_cases"
          (select_key (merge_key df) (key_of (merge_key df) r) cases_tbl) in
      let people :=
        column "population"
          (select_key (merge_key df) (key_of (merge_key df) r) pop_tbl) in
      cases ≠ [] ∧
      agg_sum cases = Ok (r !!! "dengue_cases") ∧
      (∀ zs, mapM as_int cases = Some zs →
         r !!! "dengue_cases" = VInt (wrap64 (Z_sum zs)) ∧
         ((- 2 ^ 63 ≤ Z_sum zs < 2 ^ 63)%Z →
          r !!! "dengue_cases" = VInt (Z_sum zs))) ∧
      (mapM as_int cases = None →
         r !!! "dengue_cases" = VFloat (Qc_sum (omap num_of cases))) ∧
      agg_mean people = Ok (r !!! "population") ∧
      r !!! "population" =
        match omap num_of people with
        | [] => VNaN
        | qs => VFloat (Qc_mean qs)
        end) (rows t).
Proof.
  intros Ht.
  destruct (prepare_data_stages _ _ Ht)
    as (dengue & pop & dy0 & py0 & dy & py & key & df_yr & rated &
        Hcl & Hch & Hc & Hj & Hr & Hl).
  destruct (consolidate_key _ _ _ _ _ _ _ _ Hcl Hch Hc) as [_ Hkeq].
  destruct (consolidate_spec _ _ _ _ _ Hc)
    as (Hkey & Hcd & Hcp & Hnd & Hnp & Hnan & Hnum & Hpop).
  destruct (key_NoDup _ Hkey) as (Hndk & Hdc & Hpk & Hrk & Hl1 & Hl2 & Hma & _).
  destruct (consolidate_aggregates _ _ _ _ _ Hc)
    as (d1 & p1 & Hd1 & Hp1 & _ & Hkp & Ha1 & Ha2).
  destruct (consolidate_case_keys _ _ _ _ _ Hc) as (d1' & Hd1' & Hkd).
  assert (d1' = d1) as -> by congruence.
  destruct (feature_table_spec _ _ _ _ _ _ _ _ Hc Hj Hr Hl) as (HK & _).
  destruct (join_spec _ _ _ _ _ _ Hc Hj) as (HK' & _).
  pose proof (join_rows _ _ _ _ _ _ Hc Hj) as Hrows.
  assert (∀ c, c ∈ ["cases_per_100k"; "lag_cases_1"; "lag_cases_2"; "ma3_cases"] →
               c ∉ key) as Hfresh.
  { intros c Hin. repeat (apply elem_of_cons in Hin as [->|Hin]); try done.
    by apply elem_of_nil in Hin. }
  subst key. split.
  - rewrite HK by done. rewrite HK'; [done|done|tauto].
  - exists dengue, pop, dy0, py0, d1, p1. split_and!; try done.
    set (key := merge_key df) in *.
    apply (Forall_by_key (key ++ ["dengue_cases"; "population"]) _ _
             ((λ l, <["population" := joined_population key py "population" l]> l)
                <$> rows dy)).
    + intros r r' [Hk Hv]%key_of_app_inv. unfold key_of in Hv. simpl in Hv.
      injection Hv as Hv1 Hv2. unfold column, select_key. simpl.
      by rewrite Hk, Hv1, Hv2.
    + rewrite HK; last first.
      { intros c Hin Hin'. apply elem_of_app in Hin' as [Hin'|Hin'].
        - by apply (Hfresh c).
        - revert Hin Hin'. clear. solve_cols. }
      rewrite Hrows; [done|]. intros Hy.
      apply elem_of_app in Hy as [?|Hy]; [done|]. revert Hy. clear. solve_cols.
    + apply Forall_fmap, Forall_forall. intros l Hin. simpl.
      unfold column, select_key. simpl.
      rewrite key_of_insert_ne by done.
      rewrite lookup_total_insert_ne, lookup_total_insert_eq by done.
      pose proof (proj1 (Forall_forall _ _) Ha1 l Hin) as Hsum. simpl in Hsum.
      fold (group_rows key (key_of key l) (rows d1)) in *.
      fold (group_rows key (key_of key l) (rows p1)) in *.
      assert (agg_mean ((λ r, r !!! "population")
                          <$> group_rows key (key_of key l) (rows p1))
              = Ok (joined_population key py "population" l)) as Hmean.
      { unfold joined_population.
        destruct (filter _ (rows py)) as [|m ms] eqn:E.
        * assert (group_rows key (key_of key l) (rows p1) = []) as ->; [|done].
          destruct (group_rows key (key_of key l) (rows p1)) as [|x xs] eqn:Ex;
            [done|exfalso].
          assert (x ∈ group_rows key (key_of key l) (rows p1)) as Hx
            by (rewrite Ex; left).
          apply list_elem_of_filter in Hx as [Hx1 Hx2].
          assert (key_of key l ∈ group_keys key (rows p1)) as Hg.
          { apply group_keys_spec. split.
            - apply list_elem_of_fmap. eauto.
            - by apply (proj1 (Forall_forall _ _) Hnan). }
          rewrite <-Hkp in Hg. apply list_elem_of_fmap in Hg as (m & Hm1 & Hm2).
          assert (m ∈ filter (λ r, key_of key r = key_of key l) (rows py)) as Hm
            by (by apply list_elem_of_filter).
          rewrite E in Hm. by apply elem_of_nil in Hm.
        * assert (m ∈ filter (λ r, key_of key r = key_of key l) (rows py)) as Hm
            by (rewrite E; left).
          apply list_elem_of_filter in Hm as [Hm1 Hm2].
          rewrite <-Hm1. by apply (proj1 (Forall_forall _ _) Ha2). }
      destruct (agg_sum_Ok _ _ Hsum) as [Hints Hfloats].
      split_and!; try done.
      * assert (key_of key l ∈ group_keys key (rows d1)) as Hg.
        { rewrite <-Hkd. apply list_elem_of_fmap. eauto. }
        apply group_keys_spec in Hg as [Hg _].
        apply list_elem_of_fmap in Hg as (x & Hx1 & Hx2).
        assert (x ∈ group_rows key (key_of key l) (rows d1)) as Hx
          by (by apply list_elem_of_filter).
        intros E. apply fmap_nil_inv in E. rewrite E in Hx.
        by apply elem_of_nil in Hx.
      * intros zs Hzs. split; [by apply Hints|].
        intros Hrange. rewrite (Hints zs Hzs). by rewrite wrap64_small.
      * by apply agg_mean_Ok.
Qed.

(** C4. Step 11 succeeds on every table that reaches it, with one rate
    per aggregated case row: no division is attempted by zero. In the
    feature table the cases are numbers; a row with a population other
    than zero has [cases / population * 100000] as its rate, a row with
    a zero or missing population has no rate, and every aggregated case
    row is there, population or not. *)
Theorem cases_per_100k_defined_or_null :
  (∀ dy0 py0 dy py key df_yr,
     consolidate dy0 py0 = Ok (dy, py, key) →
     join dy py key = Ok df_yr →
     ∃ rated, add_rate df_yr = Ok rated ∧
              length (rows rated) = length (rows dy)) ∧
  (∀ df t,
     prepare_data df = Ok t →
     Forall (λ r, ∃ cases,
       num_of (r !!! "dengue_cases") = Some cases ∧
       ((r !!! "population" = VNaN ∧ r !!! "cases_per_100k" = VNaN) ∨
        (r !!! "population" = VFloat 0 ∧ r !!! "cases_per_100k" = VNaN) ∨
        (∃ p, r !!! "population" = VFloat p ∧ p ≠ 0%Qc ∧
              r !!! "cases_per_100k"
              = VFloat (cases / p * Qc_of_Z 100000)%Qc))) (rows t) ∧
     ∃ dengue pop dengue_y pop_y dy py key,
       classify df = Ok (dengue, pop) ∧
       choose_time_dim dengue pop = Ok (dengue_y, pop_y) ∧
       consolidate dengue_y pop_y = Ok (dy, py, key) ∧
       key_of (key ++ ["dengue_cases"]) <$> rows t
         ≡ₚ key_of (key ++ ["dengue_cases"]) <$> rows dy).
Proof.
  split.
  - intros dy0 py0 dy py key df_yr Hc Hj.
    destruct (consolidate_spec _ _ _ _ _ Hc)
      as (Hkey & _ & _ & _ & _ & _ & Hnum & _).
    destruct (join_spec _ _ _ _ _ _ Hc Hj) as (HK & HP & Hcols).
    assert (Forall (λ r, ∃ q, num_of (r !!! "dengue_cases") = Some q) (rows df_yr))
      as Hnum'.
    { apply (Forall_key_transfer ["dengue_cases"]
               (λ k, ∃ q, num_of (default VNaN (head k)) = Some q) _ (rows dy));
        [|done].
      rewrite HK; [done|solve_cols|solve_cols]. }
    eexists. split.
    + apply add_rate_spec; [apply Hcols; solve_cols..|done|done].
    + simpl. rewrite length_zip_with, length_fmap.
      assert (length (key_of ["dengue_cases"] <$> rows df_yr)
              = length (key_of ["dengue_cases"] <$> rows dy)) as Hlen.
      { rewrite HK; [done|solve_cols|solve_cols]. }
      rewrite !length_fmap in Hlen. lia.
  - intros df t Ht.
    destruct (prepare_data_stages _ _ Ht)
      as (dengue & pop & dy0 & py0 & dy & py & key & df_yr & rated &
          Hcl & Hch & Hc & Hj & Hr & Hl).
    destruct (consolidate_spec _ _ _ _ _ Hc) as (Hkey & _).
    destruct (key_NoDup _ Hkey) as (Hndk & Hdc & Hpk & Hrk & Hl1 & Hl2 & Hma & _).
    destruct (feature_table_spec _ _ _ _ _ _ _ _ Hc Hj Hr Hl) as (HK & Hok & _).
    destruct (join_spec _ _ _ _ _ _ Hc Hj) as (HK' & _).
    split.
    + eapply Forall_impl; [exact Hok|]. simpl.
      intros r ([cases Hcases] & Hpop & Hrate).
      exists cases. split; [done|]. rewrite Hrate. unfold rate_of.
      rewrite Hcases. destruct Hpop as [-> | [p ->]]; [by left|].
      case_decide as Hp; [subst p; right; by left|].
      right; right. by exists p.
    + exists dengue, pop, dy0, py0, dy, py, key. split_and!; try done.
      rewrite HK; last first.
      { intros c Hin Hin'. apply elem_of_app in Hin' as [Hin'|Hin'].
        - repeat (apply elem_of_cons in Hin as [->|Hin]); try done.
          by apply elem_of_nil in Hin.
        - revert Hin Hin'. clear. solve_cols. }
      rewrite HK'; [done| |].
      * intros Hin. apply elem_of_app in Hin as [?|Hin]; [done|].
        revert Hin. clear. solve_cols.
      * intros Hin. apply elem_of_app in Hin as [?|Hin]; [done|].
        revert Hin. clear. solve_cols.
Qed.

(** C1, as the code has it. The rows of a country stand in the table in
    ascending order of their years; the first of them has no
    [lag_cases_1], and every later one has the case count of the row
    just before it, whatever the distance between their years. Where
    the years of the country are whole numbers, no two of them equal,
    that row is the one of the year before whenever there is one. *)
Theorem lag_cases_1_is_previous_row df t c k r :
  prepare_data df = Ok t →
  country_rows c t !! k = Some r →
  StronglySorted value_le (column "year" (select_country c t)) ∧
  (∀ j r', country_rows c t !! j = Some r' →
           num_of (r' !!! "dengue_cases") = Some (cases_at (country_rows c t) j)) ∧
  r !!! "lag_cases_1" =
    match k with
    | 0 => VNaN
    | S k' => VFloat (cases_at (country_rows c t) k')
    end ∧
  (NoDup (column "year" (select_country c t)) →
   Forall (λ v, ∃ y, v = VInt y) (column "year" (select_country c t)) →
   ∀ y j r',
     r !!! "year" = VInt y →
     country_rows c t !! j = Some r' →
     r' !!! "year" = VInt (y - 1) →
     r !!! "lag_cases_1" = VFloat (cases_at (country_rows c t) j)).
Proof.
  intros Ht Hr.
  destruct (country_row_features _ _ _ _ _ Ht Hr) as (Hs & Hn & Hl1 & _).
  split_and!; try done.
  intros Hnd Hint y j r' Hy Hj Hy'.
  assert (k = S j) as ->; [|done].
  apply (sorted_years_adjacent (column "year" (select_country c t)) j k y);
    try done; unfold column; simpl; rewrite list_lookup_fmap.
  - by rewrite Hj; simpl; rewrite Hy'.
  - by rewrite Hr; simpl; rewrite Hy.
Qed.

(** C7, as the code has it. The rows of a country stand in the table in
    ascending order of their years; [ma3_cases] of the first is its own
    case count, of the second the mean of the first two counts, and of
    every later row the mean of its own count and the two before it.
    Where the years of the country are whole numbers, no two of them
    equal, the rows before a row are those of the earlier years, so
    that the first, second and later rows are those of the first,
    second and later observed years. *)
Theorem ma3_cases_is_trailing_mean df t c k r :
  prepare_data df = Ok t →
  country_rows c t !! k = Some r →
  StronglySorted value_le (column "year" (select_country c t)) ∧
  (∀ j r', country_rows c t !! j = Some r' →
           num_of (r' !!! "dengue_cases") = Some (cases_at (country_rows c t) j)) ∧
  r !!! "ma3_cases" =
    VFloat match k with
           | 0 => cases_at (country_rows c t) 0
           | 1 => Qc_mean [cases_at (country_rows c t) 0;
                           cases_at (country_rows c t) 1]
           | S (S k') =>
               Qc_mean [cases_at (country_rows c t) k';
                        cases_at (country_rows c t) (S k');
                        cases_at (country_rows c t) (S (S k'))]
           end ∧
  (NoDup (column "year" (select_country c t)) →
   ∀ y j r' y',
     r !!! "year" = VInt y →
     country_rows c t !! j = Some r' →
     r' !!! "year" = VInt y' →
     j < k ↔ (y' < y)%Z).
Proof.
  intros Ht Hr.
  destruct (country_row_features _ _ _ _ _ Ht Hr) as (Hs & Hn & _ & _ & Hma).
  split_and!; try done.
  intros Hnd y j r' y' Hy Hj Hy'.
  apply (sorted_years_order (column "year" (select_country c t))); try done;
    unfold column; simpl; rewrite list_lookup_fmap.
  - by rewrite Hj; simpl; rewrite Hy'.
  - by rewrite Hr; simpl; rewrite Hy.
Qed.

End features.

(** The cases and the population of one key, each reported twice: one
    row with the sum of the cases and the mean of the population; and
    two case counts of one key whose sum wraps around. *)
Lemma feature_table_keys_witness :
  (prepare_data repeated_key = Ok (features_of repeated_key) ∧
   column "dengue_cases" (features_of repeated_key) = [VInt 17] ∧
   numbers (column "population" (features_of repeated_key)) = [Some 200000%Q] ∧
   NoDup (key_of (merge_key repeated_key) <$> rows (features_of repeated_key))) ∧
  (prepare_data large_counts = Ok (features_of large_counts) ∧
   column "dengue_cases" (features_of large_counts)
   = [VInt (-9223372036854775808)] ∧
   NoDup (key_of (merge_key large_counts) <$> rows (features_of large_counts))).
Proof.
  split.
  - split; [compute_done|]. split; [compute_done|]. split; [compute_done|].
    apply (feature_table_keys_unique repeated_key). compute_done.
  - split; [compute_done|]. split; [compute_done|].
    apply (feature_table_keys_unique large_counts). compute_done.
Defined.

(** C8, as stated, fails: the cases of one country and year reported
    under two English names give two rows of the feature table with the
    same country code and year. *)
Lemma two_rows_for_one_country_year :
  ∃ t, prepare_data two_names = Ok t ∧
       column "spatial_dim" t = [VStr "ABC"; VStr "ABC"] ∧
       column "year" t = [VInt 2020; VInt 2020] ∧
       column "spatial_dim_en" t = [VStr "Abc Land"; VStr "Abcland"] ∧
       numbers (column "dengue_cases" t) = [Some 7%Q; Some 10%Q].
Proof.
  exists (features_of two_names). split_and!; compute_done.
Qed.

(** A population of zero and a missing population: both rows are kept,
    neither has a rate. *)
Lemma zero_or_missing_population :
  ∃ t, prepare_data zero_population = Ok t ∧
       numbers (column "population" t) = [Some 0%Q; None] ∧
       column "cases_per_100k" t = [VNaN; VNaN] ∧
       Forall (λ r, ∃ cases,
         num_of (r !!! "dengue_cases") = Some cases ∧
         ((r !!! "population" = VNaN ∧ r !!! "cases_per_100k" = VNaN) ∨
          (r !!! "population" = VFloat 0 ∧ r !!! "cases_per_100k" = VNaN) ∨
          (∃ p, r !!! "population" = VFloat p ∧ p ≠ 0%Qc ∧
                r !!! "cases_per_100k"
                = VFloat (cases / p * Qc_of_Z 100000)%Qc))) (rows t).
Proof.
  exists (features_of zero_population).
  split; [compute_done|]. split; [compute_done|].
  split; [compute_done|].
  apply (proj2 cases_per_100k_defined_or_null zero_population).
  compute_done.
Defined.

(** The second of three years in a row. *)
Lemma lag_cases_1_witness :
  prepare_data three_years = Ok (features_of three_years) ∧
  country_rows (VStr "ABC") (features_of three_years) !! 1
  = Some (second_row three_years) ∧
  second_row three_years !!! "lag_cases_1"
  = VFloat (cases_at (country_rows (VStr "ABC") (features_of three_years)) 0) ∧
  numbers (column "dengue_cases" (features_of three_years))
  = [Some 10%Q; Some 20%Q; Some 15%Q] ∧
  numbers (column "lag_cases_1" (features_of three_years))
  = [None; Some 10%Q; Some 20%Q].
Proof.
  split; [compute_done|]. split; [compute_done|].
  split; [|split; compute_done].
  refine (proj1 (proj2 (proj2
            (lag_cases_1_is_previous_row three_years (features_of three_years)
               (VStr "ABC") 1 (second_row three_years) _ _))));
    compute_done.
Defined.

(** C1, as stated, fails: with cases for 2020 and 2022 and none for
    2021, the row of 2022 has the cases of 2020 as its [lag_cases_1],
    though the year before it is absent. *)
Lemma lag_cases_1_across_a_gap :
  ∃ t, prepare_data gap_years = Ok t ∧
       column "spatial_dim" t = [VStr "ABC"; VStr "ABC"] ∧
       column "year" t = [VInt 2020; VInt 2022] ∧
       numbers (column "dengue_cases" t) = [Some 10%Q; Some 15%Q] ∧
       numbers (column "lag_cases_1" t) = [None; Some 10%Q].
Proof.
  exists (features_of gap_years). split_and!; compute_done.
Qed.

(** The third of three years in a row. *)
Lemma ma3_cases_witness :
  prepare_data three_years = Ok (features_of three_years) ∧
  country_rows (VStr "ABC") (features_of three_years) !! 2
  = Some (third_row three_years) ∧
  (third_row three_years !!! "ma3_cases"
   = VFloat (Qc_mean
               [cases_at (country_rows (VStr "ABC") (features_of three_years)) 0;
                cases_at (country_rows (VStr "ABC") (features_of three_years)) 1;
                cases_at (country_rows (VStr "ABC") (features_of three_years)) 2]) ∧
   (NoDup (column "year" (select_country (VStr "ABC") (features_of three_years))) →
    ∀ y j r' y',
      third_row three_years !!! "year" = VInt y →
      country_rows (VStr "ABC") (features_of three_years) !! j = Some r' →
      r' !!! "year" = VInt y' →
      j < 2 ↔ (y' < y)%Z)) ∧
  column "year" (features_of three_years) = [VInt 2020; VInt 2021; VInt 2022] ∧
  numbers (column "dengue_cases" (features_of three_years))
  = [Some 10%Q; Some 20%Q; Some 15%Q] ∧
  numbers (column "ma3_cases" (features_of three_years))
  = [Some 10%Q; Some 15%Q; Some 15%Q].
Proof.
  split; [compute_done|]. split; [compute_done|].
  split; [|split_and!; compute_done].
  refine (proj2 (proj2
            (ma3_cases_is_trailing_mean three_years (features_of three_years)
               (VStr "ABC") 2 (third_row three_years) _ _)));
    compute_done.
Defined.

(** C7, as stated, fails: one country code reported under two names in
    2020 has two rows of that year, its first observed one, and the
    second of them has the mean of both counts, not its own count. *)
Lemma ma3_cases_of_a_repeated_year :
  ∃ t, prepare_data two_names = Ok t ∧
       column "spatial_dim" t = [VStr "ABC"; VStr "ABC"] ∧
       column "year" t = [VInt 2020; VInt 2020] ∧
       numbers (column "dengue_cases" t) = [Some 7%Q; Some 10%Q] ∧
       numbers (column "ma3_cases" t) = [Some 7%Q; Some (17 # 2)%Q].
Proof.
  exists (features_of two_names). split_and!; compute_done.
Qed.

(** * Further properties of the scripts *)

(** ** Tables, column by column *)

Lemma setitem_fmap df c (g : Row → value) :
  setitem df c (g <$> rows df)
  = {| columns := add_column (columns df) c;
       rows := (λ r, <[c := g r]> r) <$> rows df |}.
Proof.
  unfold setitem, add_column. f_equal.
  by rewrite zip_with_fmap_r, zip_with_diag.
Qed.


Lemma getitem_present df c :
  c ∈ columns df → getitem df c = Ok ((λ r, r !!! c) <$> rows df).
Proof. intros Hc. unfold getitem. by rewrite decide_True. Qed.

Lemma add_column_elem cols c c' :
  c' ∈ add_column cols c ↔ c' ∈ cols ∨ c' = c.
Proof.
  unfold add_column. case_decide.
  - split; [by left|]. by intros [?| ->].
  - by rewrite elem_of_app, list_elem_of_singleton.
Qed.

Section normalizer.
Context `{PyRuntime}.

Lemma norm_lower_fmap (g : Row → value) (l : list Row) :
  norm_lower (g <$> l) = (λ r, lower_cell (g r)) <$> l.
Proof.
  unfold norm_lower, astype_str, lower_cell.
  by rewrite <-!list_fmap_compose.
Qed.

Lemma norm_upper_fmap (g : Row → value) (l : list Row) :
  norm_upper (g <$> l) = (λ r, upper_cell (g r)) <$> l.
Proof.
  unfold norm_upper, astype_str, upper_cell.
  by rewrite <-!list_fmap_compose.
Qed.

(** Steps 2 to 4 in one: the check of the columns, then each row cleaned
    and the rows of the COUNTRY level kept. *)
Lemma normalize_eq df :
  normalize df =
    let* _ := check_required df in
    Ok {| columns := add_column (add_column (columns df) "indicator_name_norm")
                       "nombre_indicador_norm";
          rows := filter (λ r, r !!! "spatial_dim_type" = VStr "COUNTRY")
                    (normalize_row <$> rows df) |}.
Proof.
  unfold normalize.
  destruct (check_required df) as [[]|e] eqn:Hreq; [|done]. simpl.
  pose proof (check_required_Ok _ _ Hreq) as Hcols.
  rewrite (getitem_present df) by (apply Hcols; unfold REQUIRED; solve_cols).
  simpl. rewrite norm_lower_fmap, setitem_fmap.
  rewrite getitem_present
    by (simpl; apply add_column_elem; left; apply Hcols; unfold REQUIRED; solve_cols).
  cbn [bind rows columns]. rewrite norm_lower_fmap.
  set (r1 := (λ r : Row, <["indicator_name_norm" := lower_cell (r !!! "indicator_name")]> r)).
  set (d1 := {| columns := add_column (columns df) "indicator_name_norm";
                rows := r1 <$> rows df |}).
  change (r1 <$> rows df) with (rows d1). rewrite setitem_fmap.
  set (r2 := (λ r : Row, <["nombre_indicador_norm" := lower_cell (r !!! "nombre_indicador")]> r)).
  set (d2 := {| columns := add_column (columns d1) "nombre_indicador_norm";
                rows := r2 <$> rows d1 |}).
  assert (∀ c, c ∈ REQUIRED → c ∈ columns d2) as Hcols2.
  { intros c Hc. simpl. rewrite !add_column_elem. left; left. by apply Hcols. }
  rewrite (getitem_present d2) by (apply Hcols2; unfold REQUIRED; solve_cols).
  cbn [bind]. rewrite norm_upper_fmap, setitem_fmap.
  set (r3 := (λ r : Row, <["spatial_dim_type" := upper_cell (r !!! "spatial_dim_type")]> r)).
  set (d3 := {| columns := add_column (columns d2) "spatial_dim_type";
                rows := r3 <$> rows d2 |}).
  assert (∀ c, c ∈ REQUIRED → c ∈ columns d3) as Hcols3.
  { intros c Hc. simpl. rewrite !add_column_elem. left; left; left. by apply Hcols. }
  rewrite (getitem_present d3) by (apply Hcols3; unfold REQUIRED; solve_cols).
  cbn [bind]. rewrite norm_upper_fmap, setitem_fmap.
  set (r4 := (λ r : Row, <["time_dim_type" := upper_cell (r !!! "time_dim_type")]> r)).
  set (d4 := {| columns := add_column (columns d3) "time_dim_type";
                rows := r4 <$> rows d3 |}).
  rewrite (getitem_present d4)
    by (simpl; rewrite !add_column_elem; do 4 left; apply Hcols; unfold REQUIRED; solve_cols).
  cbn [bind]. unfold series_eq. rewrite <-list_fmap_compose.
  change (select d4 _)
    with (select d4 ((λ r : Row,
            bool_decide (r !!! "spatial_dim_type" = VStr "COUNTRY")) <$> rows d4)).
  rewrite (select_fmap d4 (λ r, r !!! "spatial_dim_type" = VStr "COUNTRY")).
  f_equal. f_equal.
  - simpl. unfold add_column at 1 2.
    rewrite !decide_True; [done| |].
    + apply Hcols2. unfold REQUIRED. solve_cols.
    + apply Hcols3. unfold REQUIRED. solve_cols.
  - simpl. by rewrite <-!list_fmap_compose.
Qed.

End normalizer.

Section normalizer_properties.
Context `{PyRuntime}.

Lemma check_required_first_missing df pre c post :
  REQUIRED = pre ++ c :: post →
  Forall (λ c', c' ∈ columns df) pre →
  c ∉ columns df →
  check_required df = Raise (ValueError ("Missing required column: " +:+ c)).
Proof.
  intros Hreq Hpre Hc. unfold check_required. rewrite Hreq, filter_app.
  assert (filter (λ c0, c0 ∉ columns df) pre = []) as ->.
  { clear Hreq. induction Hpre as [|x l Hx _ IH]; [done|].
    rewrite filter_cons. by rewrite decide_False by tauto. }
  simpl. rewrite filter_cons. by rewrite decide_True.
Qed.

(** X1. A raw table that lacks a required column is refused before any
    row is read: the run ends in a [ValueError] that names the first
    column of the list of step 2 that is missing. *)
Theorem missing_required_column df pre c post :
  REQUIRED = pre ++ c :: post →
  Forall (λ c', c' ∈ columns df) pre →
  c ∉ columns df →
  prepare_data df = Raise (ValueError ("Missing required column: " +:+ c)).
Proof.
  intros Hreq Hpre Hc. unfold prepare_data, classify.
  rewrite normalize_eq.
  by rewrite (check_required_first_missing df pre c post).
Qed.

Lemma normalize_row_level (r : Row) :
  normalize_row r !!! "spatial_dim_type" = VStr "COUNTRY" ↔ is_country r.
Proof.
  unfold normalize_row, is_country, upper_cell. simpl.
  rewrite lookup_total_insert_ne by done.
  rewrite lookup_total_insert_eq.
  rewrite !lookup_total_insert_ne by done.
  split; [by intros [= ?]|by intros ->].
Qed.

(** X2. Only the rows of the COUNTRY level count: leaving out any rows of
    another level changes neither the feature table nor the error the
    run ends with. *)
Theorem non_country_rows_are_ignored df (Q : Row → Prop) `{!∀ r, Decision (Q r)} :
  Forall (λ r, is_country r → Q r) (rows df) →
  prepare_data (keep_rows Q df) = prepare_data df.
Proof.
  intros HQ. unfold prepare_data, classify. rewrite !normalize_eq.
  assert (check_required (keep_rows Q df) = check_required df) as -> by done.
  destruct (check_required df) as [[]|e]; [|done].
  cbn [bind keep_rows columns rows].
  assert (filter (λ r : Row, r !!! "spatial_dim_type" = VStr "COUNTRY")
            (normalize_row <$> filter Q (rows df))
          = filter (λ r : Row, r !!! "spatial_dim_type" = VStr "COUNTRY")
              (normalize_row <$> rows df)) as ->; [|done].
  induction HQ as [|r l Hr _ IH]; [done|].
  rewrite filter_cons. csimpl. rewrite (filter_cons _ (normalize_row r)).
  destruct (decide (Q r)) as [Hq|Hq].
  - csimpl. rewrite filter_cons. by rewrite IH.
  - rewrite decide_False; [done|].
    rewrite normalize_row_level. tauto.
Qed.

End normalizer_properties.

(** A table without [time_dim_type] is refused under that name. *)
Lemma missing_required_column_witness :
  prepare_data no_time_dim_type
  = Raise (ValueError "Missing required column: time_dim_type").
Proof.
  apply (missing_required_column no_time_dim_type
           ["indicator_name"; "nombre_indicador"; "spatial_dim_type";
            "spatial_dim"; "spatial_dim_en"; "spatial_dim_es"]
           "time_dim_type" ["time_dim"; "numeric_value"]).
  - reflexivity.
  - compute_done.
  - compute_done.
Defined.

(** The REGION row of [with_region_row] leaves the table of
    [three_years] as it is. *)
Lemma non_country_rows_witness :
  keep_rows is_country with_region_row = three_years ∧
  prepare_data three_years = prepare_data with_region_row ∧
  prepare_data with_region_row = Ok (features_of three_years).
Proof.
  split; [compute_done|]. split; [|compute_done].
  transitivity (prepare_data (keep_rows is_country with_region_row));
    [compute_done|].
  apply (non_country_rows_are_ignored with_region_row is_country).
  compute_done.
Defined.

(** ** The feature table as a whole *)

Lemma StronglySorted_on {A B} (f : A → B) (R : relation B) (l : list A) :
  StronglySorted (on f R) l ↔ StronglySorted R (f <$> l).
Proof.
  induction l as [|x l IH]; csimpl.
  - split; constructor.
  - rewrite !StronglySorted_cons, IH, Forall_fmap. done.
Qed.

Section feature_table_properties.
Context `{PyRuntime}.


Lemma join_columns dy0 py0 dy py key df_yr :
  consolidate dy0 py0 = Ok (dy, py, key) →
  join dy py key = Ok df_yr →
  columns df_yr = key ++ ["dengue_cases"; "population"]
                  ++ (if decide ("year" ∈ key) then [] else ["year"]).
Proof.
  intros Hc Hj.
  destruct (consolidate_spec _ _ _ _ _ Hc)
    as (Hkey & Hcd & Hcp & _ & Hnp & _).
  destruct (key_NoDup _ Hkey) as (_ & _ & Hpk & _).
  unfold join in Hj. inv_ok. rename x into M.
  destruct (merge_left_spec _ _ _ _ _ Hpk Hcp Hnp Hstep) as [HcM _].
  rewrite Hcd in HcM.
  assert ("year" ∈ columns M ↔ "year" ∈ key) as Hy.
  { rewrite HcM. clear. solve_cols. }
  destruct (decide ("year" ∈ columns M)) as [Hin|Hin].
  - injection Hj as <-. rewrite decide_True by tauto.
    rewrite HcM, <-!app_assoc. by rewrite app_nil_r.
  - inv_ok. subst df_yr. rewrite decide_False by tauto.
    simpl. rewrite decide_False by done.
    rewrite HcM, <-!app_assoc. done.
Qed.

(** X5. The columns of the feature table, in order: the four columns of
    the key, the case count, the population, the year when the key has
    the [time_dim] column in its place, and the four features. *)
Theorem feature_table_columns df t :
  prepare_data df = Ok t →
  columns t =
    merge_key df ++ ["dengue_cases"; "population"]
    ++ (if decide ("year" ∈ columns df) then [] else ["year"])
    ++ ["cases_per_100k"; "lag_cases_1"; "lag_cases_2"; "ma3_cases"].
Proof.
  intros Ht.
  destruct (prepare_data_stages _ _ Ht)
    as (dengue & pop & dy0 & py0 & dy & py & key & df_yr & rated &
        Hcl & Hch & Hc & Hj & Hr & Hl).
  destruct (consolidate_key _ _ _ _ _ _ _ _ Hcl Hch Hc) as [_ Hkeq].
  pose proof (join_columns _ _ _ _ _ _ Hc Hj) as Hcols.
  assert ("year" ∈ key ↔ "year" ∈ columns df) as Hy.
  { rewrite Hkeq. unfold merge_key.
    destruct (decide ("year" ∈ columns df)) as [Hyear|Hyear].
    - split; [intros _; exact Hyear|]. intros _. unfold YEAR_KEY. solve_cols.
    - split; [|intros Hin; by destruct Hyear]. unfold TIME_DIM_KEY. intros Hin.
      repeat (apply elem_of_cons in Hin as [Hin|Hin]; [done|]).
      by apply elem_of_nil in Hin. }
  assert (columns df_yr =
            merge_key df ++ ["dengue_cases"; "population"]
            ++ (if decide ("year" ∈ columns df) then [] else ["year"])) as Hcols'.
  { rewrite Hcols, <-Hkeq.
    destruct (decide ("year" ∈ key)), (decide ("year" ∈ columns df));
      first [done|tauto]. }
  clear Hcols.
  assert (∀ c, c ∈ ["cases_per_100k"; "lag_cases_1"; "lag_cases_2"; "ma3_cases"] →
               c ∉ columns df_yr) as Hfresh.
  { intros c Hc' Hin. rewrite Hcols' in Hin.
    destruct (merge_key_cases df) as [E|E]; rewrite E in Hin;
      destruct (decide ("year" ∈ columns df));
      unfold YEAR_KEY, TIME_DIM_KEY in Hin; revert Hc' Hin; clear; solve_cols. }
  unfold add_rate in Hr. inv_ok. subst rated.
  unfold add_lags, sort_values in Hl. inv_ok. subst. simpl.
  rewrite (decide_False (P := "cases_per_100k" ∈ columns df_yr))
    by (apply Hfresh; solve_cols).
  rewrite (decide_False (P := "lag_cases_1" ∈ _)).
  2:{ rewrite elem_of_app. intros [Hin|Hin]; [by apply (Hfresh "lag_cases_1"); [solve_cols|]|].
      revert Hin. clear. solve_cols. }
  rewrite (decide_False (P := "lag_cases_2" ∈ _)).
  2:{ rewrite !elem_of_app. intros [[Hin|Hin]|Hin];
        [by apply (Hfresh "lag_cases_2"); [solve_cols|]| |];
        revert Hin; clear; solve_cols. }
  rewrite (decide_False (P := "ma3_cases" ∈ _)).
  2:{ rewrite !elem_of_app. intros [[[Hin|Hin]|Hin]|Hin];
        [by apply (Hfresh "ma3_cases"); [solve_cols|]| | |];
        revert Hin; clear; solve_cols. }
  rewrite Hcols', <-!app_assoc. done.
Qed.

(** X4. The rows of the feature table stand in ascending order of the
    country code and, within one country, of the year. *)
Theorem feature_table_sorted df t :
  prepare_data df = Ok t →
  StronglySorted (row_le ["spatial_dim"; "year"]) (rows t).
Proof.
  intros Ht.
  destruct (prepare_data_stages _ _ Ht)
    as (dengue & pop & dy0 & py0 & dy & py & key & df_yr & rated &
        _ & _ & _ & _ & _ & Hl).
  apply (proj2 (StronglySorted_on (key_of ["spatial_dim"; "year"])
                  (list_le value_le) (rows t))).
  rewrite (add_lags_insensitive (key_of ["spatial_dim"; "year"]) rated t).
  - apply (proj1 (StronglySorted_on (key_of ["spatial_dim"; "year"])
                    (list_le value_le) (sorted_rows rated))).
    apply (stable_sort_sorted (row_le ["spatial_dim"; "year"])); apply _.
  - intros c v r Hc. apply key_of_insert_ne. revert Hc. clear. solve_cols.
  - done.
Qed.



End feature_table_properties.

(** The table of [three_years]: its columns, its order, its keys and
    the second lag of its third row. *)
Lemma feature_table_columns_witness :
  columns (features_of three_years)
  = ["spatial_dim"; "spatial_dim_en"; "spatial_dim_es"; "time_dim";
     "dengue_cases"; "population"; "year";
     "cases_per_100k"; "lag_cases_1"; "lag_cases_2"; "ma3_cases"].
Proof.
  rewrite (feature_table_columns three_years (features_of three_years));
    compute_done.
Defined.

Lemma feature_table_sorted_witness :
  StronglySorted (row_le ["spatial_dim"; "year"]) (rows (features_of three_years)).
Proof. apply (feature_table_sorted three_years). compute_done. Defined.



(** ** Units of the population *)

Lemma np_where_lookup c a b i x y z :
  c !! i = Some x → a !! i = Some y → b !! i = Some z →
  np_where c a b !! i = Some (if truthy x then y else z).
Proof.
  revert a b i. induction c as [|x' c IH]; intros [|y' a] [|z' b] [|i]; try done.
  - simpl. by intros [= ->] [= ->] [= ->].
  - simpl. apply IH.
Qed.

Lemma np_where_length c a b :
  length a = length c → length b = length c →
  length (np_where c a b) = length c.
Proof.
  revert a b. induction c as [|x c IH]; intros [|y a] [|z b]; try done.
  simpl. intros [= Ha] [= Hb]. by rewrite IH.
Qed.

Section units_properties.
Context `{PyRuntime}.

Lemma str_contains_flag pat (v : value) :
  str_test (re_search pat) (Some false) v = VBool (text_has pat v).
Proof. by destruct v. Qed.

(** X7. Step 8 turns each population row into one row, in order: its
    population is the reported number, times 1000 when the English name
    of the indicator contains [thousand] or the Spanish one [mil]
    anywhere, and missing when the number is; the other cells stay. The
    product of a whole number is taken on 64 bits, so it is the exact
    one as long as that fits; text is not refused but repeated. *)
Theorem population_in_units pop_y t :
  "numeric_value" ∈ columns pop_y →
  population_table pop_y = Ok t →
  length (rows t) = length (rows pop_y) ∧
  ∀ i r, rows pop_y !! i = Some r →
    ∃ r', rows t !! i = Some r' ∧
      (∀ q, num_of (r !!! "numeric_value") = Some q →
            (∀ z, r !!! "numeric_value" = VInt z →
                  (- 2 ^ 63 ≤ z * 1000 < 2 ^ 63)%Z) →
            num_of (r' !!! "population")
            = Some (if in_thousands r then q * Qc_of_Z 1000 else q)%Qc) ∧
      (∀ z, r !!! "numeric_value" = VInt z →
            r' !!! "population"
            = VInt (if in_thousands r then wrap64 (z * 1000) else z)) ∧
      (∀ s, r !!! "numeric_value" = VStr s →
            r' !!! "population"
            = VStr (if in_thousands r then str_repeat 1000 s else s)) ∧
      (r !!! "numeric_value" = VNaN → r' !!! "population" = VNaN) ∧
      (∀ c, c ∉ ["numeric_value"; "population_raw"; "is_thousands"; "population"] →
            r' !!! c = r !!! c).
Proof.
  intros Hnv. unfold population_table, rename.
  rewrite decide_True by done.
  case_decide as Hraw; [done|]. simpl.
  set (r1 := λ r : Row, <["population_raw" := r !!! "numeric_value"]>
                          (delete "numeric_value" r)).
  set (p1 := {| columns := _; rows := r1 <$> rows pop_y |}).
  unfold detect_thousands. intros Ht. inv_ok. subst t.
  rename x into a, x0 into b, x1 into c, x2 into raw, x3 into scaled, x4 into raw'.
  apply getitem_Ok in Hstep as [_ ->]. apply getitem_Ok in Hstep0 as [_ ->].
  apply getitem_Ok in Hstep2 as [_ ->]. apply getitem_Ok in Hstep4 as [_ ->].
  apply getitem_Ok in Hstep1 as [_ ->].
  set (flags := series_or _ _) in *.
  assert (length flags = length (rows pop_y)) as Hlf.
  { unfold flags, series_or, str_contains.
    rewrite length_zip_with, !length_fmap. simpl. rewrite !length_fmap. lia. }
  assert (length (rows (setitem p1 "is_thousands" flags)) = length (rows pop_y))
    as Hl2.
  { simpl. rewrite length_zip_with, length_fmap. lia. }
  pose proof (try_map_length _ _ _ Hstep3) as Hls.
  rewrite length_fmap, Hl2 in Hls.
  split.
  { simpl. rewrite !length_zip_with, np_where_length, !length_fmap;
      rewrite ?length_fmap, ?length_zip_with, ?length_fmap; simpl;
      rewrite ?length_fmap; lia. }
  intros i r Hr.
  assert (flags !! i = Some (VBool (in_thousands r))) as Hflag.
  { unfold flags, series_or, str_contains. rewrite lookup_zip_with.
    rewrite !list_lookup_fmap. simpl. rewrite list_lookup_fmap, Hr. simpl.
    rewrite !str_contains_flag. unfold r1, in_thousands. simpl.
    rewrite !lookup_total_insert_ne by done.
    rewrite !lookup_total_delete_ne by done. done. }
  assert (rows (setitem p1 "is_thousands" flags) !! i
          = Some (<["is_thousands" := VBool (in_thousands r)]> (r1 r))) as Hr2.
  { simpl. rewrite lookup_zip_with, list_lookup_fmap, Hr, Hflag. done. }
  set (r2 := <["is_thousands" := VBool (in_thousands r)]> (r1 r)) in *.
  assert (r2 !!! "population_raw" = r !!! "numeric_value") as Hraw2.
  { unfold r2, r1. rewrite lookup_total_insert_ne by done.
    by rewrite lookup_total_insert_eq. }
  destruct (try_map_lookup _ _ _ i (r2 !!! "population_raw") Hstep3)
    as (x1000 & Hx & Hmul).
  { by rewrite list_lookup_fmap, Hr2. }
  rewrite Hraw2 in Hmul.
  exists (<["population" :=
             if in_thousands r then x1000 else r !!! "numeric_value"]> r2).
  split_and!.
  - cbn [rows setitem]. rewrite lookup_zip_with.
    change (zip_with _ (rows p1) flags) with (rows (setitem p1 "is_thousands" flags)).
    rewrite Hr2. cbn [mbind option_bind].
    rewrite (np_where_lookup _ _ _ i (VBool (in_thousands r)) x1000
               (r !!! "numeric_value")); [done| |exact Hx|].
    + rewrite list_lookup_fmap, Hr2. simpl. unfold r2.
      by rewrite lookup_total_insert_eq.
    + by rewrite list_lookup_fmap, Hr2; simpl; rewrite Hraw2.
  - intros q Hq Hrange. rewrite lookup_total_insert_eq.
    destruct (in_thousands r); [|done].
    destruct (r !!! "numeric_value") as [|[]|z|q'| |]; simpl in *;
      try done; injection Hq as <-; injection Hmul as <-; simpl;
      try done.
    + f_equal. rewrite wrap64_small by lia. by rewrite Z2Qc_inj_mul.
    + f_equal. rewrite wrap64_small by lia. by rewrite Z2Qc_inj_mul.
    + f_equal. rewrite wrap64_small by (by apply Hrange).
      by rewrite Z2Qc_inj_mul.
  - intros z Hz. rewrite lookup_total_insert_eq. rewrite Hz in Hmul.
    simpl in Hmul. injection Hmul as <-. by destruct (in_thousands r).
  - intros s Hs. rewrite lookup_total_insert_eq. rewrite Hs in Hmul.
    simpl in Hmul. injection Hmul as <-. by destruct (in_thousands r).
  - intros Hnan. rewrite lookup_total_insert_eq. rewrite Hnan in *.
    simpl in Hmul. injection Hmul as <-. by destruct (in_thousands r).
  - intros c0 Hc0. unfold r2, r1.
    rewrite !lookup_total_insert_ne by (intros <-; apply Hc0; solve_cols).
    rewrite lookup_total_delete_ne by (intros <-; apply Hc0; solve_cols).
    done.
Qed.

End units_properties.

(** One row in units and one in thousands: both stand for 5000. *)
Lemma population_in_units_witness :
  numbers (column "population"
             (from_ok population_rows_in_units
                (population_table population_rows_in_units)))
  = [Some 5000%Q; Some 5000%Q] ∧
  ∃ r', rows (from_ok population_rows_in_units
                (population_table population_rows_in_units)) !! 1 = Some r' ∧
        num_of (r' !!! "population") = Some (Qc_of_Z 5 * Qc_of_Z 1000)%Qc.
Proof.
  split; [compute_done|].
  destruct (population_in_units population_rows_in_units
              (from_ok population_rows_in_units
                 (population_table population_rows_in_units)))
    as [_ Hrow]; [compute_done..|].
  destruct (Hrow 1 (rows population_rows_in_units !!! 1))
    as (r' & Hr' & Hnum & _); [compute_done|].
  exists r'. split; [exact Hr'|].
  assert (in_thousands (rows population_rows_in_units !!! 1) = true) as E
    by compute_done.
  rewrite E in Hnum. apply Hnum; [compute_done|].
  intros z Hz.
  assert ((rows population_rows_in_units !!! 1) !!! "numeric_value" = VInt 5) as E'
    by compute_done.
  rewrite E' in Hz. injection Hz as <-. lia.
Defined.

(** ** Case counts are neither lost nor counted twice *)

Lemma Qc_sum_app (a b : list Qc) : Qc_sum (a ++ b) = (Qc_sum a + Qc_sum b)%Qc.
Proof.
  induction a as [|q a IH]; simpl; [by rewrite Qcplus_0_l|].
  by rewrite IH, Qcplus_assoc.
Qed.

Lemma Qc_sum_perm (a b : list Qc) : a ≡ₚ b → Qc_sum a = Qc_sum b.
Proof.
  induction 1 as [|x a b _ IH|x y a|a b c _ IH1 _ IH2]; simpl.
  - done.
  - by rewrite IH.
  - rewrite !Qcplus_assoc. f_equal. apply Qcplus_comm.
  - by rewrite IH1.
Qed.

Lemma total_perm (a b : list value) : a ≡ₚ b → total_of a = total_of b.
Proof. intros Hp. unfold total_of. apply Qc_sum_perm. by rewrite Hp. Qed.

Lemma total_cons v s :
  total_of (v :: s) = (default 0%Qc (num_of v) + total_of s)%Qc.
Proof.
  unfold total_of. simpl. destruct (num_of v); simpl; [done|].
  by rewrite Qcplus_0_l.
Qed.


Lemma Z_sum_numbers s zs :
  mapM as_int s = Some zs → Qc_of_Z (Z_sum zs) = total_of s.
Proof.
  revert zs. induction s as [|v s IH]; intros zs Hzs.
  - simpl in Hzs. injection Hzs as <-. apply Z2Qc_inj_0.
  - rewrite total_cons. simpl in Hzs.
    destruct (as_int v) as [z|] eqn:Hz; [|done]. simpl in Hzs.
    destruct (mapM as_int s) as [zs'|] eqn:E; [|done].
    simpl in Hzs. injection Hzs as <-. simpl.
    rewrite Z2Qc_inj_add, (IH zs' eq_refl). f_equal.
    destruct v as [|[]|z'| | |]; simpl in *; try done; injection Hz as <-;
      [apply Z2Qc_inj_1|apply Z2Qc_inj_0|done].
Qed.

Lemma agg_sum_total s v :
  fits_int64 s → agg_sum s = Ok v → num_of v = Some (total_of s).
Proof.
  unfold agg_sum, fits_int64. intros Hfit Hs. inv_ok. rename x into qs.
  apply present_numbers in Hstep as ->.
  destruct (mapM as_int _) as [zs|] eqn:E; injection Hs as <-; simpl.
  - f_equal. rewrite wrap64_small by done. by apply Z_sum_numbers.
  - done.
Qed.

Lemma total_filter_split {A} (g : A → value) (P Q PQ : A → Prop)
    `{!∀ x, Decision (P x), !∀ x, Decision (Q x), !∀ x, Decision (PQ x)}
    (l : list A) :
  (∀ x, PQ x ↔ P x ∨ Q x) → (∀ x, P x → Q x → False) →
  total_of (g <$> filter PQ l)
  = (total_of (g <$> filter P l) + total_of (g <$> filter Q l))%Qc.
Proof.
  intros Hiff Hdis. induction l as [|x l IH]; [done|].
  rewrite !filter_cons.
  destruct (decide (P x)) as [HP|HP], (decide (Q x)) as [HQ|HQ].
  - by destruct (Hdis x).
  - rewrite decide_True by (apply Hiff; tauto). csimpl.
    rewrite !total_cons, IH. by rewrite Qcplus_assoc.
  - rewrite decide_True by (apply Hiff; tauto). csimpl.
    rewrite !total_cons, IH. rewrite !Qcplus_assoc. f_equal. apply Qcplus_comm.
  - rewrite decide_False by (rewrite Hiff; tauto). done.
Qed.

Lemma list_filter_iff_in {A} (P Q : A → Prop)
    `{!∀ x, Decision (P x), !∀ x, Decision (Q x)} (l : list A) :
  (∀ x, x ∈ l → P x ↔ Q x) → filter P l = filter Q l.
Proof.
  induction l as [|x l IH]; intros Hiff; [done|].
  rewrite !filter_cons.
  rewrite IH by (intros y Hy; apply Hiff; by right).
  destruct (decide (P x)) as [HP|HP].
  - rewrite decide_True; [done|]. apply Hiff; [left|done].
  - rewrite decide_False; [done|]. rewrite <-Hiff; [done|left].
Qed.

Lemma total_by_groups {A K} `{EqDecision K} (g : A → value) (key : A → K)
    (ks : list K) (l : list A) :
  NoDup ks →
  Qc_sum ((λ k, total_of (g <$> filter (λ x, key x = k) l)) <$> ks)
  = total_of (g <$> filter (λ x, key x ∈ ks) l).
Proof.
  induction 1 as [|k ks Hk Hnd IH]; csimpl.
  - assert (filter (λ x, key x ∈ []) l = []) as ->; [|done].
    induction l as [|x l IHl]; [done|].
    rewrite filter_cons. rewrite decide_False; [done|]. apply not_elem_of_nil.
  - rewrite IH. symmetry. apply total_filter_split.
    + intros x. by rewrite elem_of_cons.
    + intros x -> Hin. done.
Qed.

Lemma total_of_groups {A} (g : A → value) (G : A → Qc) (l : list A) :
  Forall (λ x, num_of (g x) = Some (G x)) l →
  total_of (g <$> l) = Qc_sum (G <$> l).
Proof.
  induction 1 as [|x l Hx _ IH]; [done|].
  csimpl. by rewrite total_cons, IH, Hx.
Qed.

Section case_totals.
Context `{PyRuntime}.

(** X8. No case is lost or counted twice on the way: as long as the
    whole numbers of each key add up within 64 bits, the case counts of
    the feature table add up to those of the YEAR case rows whose key
    has no missing cell. *)
Theorem case_totals_are_kept df t dengue pop dengue_y pop_y cases_tbl :
  prepare_data df = Ok t →
  classify df = Ok (dengue, pop) →
  choose_time_dim dengue pop = Ok (dengue_y, pop_y) →
  case_table dengue_y = Ok cases_tbl →
  Forall (λ k, fits_int64 (column "dengue_cases"
                             (select_key (merge_key df) k cases_tbl)))
    (group_keys (merge_key df) (rows cases_tbl)) →
  total_of (column "dengue_cases" t)
  = total_of (column "dengue_cases"
             (keep_rows (λ r, VNaN ∉ key_of (merge_key df) r) cases_tbl)).
Proof.
  intros Ht Hcl0 Hch0 Hct0 Hfit.
  destruct (prepare_data_stages _ _ Ht)
    as (dengue' & pop' & dy0 & py0 & dy & py & key & df_yr & rated &
        Hcl & Hch & Hc & Hj & Hr & Hl).
  rewrite Hcl0 in Hcl. injection Hcl as <- <-.
  rewrite Hch0 in Hch. injection Hch as <- <-.
  destruct (consolidate_key _ _ _ _ _ _ _ _ Hcl0 Hch0 Hc) as [_ Hkeq].
  destruct (feature_table_spec _ _ _ _ _ _ _ _ Hc Hj Hr Hl) as (HK & _).
  destruct (join_spec _ _ _ _ _ _ Hc Hj) as (HK' & _).
  assert (column "dengue_cases" t ≡ₚ (λ r : Row, r !!! "dengue_cases") <$> rows dy)
    as Hperm.
  { assert (∀ l : list Row, (λ r : Row, r !!! "dengue_cases") <$> l
              = default VNaN ∘ head <$> (key_of ["dengue_cases"] <$> l)) as E.
    { intros l. rewrite <-list_fmap_compose. done. }
    unfold column. rewrite !E. apply fmap_Permutation.
    rewrite HK by (intros c Hin; revert Hin; clear; solve_cols).
    rewrite HK'; [done| |]; clear; solve_cols. }
  unfold consolidate in Hc. inv_ok. subst.
  rename x into d1, x0 into p1.
  assert (d1 = cases_tbl) as -> by congruence.
  pose proof (merge_key_cases cases_tbl) as Hkey.
  destruct (key_NoDup _ Hkey) as (Hnd & Hdc & Hpop & _).
  destruct (groupby_agg_spec _ _ _ _ _ Hnd Hdc Hstep1) as (_ & Hk1 & Ha1 & _).
  rewrite (total_perm _ _ Hperm). rewrite <-Hkeq in *.
  set (key := merge_key cases_tbl) in *.
  set (G := λ k, total_of ((λ r : Row, r !!! "dengue_cases")
                          <$> filter (λ r, key_of key r = k) (rows cases_tbl))).
  assert (total_of ((λ r : Row, r !!! "dengue_cases") <$> rows dy)
          = Qc_sum (G <$> (key_of key <$> rows dy))) as ->.
  { rewrite <-list_fmap_compose. apply total_of_groups.
    rewrite <-Hk1, Forall_fmap in Hfit.
    apply Forall_forall. intros r Hin.
    pose proof (proj1 (Forall_forall _ _) Ha1 r Hin) as Hagg.
    pose proof (proj1 (Forall_forall _ _) Hfit r Hin) as Hf.
    simpl in *. by apply agg_sum_total in Hagg. }
  rewrite Hk1. unfold G.
  rewrite (total_by_groups _ (key_of key)) by apply group_keys_NoDup.
  unfold column, keep_rows. simpl. f_equal. f_equal.
  apply list_filter_iff_in. intros r Hr'.
  rewrite group_keys_spec. split; [tauto|].
  intros Hnan. split; [|done]. apply list_elem_of_fmap. eauto.
Qed.

End case_totals.

(** Two reports for one key are added up, the row without a country
    code is left out: 10 + 7 + 5 of the 122 reported cases are kept. *)
Lemma case_totals_witness :
  total_of (column "numeric_value" (case_rows_of repeated_cases)) = Qc_of_Z 122 ∧
  numbers (column "dengue_cases" (features_of repeated_cases))
  = [Some 17%Q; Some 5%Q] ∧
  total_of (column "dengue_cases" (features_of repeated_cases))
  = total_of (column "dengue_cases"
                (keep_rows (λ r, VNaN ∉ key_of (merge_key repeated_cases) r)
                   (from_ok repeated_cases
                      (case_table (chosen_of repeated_cases).1)))).
Proof.
  split; [compute_done|]. split; [compute_done|].
  apply (case_totals_are_kept repeated_cases (features_of repeated_cases)
           (case_rows_of repeated_cases) (population_rows_of repeated_cases)
           (chosen_of repeated_cases).1 (chosen_of repeated_cases).2);
    compute_done.
Defined.

(** ** The scoring script *)

Lemma try_map_Ok_iff {A B} (f : A → result B) (l : list A) :
  (∃ l', try_map f l = Ok l') ↔ Forall (λ x, ∃ y, f x = Ok y) l.
Proof.
  split.
  - intros [l' Hl]. apply try_map_Forall2 in Hl.
    induction Hl; constructor; eauto.
  - induction 1 as [|x l [y Hy] _ [l' IH]]; [by exists []|].
    exists (y :: l'). simpl. by rewrite Hy, IH.
Qed.



Lemma fill_row_other r c : c ∉ FEATURES → fill_row r !! c = r !! c.
Proof.
  unfold FEATURES, fill_row. intros Hc.
  rewrite !lookup_insert_ne; [done|intros <-; apply Hc; solve_cols..].
Qed.

Lemma fillna_zero_number v :
  is_Some (num_of (fillna_zero v)) ↔ number_or_missing v.
Proof.
  unfold number_or_missing. destruct v; simpl; split;
    try (intros [?|?]); try done; eauto; try by (intros [? ?]).
  all: by right.
Qed.

Lemma fill_features_present df :
  Forall (λ c, c ∈ columns df) FEATURES →
  fill_features df
  = Ok {| columns := columns df; rows := fill_row <$> rows df |}.
Proof.
  intros Hc. destruct (fill_features df) as [d|e] eqn:E.
  - destruct (fill_features_rows _ _ E) as [<- <-]. by destruct d.
  - unfold fill_features in E.
    assert (require_columns df FEATURES = Ok ()) as E'.
    { apply require_columns_Ok. intros c Hin.
      by apply (proj1 (Forall_forall _ _) Hc). }
    by rewrite E' in E.
Qed.

Lemma filled_row_readable (r : Row) :
  (∃ x, try_map (λ c, match num_of (fill_row r !!! c) with
                      | Some q => Ok q
                      | None => Raise (ValueError "could not convert to float")
                      end) FEATURES = Ok x)
  ↔ Forall (λ c, number_or_missing (r !!! c)) FEATURES.
Proof.
  rewrite try_map_Ok_iff. rewrite !Forall_forall.
  apply forall_proper. intros c. apply forall_proper. intros Hc.
  rewrite fill_row_feature by done. rewrite <-fillna_zero_number.
  destruct (num_of (fillna_zero (r !!! c))); split; eauto.
  - by intros [? ?].
  - by intros [? ?].
Qed.

Section scoring_properties.
Context `{IsolationForestLib}.

(** X9. The scoring leaves the table as it was but for two things: the
    missing cells of the four features are written back as 0, and the
    column [risk_score] is added or replaced. Rows, their order and
    every other cell stay. *)
Theorem scored_table_frame w df scored :
  risk_score w df = Ok scored →
  columns scored = add_column (columns df) "risk_score" ∧
  length (rows scored) = length (rows df) ∧
  ∀ i r, rows df !! i = Some r →
    ∃ r', rows scored !! i = Some r' ∧
      (∀ c, c ∈ FEATURES → r' !!! c = fillna_zero (r !!! c)) ∧
      (∀ c, c ∉ FEATURES → c ≠ "risk_score" → r' !! c = r !! c).
Proof.
  unfold risk_score. intros Hs. inv_ok. subst scored.
  rename x into d, x0 into X, x1 into scores.
  destruct (fill_features_rows _ _ Hstep) as [Hcols Hrows].
  assert (length scores = length (rows df)) as Hlen.
  { unfold fit_score_samples in Hstep1. destruct X; [done|].
    injection Hstep1 as <-. rewrite forest_score_samples_length.
    apply try_map_length in Hstep0. by rewrite Hstep0, Hrows, length_fmap. }
  split_and!.
  - unfold setitem, add_column. simpl. by rewrite Hcols.
  - simpl. rewrite length_zip_with, Hrows, !length_fmap.
    unfold normalize_scores. rewrite !length_fmap. lia.
  - intros i r Hr.
    destruct (lookup_lt_is_Some_2 (VFloat <$> normalize_scores (Qcopp <$> scores)) i)
      as [v Hv].
    { unfold normalize_scores. rewrite !length_fmap, Hlen.
      by eapply lookup_lt_Some. }
    exists (<["risk_score" := v]> (fill_row r)). split_and!.
    + cbn [rows setitem].
      rewrite lookup_zip_with, Hv, Hrows, list_lookup_fmap, Hr. done.
    + intros c Hc. rewrite lookup_total_insert_ne.
      * by apply fill_row_feature.
      * intros <-. revert Hc. unfold FEATURES. clear. solve_cols.
    + intros c Hc Hne. rewrite lookup_insert_ne by done.
      by apply fill_row_other.
Qed.

Lemma scoring_succeeds w df :
  Forall (λ c, c ∈ columns df) FEATURES →
  rows df ≠ [] →
  Forall (λ r, Forall (λ c, number_or_missing (r !!! c)) FEATURES) (rows df) →
  ∃ scored, risk_score w df = Ok scored.
Proof.
  intros Hc Hne Hcells. unfold risk_score.
  rewrite (fill_features_present df Hc). cbn [bind].
  assert (∃ X, feature_matrix
            {| columns := columns df; rows := fill_row <$> rows df |} = Ok X)
    as [X HX].
  { unfold feature_matrix. simpl. apply try_map_Ok_iff.
    rewrite Forall_fmap. eapply Forall_impl; [exact Hcells|].
    intros r Hr. simpl. by apply filled_row_readable. }
  rewrite HX. cbn [bind].
  apply try_map_length in HX. simpl in HX. rewrite length_fmap in HX.
  destruct X as [|x X]; [destruct (rows df); done|].
  simpl. eauto.
Qed.

Lemma scoring_of_no_rows w df :
  Forall (λ c, c ∈ columns df) FEATURES → rows df = [] →
  risk_score w df = Raise (ValueError "Found array with 0 sample(s)").
Proof.
  intros Hc Hnil. unfold risk_score.
  rewrite (fill_features_present df Hc). cbn [bind].
  unfold feature_matrix. simpl. rewrite Hnil. done.
Qed.


End scoring_properties.

(** The table [two_rows] is scored: its missing lags are written back
    as 0 and its other cells are kept. *)
Lemma scored_table_frame_witness :
  risk_score empty_world two_rows
  = Ok (from_ok two_rows (risk_score empty_world two_rows)) ∧
  columns (from_ok two_rows (risk_score empty_world two_rows))
  = "spatial_dim" :: "year" :: FEATURES ++ ["risk_score"] ∧
  numbers (column "lag_cases_1" (from_ok two_rows (risk_score empty_world two_rows)))
  = [Some 0%Q; Some 10%Q].
Proof.
  split; [compute_done|].
  destruct (scored_table_frame empty_world two_rows
              (from_ok two_rows (risk_score empty_world two_rows)))
    as (Hcols & _ & _); [compute_done|].
  split; [rewrite Hcols|]; compute_done.
Defined.


(** ** The order of the scores, and the two scripts in a row *)

Lemma rescale_mono lo hi a b :
  (lo ≤ hi)%Qc →
  (a ≤ b)%Qc ↔
  (Qc_of_Z 100 * (a - lo) / (hi - lo + EPS)
   ≤ Qc_of_Z 100 * (b - lo) / (hi - lo + EPS))%Qc.
Proof.
  intros Hle.
  assert (0 < hi - lo + EPS)%Qc as HD by by apply spread_pos.
  unfold Qcdiv.
  rewrite <-(Qcmult_le_mono_pos_r _ _ (/ (hi - lo + EPS))) by by apply Qcinv_pos.
  rewrite <-(Qcmult_le_mono_pos_l _ _ (Qc_of_Z 100)) by done.
  unfold Qcminus. by rewrite <-Qcplus_le_mono_r.
Qed.

Section score_order.
Context `{IsolationForestLib}.

(** X10. The rescaling keeps the order of the batch: of two rows, the
    one that the forest scores lower (the more anomalous one) has the
    higher [risk_score], and rows that the forest scores alike have the
    same [risk_score]. *)
Theorem risk_order_is_anomaly_order w df scored :
  risk_score w df = Ok scored →
  ∃ X scores,
    feature_matrix {| columns := columns df; rows := fill_row <$> rows df |} = Ok X ∧
    scores = forest_score_samples 200 (Q2Qc (1 # 10)) 42 X ∧
    length scores = length (rows df) ∧
    ∀ i j si sj,
      scores !! i = Some si → scores !! j = Some sj →
      ∃ ri rj,
        column "risk_score" scored !! i = Some (VFloat ri) ∧
        column "risk_score" scored !! j = Some (VFloat rj) ∧
        ((si ≤ sj)%Qc ↔ (rj ≤ ri)%Qc) ∧
        (si = sj → ri = rj).
Proof.
  unfold risk_score. intros Hs. inv_ok. subst scored.
  rename x into d, x0 into X, x1 into scores.
  destruct (fill_features_rows _ _ Hstep) as [Hcols Hrows].
  assert (d = {| columns := columns df; rows := fill_row <$> rows df |}) as ->.
  { destruct d. simpl in *. by subst. }
  assert (scores = forest_score_samples 200 (Q2Qc (1 # 10)) 42 X
          ∧ length scores = length (rows df)) as [Hsc Hlen].
  { unfold fit_score_samples in Hstep1.
    assert (scores = forest_score_samples 200 (Q2Qc (1 # 10)) 42 X) as ->
      by (destruct X; [done|by injection Hstep1 as <-]).
    split; [done|].
    rewrite forest_score_samples_length.
    apply try_map_length in Hstep0. by rewrite Hstep0; simpl; rewrite length_fmap. }
  exists X, scores. split_and!; try done.
  intros i j si sj Hi Hj.
  set (raw := Qcopp <$> scores).
  assert (raw !! i = Some (- si)%Qc) as Hri by (unfold raw; by rewrite list_lookup_fmap, Hi).
  assert (raw !! j = Some (- sj)%Qc) as Hrj by (unfold raw; by rewrite list_lookup_fmap, Hj).
  assert (list_min raw ≤ list_max raw)%Qc as Hmm.
  { etrans; [apply (list_min_le raw (- si)%Qc)|apply list_max_ge];
      by eapply list_elem_of_lookup_2. }
  assert (∀ k q, raw !! k = Some q →
            column "risk_score"
              (setitem {| columns := columns df; rows := fill_row <$> rows df |}
                 "risk_score" (VFloat <$> normalize_scores raw)) !! k
            = Some (VFloat (Qc_of_Z 100 * (q - list_min raw)
                            / (list_max raw - list_min raw + EPS))%Qc)) as Hcol.
  { intros k q Hk. unfold column.
    assert (getitem (setitem {| columns := columns df; rows := fill_row <$> rows df |}
                       "risk_score" (VFloat <$> normalize_scores raw)) "risk_score"
            = Ok (VFloat <$> normalize_scores raw)) as Hget.
    { apply getitem_setitem. unfold normalize_scores, raw. simpl.
      rewrite !length_fmap. done. }
    apply getitem_Ok in Hget as [_ Hget]. rewrite <-Hget.
    rewrite list_lookup_fmap, (normalize_scores_lookup raw k q Hk). done. }
  eexists _, _. split; [by apply Hcol|]. split; [by apply Hcol|]. split.
  - rewrite <-rescale_mono by done. split.
    + intros Hle. by apply Qcopp_le_compat.
    + intros Hle. apply Qcopp_le_compat in Hle. by rewrite !Qcopp_involutive in Hle.
  - by intros ->.
Qed.

End score_order.

Section pipeline.
Context `{PyRuntime} `{IsolationForestLib}.

Lemma feature_columns_present df t :
  prepare_data df = Ok t → Forall (λ c, c ∈ columns t) FEATURES.
Proof.
  intros Ht.
  destruct (prepare_data_stages _ _ Ht)
    as (dengue & pop & dy0 & py0 & dy & py & key & df_yr & rated &
        _ & _ & _ & _ & Hr & Hl).
  unfold add_rate in Hr. inv_ok. subst rated.
  unfold add_lags, sort_values in Hl. inv_ok. subst t.
  unfold FEATURES. apply Forall_forall. intros c Hc.
  rewrite !setitem_columns. subst x3. cbn [columns].
  case_decide; rewrite ?elem_of_app; revert Hc;
    rewrite !elem_of_cons, elem_of_nil; intros [->|[->|[->|[->|[]]]]]; tauto.
Qed.

Lemma feature_cells_readable df t :
  prepare_data df = Ok t →
  Forall (λ r, Forall (λ c, number_or_missing (r !!! c)) FEATURES) (rows t).
Proof.
  intros Ht.
  destruct (prepare_data_stages _ _ Ht)
    as (dengue & pop & dy0 & py0 & dy & py & key & df_yr & rated &
        _ & _ & Hc & Hj & Hr & Hl).
  destruct (feature_table_spec _ _ _ _ _ _ _ _ Hc Hj Hr Hl) as (_ & Hok & _).
  apply Forall_forall. intros r Hin.
  assert (r ∈ country_rows (r !!! "spatial_dim") t) as Hin'
    by (by apply list_elem_of_filter).
  apply list_elem_of_lookup_1 in Hin' as [k Hk].
  destruct (country_row_features _ _ _ _ _ Ht Hk) as (_ & _ & Hl1 & Hl2 & Hma).
  apply (proj1 (Forall_forall _ _) Hok) in Hin as (_ & _ & Hrate).
  unfold FEATURES. rewrite !Forall_cons, Forall_nil.
  split_and!; [..|done]; unfold number_or_missing.
  - rewrite Hrate. unfold rate_of.
    repeat case_match; first [by left|right; by eexists].
  - rewrite Hl1. destruct k; [by left|right; by eexists].
  - rewrite Hl2. destruct k as [|[|k]]; [by left..|right; by eexists].
  - rewrite Hma. right. by eexists.
Qed.

(** X12. Every feature table that [prepare_data.py] writes with at
    least one row is accepted by [risk_score.py]; a table without rows,
    which [prepare_data.py] writes just as well, ends the scoring in the
    [ValueError] of the estimator. *)
Theorem feature_table_is_scored w df t :
  prepare_data df = Ok t →
  (rows t ≠ [] → ∃ scored, risk_score w t = Ok scored) ∧
  (rows t = [] →
     risk_score w t = Raise (ValueError "Found array with 0 sample(s)")).
Proof.
  intros Ht. split.
  - intros Hne. apply scoring_succeeds; [|done|].
    + by eapply feature_columns_present.
    + by eapply feature_cells_readable.
  - apply scoring_of_no_rows. by eapply feature_columns_present.
Qed.

End pipeline.

(** The rows of [two_rows]: the second has the larger features and,
    with the estimator of the examples, the lower score of the forest and
    the higher [risk_score]. *)
Lemma risk_order_witness :
  ∃ X scores,
    feature_matrix {| columns := columns two_rows;
                      rows := fill_row <$> rows two_rows |} = Ok X ∧
    scores = forest_score_samples 200 (Q2Qc (1 # 10)) 42 X ∧
    length scores = 2 ∧
    numbers (column "risk_score" (from_ok two_rows (risk_score empty_world two_rows)))
    !! 0 = Some (Some 0%Q).
Proof.
  destruct (risk_order_is_anomaly_order empty_world two_rows
              (from_ok two_rows (risk_score empty_world two_rows)))
    as (X & scores & HX & Hs & Hlen & _); [compute_done|].
  exists X, scores. split_and!; [done|done|exact Hlen|compute_done].
Defined.

(** The table of [three_years] is scored; the one of [no_usable_cases]
    is written without rows and refused by the estimator. *)
Lemma feature_table_is_scored_witness :
  (∃ scored, risk_score empty_world (features_of three_years) = Ok scored) ∧
  prepare_data no_usable_cases = Ok (features_of no_usable_cases) ∧
  rows (features_of no_usable_cases) = [] ∧
  risk_score empty_world (features_of no_usable_cases)
  = Raise (ValueError "Found array with 0 sample(s)").
Proof.
  split.
  { apply (proj1 (feature_table_is_scored empty_world three_years
                    (features_of three_years) ltac:(compute_done))).
    compute_done. }
  split; [compute_done|]. split; [compute_done|].
  apply (proj2 (feature_table_is_scored empty_world no_usable_cases
                  (features_of no_usable_cases) ltac:(compute_done))).
  compute_done.
Defined.

(** ** The dashboard: loading and recalculation *)

Lemma year_cell_int `{PyRuntime} v x : year_cell v = Ok x → ∃ y, x = VInt y.
Proof.
  destruct v as [| | | |s|]; simpl; try (intros [= <-]; by eexists); try done.
  destruct (float_of_str s); [|done]. intros [= <-]. by eexists.
Qed.

Section dashboard_table.
Context `{PyRuntime} `{JsonLib}.

(** X13. A file that the dashboard loads has the eight columns it
    needs; its rows are taken in file order under the labels 0, 1, 2,
    ..., with the year of each turned into a whole number (a fraction is
    cut off) and every other cell as it is in the file. *)
Theorem loaded_table w path frame :
  load_csv w path = Ok frame →
  ∃ df,
    files w !! path = Some df ∧
    Forall (λ c, c ∈ columns df) NEEDED ∧
    icolumns frame = columns df ∧
    length (irows frame) = length (rows df) ∧
    ∀ i r, rows df !! i = Some r →
      ∃ y, year_cell (r !!! "year") = Ok (VInt y) ∧
           irows frame !! i = Some (Z.of_nat i, <["year" := VInt y]> r).
Proof.
  unfold load_csv, read_csv. intros Hl.
  destruct (files w !! path) as [df|] eqn:Hf; [|done]. simpl in Hl.
  destruct (filter (λ c, c ∉ columns df) NEEDED) as [|c l] eqn:E; [|done].
  inv_ok. subst frame. rename x into s, x0 into ys.
  assert (Forall (λ c, c ∈ columns df) NEEDED) as Hneeded.
  { apply Forall_forall. intros c Hc.
    destruct (decide (c ∈ columns df)) as [|Hn]; [done|].
    assert (c ∈ filter (λ c, c ∉ columns df) NEEDED) as Hin
      by (by apply list_elem_of_filter).
    rewrite E in Hin. by apply elem_of_nil in Hin. }
  apply getitem_Ok in Hstep as [Hy ->].
  pose proof (try_map_length _ _ _ Hstep0) as Hlen. rewrite length_fmap in Hlen.
  exists df. split_and!; try done.
  - simpl. by rewrite decide_True.
  - simpl. rewrite length_imap, length_zip_with. lia.
  - intros i r Hr.
    destruct (try_map_lookup _ _ _ i (r !!! "year") Hstep0) as (x & Hx & Hcell).
    { by rewrite list_lookup_fmap, Hr. }
    destruct (year_cell_int _ _ Hcell) as [y ->].
    exists y. split; [done|]. simpl.
    rewrite list_lookup_imap, lookup_zip_with, Hr, Hx. done.
Qed.

(** X14. Whatever the request ends in, the handler keeps the rows of
    the table, their order and their labels, and every cell but the
    [risk_score]. *)
Theorem recalculation_touches_scores_only dfy o dfy' n :
  recalculate dfy o = (dfy', n) →
  length (irows dfy') = length (irows dfy) ∧
  ∀ i p, irows dfy !! i = Some p →
    ∃ r', irows dfy' !! i = Some (p.1, r') ∧
          ∀ c, c ≠ "risk_score" → r' !! c = p.2 !! c.
Proof.
  intros Hr.
  destruct (recalculate_cases dfy o)
    as [[msg E]|(body & members & x & _ & _ & _ & E)];
    rewrite E in Hr; injection Hr as <- <-.
  - split; [done|]. intros i [l r] Hp. by exists r.
  - split; [simpl; by rewrite length_fmap|].
    intros i [l r] Hp. eexists. split.
    + simpl. rewrite list_lookup_fmap, Hp. done.
    + intros c Hc. simpl. by rewrite lookup_insert_ne.
Qed.

(** X15. Where the rows of the selected year are the first rows of the
    file, their labels are those of the reply, and a reply whose
    [risk_score] is a list goes to them by position: the row at place
    [i] takes the entry at place [i], a row beyond the end of the list
    loses its score, and entries beyond the last row are dropped. *)
Theorem recalculation_of_leading_rows w path df y sel rest body members items :
  load_csv w path = Ok df →
  irows df = sel ++ rest →
  Forall (λ p, p.2 !!! "year" = VInt y) sel →
  Forall (λ p, p.2 !!! "year" ≠ VInt y) rest →
  decode_body body = Some (JObj members) →
  assoc "risk_score" members = Some (JArr items) →
  ∃ dfy',
    recalculate (rows_of_year df y) (Body body) = (dfy', Success) ∧
    length (irows dfy') = length sel ∧
    ∀ i p, sel !! i = Some p →
      irows dfy' !! i
      = Some (p.1, <["risk_score" :=
                       from_option cell_of_json VNaN (items !! i)]> p.2).
Proof.
  intros Hl Hrows Hsel Hrest Hd Hx.
  assert (∃ rs, irows df = imap (λ i r, (Z.of_nat i, r)) rs) as [rs Hdf].
  { unfold load_csv in Hl. destruct (read_csv w path) as [d|]; [|done].
    simpl in Hl. destruct (filter _ NEEDED); [|done]. inv_ok. subst df.
    eexists. done. }
  assert (filter (λ p : Z * Row, p.2 !!! "year" = VInt y) (irows df) = sel)
    as Hfilter.
  { rewrite Hrows, filter_app.
    assert (filter (λ p : Z * Row, p.2 !!! "year" = VInt y) sel = sel) as ->.
    { clear -Hsel. induction Hsel as [|p l Hp _ IH]; [done|].
      rewrite filter_cons. rewrite decide_True by done. by rewrite IH. }
    assert (filter (λ p : Z * Row, p.2 !!! "year" = VInt y) rest = []) as ->.
    { clear -Hrest. induction Hrest as [|p l Hp _ IH]; [done|].
      rewrite filter_cons. by rewrite decide_False. }
    by rewrite app_nil_r. }
  assert (sel = imap (λ i r, (Z.of_nat i, r)) (take (length sel) rs)) as Hpre.
  { assert (sel = take (length sel) (irows df)) as E
      by (by rewrite Hrows, take_app_length).
    rewrite E at 1. rewrite Hdf. apply list_eq. intros i.
    rewrite list_lookup_imap.
    destruct (decide (i < length sel)) as [Hi|Hi].
    - rewrite !lookup_take_lt by done. by rewrite list_lookup_imap.
    - by rewrite !lookup_take_ge by lia. }
  assert (rows_of_year df y
          = {| icolumns := icolumns df;
               irows := imap (λ i r, (Z.of_nat i, r)) (take (length sel) rs) |})
    as ->.
  { unfold rows_of_year. f_equal. by rewrite Hfilter. }
  eexists. split_and!.
  - simpl. rewrite Hd. simpl. rewrite Hx.
    rewrite bool_decide_eq_true_2 by eauto. done.
  - simpl. rewrite length_fmap, <-Hpre. done.
  - intros i p Hp. rewrite assign_aligned_range.
    rewrite Hpre in Hp. rewrite list_lookup_imap in Hp.
    rewrite list_lookup_imap.
    destruct (take (length sel) rs !! i) as [r|]; [|done]. simpl in *.
    by injection Hp as <-.
Qed.

End dashboard_table.

(** The file of [one_year_world]: the year 2020.7 of its first row is
    loaded as 2020. *)
Lemma loaded_table_witness :
  (λ p, (p.1, p.2 !!! "year"))
    <$> irows (from_ok {| icolumns := []; irows := [] |}
                 (load_csv one_year_world RISK_FILE))
  = [(0%Z, VInt 2020); (1%Z, VInt 2020)] ∧
  ∃ df, files one_year_world !! RISK_FILE = Some df ∧
        Forall (λ c, c ∈ columns df) NEEDED.
Proof.
  split; [compute_done|].
  destruct (loaded_table one_year_world RISK_FILE
              (from_ok {| icolumns := []; irows := [] |}
                 (load_csv one_year_world RISK_FILE)))
    as (df & Hf & Hn & _); [compute_done|].
  by exists df.
Defined.

(** The recalculation of the scenario with two years: one row before,
    one row after, under the same label. *)
Lemma recalculation_frame_witness :
  length (irows (recalculate
                   (rows_of_year
                      (from_ok {| icolumns := []; irows := [] |}
                         (load_csv dashboard_world RISK_FILE)) 2020)
                   one_score_reply).1) = 1.
Proof.
  destruct (recalculation_touches_scores_only
              (rows_of_year
                 (from_ok {| icolumns := []; irows := [] |}
                    (load_csv dashboard_world RISK_FILE)) 2020)
              one_score_reply
              (recalculate
                 (rows_of_year
                    (from_ok {| icolumns := []; irows := [] |}
                       (load_csv dashboard_world RISK_FILE)) 2020)
                 one_score_reply).1
              (recalculate
                 (rows_of_year
                    (from_ok {| icolumns := []; irows := [] |}
                       (load_csv dashboard_world RISK_FILE)) 2020)
                 one_score_reply).2) as [Hlen _]; [compute_done|].
  rewrite Hlen. compute_done.
Defined.

(** The two rows of 2020 are the first of the file and the reply has one
    score: the first row takes it, the second is left without one. *)
Lemma recalculation_of_leading_rows_witness :
  ∃ dfy',
    recalculate (rows_of_year loaded_leading 2020) one_score_reply
    = (dfy', Success) ∧
    length (irows dfy') = 2 ∧
    ∀ i p, take 2 (irows loaded_leading) !! i = Some p →
      irows dfy' !! i
      = Some (p.1, <["risk_score" :=
                       from_option cell_of_json VNaN
                         ([JNum (Qc_of_Z 77)] !! i)]> p.2).
Proof.
  apply (recalculation_of_leading_rows leading_world RISK_FILE loaded_leading
           2020 (take 2 (irows loaded_leading)) (drop 2 (irows loaded_leading))
           (JObj [("risk_score", JArr [JNum (Qc_of_Z 77)])])
           [("risk_score", JArr [JNum (Qc_of_Z 77)])]
           [JNum (Qc_of_Z 77)]); compute_done.
Defined.

(** ** From the raw table to the dashboard *)

Lemma Forall_zip_with_cell (Q : value → Prop) c (rs : list Row) (s : list value) :
  Forall Q s →
  Forall (λ r : Row, Q (r !!! c)) (zip_with (λ r v, <[c := v]> r) rs s).
Proof.
  intros Hs. revert rs. induction Hs as [|v s Hv _ IH]; intros [|r rs]; simpl;
    try constructor.
  - by rewrite lookup_total_insert_eq.
  - apply IH.
Qed.

Lemma risk_score_rows `{IsolationForestLib} w df scored :
  risk_score w df = Ok scored →
  ∃ vs, length vs = length (rows df) ∧
        columns scored = add_column (columns df) "risk_score" ∧
        rows scored
        = zip_with (λ r v, <["risk_score" := v]> r) (fill_row <$> rows df) vs.
Proof.
  unfold risk_score. intros Hs. inv_ok. subst scored.
  rename x into d, x0 into X, x1 into scores.
  destruct (fill_features_rows _ _ Hstep) as [Hcols Hrows].
  exists (VFloat <$> normalize_scores (Qcopp <$> scores)). split_and!.
  - unfold normalize_scores. rewrite !length_fmap.
    unfold fit_score_samples in Hstep1. destruct X; [done|].
    injection Hstep1 as <-. rewrite forest_score_samples_length.
    apply try_map_length in Hstep0. by rewrite Hstep0, Hrows, length_fmap.
  - unfold setitem, add_column. simpl. by rewrite Hcols.
  - simpl. by rewrite Hrows.
Qed.

Section to_the_dashboard.
Context `{PyRuntime} `{IsolationForestLib} `{JsonLib}.

Lemma feature_table_has_columns df t c :
  prepare_data df = Ok t →
  c ∈ ["spatial_dim"; "spatial_dim_en"; "year"] → c ∈ columns t.
Proof.
  intros Ht Hc.
  destruct (prepare_data_stages _ _ Ht)
    as (dengue & pop & dy0 & py0 & dy & py & key & df_yr & rated &
        _ & _ & Hco & Hj & Hr & Hl).
  destruct (consolidate_spec _ _ _ _ _ Hco) as (Hkey & _).
  destruct (join_spec _ _ _ _ _ _ Hco Hj) as (_ & _ & Hcols).
  assert (c ∈ columns df_yr) as Hin.
  { apply Hcols. destruct Hkey as [-> | ->]; unfold YEAR_KEY, TIME_DIM_KEY;
      revert Hc; clear; solve_cols. }
  unfold add_rate in Hr. inv_ok. subst rated.
  unfold add_lags, sort_values in Hl. inv_ok. subst.
  rewrite !setitem_columns. cbn [columns].
  case_decide; rewrite ?elem_of_app; tauto.
Qed.

Lemma feature_years_int df t :
  "year" ∉ columns df →
  prepare_data df = Ok t →
  Forall (λ r, ∃ y, r !!! "year" = VInt y) (rows t).
Proof.
  intros Hyear Ht.
  destruct (prepare_data_stages _ _ Ht)
    as (dengue & pop & dy0 & py0 & dy & py & key & df_yr & rated &
        Hcl & Hch & Hco & Hj & Hr & Hl).
  destruct (consolidate_key _ _ _ _ _ _ _ _ Hcl Hch Hco) as [_ Hkeq].
  destruct (feature_table_spec _ _ _ _ _ _ _ _ Hco Hj Hr Hl) as (HK & _).
  destruct (consolidate_spec _ _ _ _ _ Hco)
    as (Hkey & Hcd & Hcp & _ & Hnp & _).
  destruct (key_NoDup _ Hkey) as (_ & _ & Hpk & _).
  assert (key = TIME_DIM_KEY) as Hk.
  { rewrite Hkeq. unfold merge_key. by rewrite decide_False. }
  assert (Forall (λ r, ∃ y, r !!! "year" = VInt y) (rows df_yr)) as Hdf.
  { unfold join in Hj. inv_ok. rename x into M.
    destruct (merge_left_spec _ _ _ _ _ Hpk Hcp Hnp Hstep) as [HcM _].
    rewrite decide_False in Hj.
    2:{ rewrite HcM, Hcd, Hk. unfold TIME_DIM_KEY. clear. solve_cols. }
    inv_ok. subst df_yr. rename x into ys.
    apply (Forall_zip_with_cell (λ v, ∃ y, v = VInt y)).
    unfold year_of_time_dim in Hstep0. inv_ok.
    apply try_map_Forall2 in Hstep0.
    clear -Hstep0. induction Hstep0 as [|v y l l' Hv _ IH]; constructor; [|done].
    unfold str_to_int in Hv. destruct v; try done.
    destruct (int_of_str _); [|done]. injection Hv as <-. by eexists. }
  apply (Forall_key_transfer ["year"]
           (λ k, ∃ y, default VNaN (head k) = VInt y) _ (rows df_yr)).
  - apply HK. intros c Hc. revert Hc. clear. solve_cols.
  - done.
Qed.

(** X16. A raw table without a column [year] of its own goes all the
    way: the feature table that [prepare_data.py] makes of it, once
    scored by [risk_score.py], is a file that the dashboard loads, with
    one row for each row of the feature table. *)
Theorem scored_table_is_loaded w w' df t scored :
  "year" ∉ columns df →
  prepare_data df = Ok t →
  risk_score w t = Ok scored →
  files w' !! RISK_FILE = Some scored →
  ∃ frame,
    load_csv w' RISK_FILE = Ok frame ∧
    length (irows frame) = length (rows t).
Proof.
  intros Hyear Ht Hs Hf.
  destruct (risk_score_rows _ _ _ Hs) as (vs & Hlen & Hcols & Hrows).
  assert (∀ c, c ∈ NEEDED → c ∈ columns scored) as Hneeded.
  { intros c Hc. rewrite Hcols. apply add_column_elem.
    unfold NEEDED in Hc.
    destruct (decide (c = "risk_score")) as [->|Hne]; [by right|left].
    destruct (decide (c ∈ FEATURES)) as [Hfe|Hfe].
    - by apply (proj1 (Forall_forall _ _) (feature_columns_present _ _ Ht)).
    - apply (feature_table_has_columns df); [done|].
      revert Hc Hne Hfe. unfold FEATURES. clear. solve_cols. }
  assert (Forall (λ r : Row, ∃ y, r !!! "year" = VInt y) (rows scored)) as Hyears.
  { rewrite Hrows. apply Forall_zip_with_insert.
    - intros r v [y Hy]. exists y. by rewrite lookup_total_insert_ne.
    - apply Forall_fmap. eapply Forall_impl; [by apply (feature_years_int df)|].
      intros r [y Hy]. exists y. simpl.
      rewrite <-Hy. unfold lookup_total, map_lookup_total.
      by rewrite fill_row_other by (unfold FEATURES; clear; solve_cols). }
  assert (∃ ys, try_map year_cell ((λ r : Row, r !!! "year") <$> rows scored)
                = Ok ys) as [ys Hys].
  { apply try_map_Ok_iff. apply Forall_fmap.
    eapply Forall_impl; [exact Hyears|]. intros r [y Hy]. simpl.
    rewrite Hy. by eexists. }
  unfold load_csv, read_csv. rewrite Hf. simpl.
  assert (filter (λ c, c ∉ columns scored) NEEDED = []) as ->.
  { destruct (filter _ NEEDED) as [|c l] eqn:E; [done|].
    assert (c ∈ filter (λ c, c ∉ columns scored) NEEDED) as Hin
      by (rewrite E; left).
    apply list_elem_of_filter in Hin as [Hn Hin]. by destruct Hn; apply Hneeded. }
  rewrite getitem_present by (apply Hneeded; unfold NEEDED; clear; solve_cols).
  simpl. rewrite Hys. simpl. eexists. split; [done|]. simpl.
  rewrite length_imap, length_zip_with.
  apply try_map_length in Hys. rewrite length_fmap in Hys.
  rewrite Hys, Hrows, length_zip_with, length_fmap. lia.
Qed.

End to_the_dashboard.

(** The three years of [three_years], prepared, scored and loaded. *)
Lemma scored_table_is_loaded_witness :
  ∃ frame,
    load_csv
      (to_csv empty_world RISK_FILE
         (from_ok three_years
            (risk_score empty_world (features_of three_years))))
      RISK_FILE = Ok frame ∧
    length (irows frame) = 3.
Proof.
  destruct (scored_table_is_loaded empty_world
              (to_csv empty_world RISK_FILE
                 (from_ok three_years
                    (risk_score empty_world (features_of three_years))))
              three_years (features_of three_years)
              (from_ok three_years
                 (risk_score empty_world (features_of three_years))))
    as (frame & Hl & Hlen); [compute_done..|].
  exists frame. split; [exact Hl|]. rewrite Hlen. compute_done.
Defined.

(** ** The panels of the dashboard *)

#[global] Instance score_desc_total : Total score_desc.
Proof. unfold score_desc. apply _. Qed.
#[global] Instance score_desc_trans : Transitive score_desc.
Proof. unfold score_desc. apply _. Qed.

Lemma StronglySorted_impl_Forall {A} (R R' : relation A) (Q : A → Prop) l :
  (∀ x y, Q x → Q y → R x y → R' x y) →
  Forall Q l → StronglySorted R l → StronglySorted R' l.
Proof.
  intros HR HQ. induction 1 as [|x l _ IH Hx]; [constructor|].
  apply Forall_cons in HQ as [Hq HQ]. constructor; [by apply IH|].
  apply Forall_forall. intros y Hy. apply HR; [done| |].
  - by apply (proj1 (Forall_forall _ _) HQ).
  - by apply (proj1 (Forall_forall _ _) Hx).
Qed.

Lemma filter_by_mask {A} (P : A → Prop) `{!∀ x, Decision (P x)}
    (l : list A) (mask : list bool) :
  Forall2 (λ x b, b = true ↔ P x) l mask →
  fst <$> filter (λ p, p.2 = true) (zip l mask) = filter P l.
Proof.
  induction 1 as [|x b l mask Hb _ IH]; [done|].
  simpl. rewrite !filter_cons. simpl.
  destruct (decide (P x)) as [HP|HP].
  - rewrite decide_True by (by apply Hb). csimpl. by rewrite IH.
  - rewrite decide_False by (by rewrite Hb). done.
Qed.

Lemma cell_ge_alerting v t b :
  cell_ge v t = Ok b → b = true ↔ ∃ q, num_of v = Some q ∧ (t ≤ q)%Qc.
Proof.
  destruct v as [|c|z|q| |]; simpl; try done; intros [= <-].
  - split; [done|]. by intros (q & ? & ?).
  - rewrite bool_decide_eq_true. unfold num_key. simpl. split.
    + intros Hle. by eexists.
    + by intros (q & [= <-] & ?).
  - rewrite bool_decide_eq_true. unfold num_key. simpl. split.
    + intros Hle. by eexists.
    + by intros (q & [= <-] & ?).
  - rewrite bool_decide_eq_true. unfold num_key. simpl. split.
    + intros Hle. by eexists.
    + by intros (q' & [= <-] & ?).
Qed.

Lemma restrict_lookup cols (r : Row) c :
  c ∈ cols → restrict cols r !!! c = r !!! c.
Proof.
  intros Hc. unfold restrict, lookup_total, map_lookup_total. f_equal.
  destruct (r !! c) as [v|] eqn:E.
  - by apply map_lookup_filter_Some.
  - apply map_lookup_filter_None. left. done.
Qed.

Lemma alert_rows dfy T a :
  alert_df dfy T = Ok a →
  irows a = stable_sort score_desc
              ((λ p, (p.1, restrict ALERT_COLUMNS p.2))
                 <$> filter (alerting (Qc_of_Z T - TOLERANCE)) (irows dfy)).
Proof.
  unfold alert_df. intros Ha. inv_ok. rename x into s, x0 into mask.
  destruct (filter _ ALERT_COLUMNS); [|done]. injection Ha as <-. simpl.
  unfold igetitem in Hstep. case_decide; [|done]. injection Hstep as <-.
  rewrite (filter_by_mask (alerting (Qc_of_Z T - TOLERANCE))); [done|].
  apply try_map_Forall2 in Hstep0.
  apply Forall2_fmap_l in Hstep0.
  eapply Forall2_impl; [exact Hstep0|].
  intros p b Hb. simpl in Hb. by apply cell_ge_alerting in Hb.
Qed.

(** X17. The alert panel shows the rows of the selected year whose
    score is a number at or above the threshold less [1e-5], each once,
    from the highest score to the lowest; a row without a score is never
    shown. The first row of the panel, the one the recommendation names,
    has the highest score of the year. *)
Theorem alert_panel dfy T a :
  alert_df dfy T = Ok a →
  irows a ≡ₚ (λ p, (p.1, restrict ALERT_COLUMNS p.2))
               <$> filter (alerting (Qc_of_Z T - TOLERANCE)) (irows dfy) ∧
  StronglySorted
    (λ p q, ∃ x y, num_of (p.2 !!! "risk_score") = Some x ∧
                   num_of (q.2 !!! "risk_score") = Some y ∧ (y ≤ x)%Qc)
    (irows a) ∧
  ∀ r, top_alert a = Some r →
    ∃ top, num_of (r !!! "risk_score") = Some top ∧
           (Qc_of_Z T - TOLERANCE ≤ top)%Qc ∧
           ∀ p q, p ∈ irows dfy → num_of (p.2 !!! "risk_score") = Some q →
                  (q ≤ top)%Qc.
Proof.
  intros Ha. pose proof (alert_rows _ _ _ Ha) as Hrows.
  set (t := (Qc_of_Z T - TOLERANCE)%Qc) in *.
  assert (irows a ≡ₚ (λ p, (p.1, restrict ALERT_COLUMNS p.2))
                       <$> filter (alerting t) (irows dfy)) as Hperm.
  { rewrite Hrows. apply stable_sort_perm. }
  assert (Forall (alerting t) (irows a)) as Hall.
  { rewrite Hperm. apply Forall_fmap, Forall_forall.
    intros p [(q & Hq & Hle) _]%list_elem_of_filter. exists q. simpl.
    by rewrite restrict_lookup by (unfold ALERT_COLUMNS; solve_cols). }
  assert (StronglySorted
            (λ p q, ∃ x y, num_of (p.2 !!! "risk_score") = Some x ∧
                           num_of (q.2 !!! "risk_score") = Some y ∧ (y ≤ x)%Qc)
            (irows a)) as Hsorted.
  { apply (StronglySorted_impl_Forall score_desc _ (alerting t)); [|done|].
    - intros p q (x & Hx & _) (y & Hy & _) [_ Hle]. exists x, y.
      split; [done|]. split; [done|].
      unfold on, no_number, num_key in Hle. rewrite Hx, Hy in Hle.
      simpl in Hle. specialize (Hle (le_n 0)).
      apply Qcopp_le_compat in Hle. by rewrite !Qcopp_involutive in Hle.
    - rewrite Hrows. apply stable_sort_sorted; apply _. }
  split_and!; [done|done|].
  intros r Hr. unfold top_alert in Hr.
  destruct (irows a) as [|[l r'] rest] eqn:E; [done|].
  simpl in Hr. injection Hr as ->.
  apply Forall_cons in Hall as [(top & Htop & Hle) Hall]. simpl in Htop.
  apply StronglySorted_inv in Hsorted as [_ Hhead].
  exists top. split; [done|]. split; [done|].
  intros p q Hp Hq.
  destruct (decide (t ≤ q)%Qc) as [Hhot|Hcold].
  - assert ((p.1, restrict ALERT_COLUMNS p.2) ∈ (l, r) :: rest) as Hin.
    { rewrite Hperm. apply list_elem_of_fmap. exists p. split; [done|].
      apply list_elem_of_filter. split; [by exists q|done]. }
    apply elem_of_cons in Hin as [Heq|Hin].
    + injection Heq as _ <-.
      rewrite restrict_lookup in Htop by (unfold ALERT_COLUMNS; solve_cols).
      rewrite Hq in Htop. by injection Htop as ->.
    + apply (proj1 (Forall_forall _ _) Hhead) in Hin
        as (x & y & Hx & Hy & Hyx).
      simpl in Hx, Hy.
      rewrite restrict_lookup in Hy by (unfold ALERT_COLUMNS; solve_cols).
      rewrite Hx in Htop. injection Htop as ->.
      rewrite Hy in Hq. by injection Hq as ->.
  - apply Qclt_le_weak. apply Qclt_le_trans with t; [|done].
    by apply Qclt_nge.
Qed.

Lemma foldr_min_spec (y : Z) (ys : list Z) :
  foldr Z.min y ys ∈ y :: ys ∧ Forall (λ z, foldr Z.min y ys ≤ z)%Z (y :: ys).
Proof.
  induction ys as [|x ys [IH1 IH2]]; simpl.
  - split; [left|]. by repeat constructor.
  - apply Forall_cons in IH2 as [Hy Hys]. split.
    + destruct (Z.min_spec x (foldr Z.min y ys)) as [[_ ->]|[_ ->]].
      * right; left.
      * apply elem_of_cons in IH1 as [->|?]; [left|right; by right].
    + repeat apply Forall_cons_2; [lia|lia|].
      eapply Forall_impl; [exact Hys|]. simpl. lia.
Qed.

Lemma foldr_max_spec (y : Z) (ys : list Z) :
  foldr Z.max y ys ∈ y :: ys ∧ Forall (λ z, z ≤ foldr Z.max y ys)%Z (y :: ys).
Proof.
  induction ys as [|x ys [IH1 IH2]]; simpl.
  - split; [left|]. by repeat constructor.
  - apply Forall_cons in IH2 as [Hy Hys]. split.
    + destruct (Z.max_spec x (foldr Z.max y ys)) as [[_ ->]|[_ ->]].
      * apply elem_of_cons in IH1 as [->|?]; [left|right; by right].
      * right; left.
    + repeat apply Forall_cons_2; [lia|lia|].
      eapply Forall_impl; [exact Hys|]. simpl. lia.
Qed.

Lemma years_spec (df : IndexedFrame) (z : Z) :
  z ∈ years df ↔ ∃ p, p ∈ irows df ∧ p.2 !!! "year" = VInt z.
Proof.
  unfold years. rewrite stable_sort_perm, elem_of_remove_dups.
  rewrite list_elem_of_omap. split.
  - intros (p & Hp & Hy). exists p. split; [done|].
    destruct (p.2 !!! "year"); try done. by injection Hy as ->.
  - intros (p & Hp & Hy). exists p. split; [done|]. by rewrite Hy.
Qed.

Section year_slider.
Context `{PyRuntime}.

Lemma loaded_years_int w path df :
  load_csv w path = Ok df →
  Forall (λ p, ∃ y, p.2 !!! "year" = VInt y) (irows df).
Proof.
  unfold load_csv. intros Hl.
  destruct (read_csv w path) as [d|]; [|done]. simpl in Hl.
  destruct (filter _ NEEDED); [|done]. inv_ok. subst df. simpl.
  rename x0 into ys.
  assert (Forall (λ v, ∃ y, v = VInt y) ys) as Hys.
  { apply try_map_Forall2 in Hstep0. clear -Hstep0.
    induction Hstep0 as [|v y l l' Hv _ IH]; constructor; [|done].
    by eapply year_cell_int. }
  pose proof (Forall_zip_with_cell (λ v, ∃ y, v = VInt y) "year" (rows d) ys Hys)
    as Hrows.
  apply Forall_forall. intros p Hp.
  apply list_elem_of_lookup_1 in Hp as [i Hi].
  rewrite list_lookup_imap in Hi.
  destruct (zip_with _ (rows d) ys !! i) as [r|] eqn:E; [|done].
  injection Hi as <-. simpl.
  by apply (Forall_lookup_1 _ _ _ _ Hrows E).
Qed.

(** X18. The bounds that the year slider is given are the first and
    the last year of the loaded table, and its starting value is the
    last: both are years of the table, so that neither selects an empty
    set of rows, and every row of the table lies between them. A table
    without rows stops the page with the [ValueError] of [min]. *)
Theorem year_slider w path df :
  load_csv w path = Ok df →
  (irows df = [] →
     year_range df = Raise (ValueError "min() arg is an empty sequence")) ∧
  (irows df ≠ [] →
     ∃ lo hi,
       year_range df = Ok (lo, hi) ∧ (lo ≤ hi)%Z ∧
       irows (rows_of_year df lo) ≠ [] ∧
       irows (rows_of_year df hi) ≠ [] ∧
       Forall (λ p, ∃ y, p.2 !!! "year" = VInt y ∧ (lo ≤ y ≤ hi)%Z) (irows df)).
Proof.
  intros Hl. pose proof (loaded_years_int _ _ _ Hl) as Hint. split.
  - intros Hnil. unfold year_range, years. by rewrite Hnil.
  - intros Hne. unfold year_range.
    destruct (years df) as [|y ys] eqn:E.
    { destruct (irows df) as [|p l] eqn:Ep; [done|].
      apply Forall_cons in Hint as [[z Hz] _].
      assert (z ∈ years df) as Hin.
      { apply years_spec. exists p. rewrite Ep. split; [left|done]. }
      rewrite E in Hin. by apply elem_of_nil in Hin. }
    destruct (foldr_min_spec y ys) as [Hlo1 Hlo2].
    destruct (foldr_max_spec y ys) as [Hhi1 Hhi2].
    set (lo := foldr Z.min y ys) in *. set (hi := foldr Z.max y ys) in *.
    assert (∀ z, z ∈ y :: ys → irows (rows_of_year df z) ≠ []) as Hsel.
    { intros z Hz. rewrite <-E in Hz. apply years_spec in Hz as (p & Hp & Hy).
      intros Hnil.
      assert (p ∈ irows (rows_of_year df z)) as Hin
        by (by apply list_elem_of_filter).
      rewrite Hnil in Hin. by apply elem_of_nil in Hin. }
    exists lo, hi. split_and!; [done| |by apply Hsel|by apply Hsel|].
    + by apply (proj1 (Forall_forall _ _) Hlo2).
    + apply Forall_forall. intros p Hp.
      destruct (proj1 (Forall_forall _ _) Hint p Hp) as [z Hz].
      exists z. split; [done|].
      assert (z ∈ y :: ys) as Hin.
      { rewrite <-E. apply years_spec. by exists p. }
      split.
      * by apply (proj1 (Forall_forall _ _) Hlo2).
      * by apply (proj1 (Forall_forall _ _) Hhi2).
Qed.

End year_slider.

Lemma bins_checked :
  Forall (λ n : nat,
    StronglySorted Qcle (bins (Z.of_nat n)) ∧
    Forall (λ b, 0 ≤ b ≤ Qc_of_Z 100)%Qc (bins (Z.of_nat n)) ∧
    (NoDup (bins (Z.of_nat n)) ↔ 0 < n < 70))
    (seq 0 101).
Proof. compute_done. Qed.

(** X19. For every threshold of the slider, from 0 to 100, the eight
    bins of the map begin with 0, end with 100 and never descend; they
    are eight different numbers exactly for the thresholds from 1 to 69,
    and repeat a number at the threshold 0 and from 70 on. *)
Theorem bins_of_threshold (T : Z) :
  (0 ≤ T ≤ 100)%Z →
  head (bins T) = Some 0%Qc ∧
  last (bins T) = Some (Qc_of_Z 100) ∧
  StronglySorted Qcle (bins T) ∧
  Forall (λ b, 0 ≤ b ≤ Qc_of_Z 100)%Qc (bins T) ∧
  (NoDup (bins T) ↔ (0 < T < 70)%Z).
Proof.
  intros HT. split; [done|]. split; [done|].
  assert (Z.to_nat T ∈ seq 0 101) as Hin by (apply elem_of_seq; lia).
  pose proof (proj1 (Forall_forall _ _) bins_checked _ Hin) as (Hs & Hr & Hn).
  rewrite Z2Nat.id in Hs, Hr, Hn by lia.
  split_and!; [done|done|]. rewrite Hn. lia.
Qed.


(** ** Tooltips and markers *)

Lemma dict_get_set {K V} `{EqDecision K} (k : K) (v : V) (d : list (K * V)) :
  dict_get k (dict_set k v d) = Some v.
Proof.
  induction d as [|[k' v'] d IH]; simpl.
  - by rewrite decide_True.
  - destruct (decide (k = k')) as [->|Hne]; simpl.
    + by rewrite decide_True.
    + by rewrite decide_False.
Qed.

Lemma dict_get_set_ne {K V} `{EqDecision K} (k k0 : K) (v : V) (d : list (K * V)) :
  k ≠ k0 → dict_get k (dict_set k0 v d) = dict_get k d.
Proof.
  intros Hne. induction d as [|[k' v'] d IH]; simpl.
  - by rewrite decide_False.
  - destruct (decide (k0 = k')) as [->|Hne']; simpl.
    + by rewrite !decide_False.
    + destruct (decide (k = k')); [done|]. done.
Qed.

Section tooltips_and_markers.
Context `{PyRuntime} `{FormatLib}.

Lemma fill_info_spec rs d info iso :
  fill_info rs d = Ok info →
  dict_get iso info =
    match last (filter (λ p : Z * Row, p.2 !!! "spatial_dim" = iso) rs) with
    | Some p => Some (from_ok "" (tooltip p.2))
    | None => dict_get iso d
    end.
Proof.
  revert d. induction rs as [|p rs IH]; intros d Hi; simpl in Hi.
  - by injection Hi as <-.
  - inv_ok. rename x into html. rewrite (IH _ Hi). rewrite filter_cons.
    destruct (decide (p.2 !!! "spatial_dim" = iso)) as [Heq|Hne].
    + destruct (filter _ rs) as [|q l] eqn:E.
      * simpl. rewrite <-Heq, dict_get_set. by rewrite Hstep.
      * change (last (p :: q :: l)) with (last (q :: l)).
        destruct (last (q :: l)) eqn:El; [done|by apply last_None in El].
    + rewrite dict_get_set_ne by done. done.
Qed.

(** X20. The tooltips have an entry for each country of the selected
    year and for no other; where a country has several rows in that
    year, its tooltip is the text of the last of them. *)
Theorem tooltip_of_last_row dfy info :
  info_by_iso dfy = Ok info →
  (∀ iso, dict_get iso info = None ↔
          Forall (λ p, p.2 !!! "spatial_dim" ≠ iso) (irows dfy)) ∧
  (∀ before p after html,
     irows dfy = before ++ p :: after →
     Forall (λ q, q.2 !!! "spatial_dim" ≠ p.2 !!! "spatial_dim") after →
     tooltip p.2 = Ok html →
     dict_get (p.2 !!! "spatial_dim") info = Some html).
Proof.
  unfold info_by_iso. intros Hi. split.
  - intros iso. rewrite (fill_info_spec _ _ _ iso Hi). simpl.
    destruct (last (filter _ (irows dfy))) as [p|] eqn:E.
    + split; [done|]. intros Hall.
      apply last_Some_elem_of in E. apply list_elem_of_filter in E as [Hp Hin].
      by apply (proj1 (Forall_forall _ _) Hall) in Hin.
    + split; [|done]. intros _. apply last_None in E.
      apply Forall_forall. intros p Hp Heq.
      assert (p ∈ filter (λ p : Z * Row, p.2 !!! "spatial_dim" = iso) (irows dfy))
        as Hin by (by apply list_elem_of_filter).
      rewrite E in Hin. by apply elem_of_nil in Hin.
  - intros before p after html Hrows Hafter Hhtml.
    rewrite (fill_info_spec _ _ _ _ Hi), Hrows.
    rewrite filter_app, filter_cons, decide_True by done.
    assert (filter (λ q : Z * Row, q.2 !!! "spatial_dim" = p.2 !!! "spatial_dim")
              after = []) as ->.
    { clear -Hafter. induction Hafter as [|q l Hq _ IH]; [done|].
      rewrite filter_cons. by rewrite decide_False. }
    rewrite last_app. simpl. by rewrite Hhtml.
Qed.

Lemma set_markers_spec cdict info T rs ms :
  set_markers cdict info T rs = Ok ms →
  Forall (λ m, ∃ p, p ∈ rs ∧ alerting (Qc_of_Z T) p ∧
                    dict_get (p.2 !!! "spatial_dim") cdict = Some (location m) ∧
                    popup m = default "" (dict_get (p.2 !!! "spatial_dim") info))
    ms.
Proof.
  revert ms. induction rs as [|p rs IH]; intros ms Hm; simpl in Hm.
  - injection Hm as <-. constructor.
  - inv_ok. subst ms. rename x into hot, x0 into rest.
    apply Forall_app. split.
    + destruct hot; [|constructor].
      destruct (dict_get _ cdict) as [at_|] eqn:E; [|constructor].
      repeat constructor. exists p. split; [left|]. split; [|done].
      by apply (cell_ge_alerting _ _ _ Hstep).
    + eapply Forall_impl; [by apply IH|].
      intros m (q & Hq & ?). exists q. split; [by right|done].
Qed.

(** X21. Every marker of the map stands on the centroid of a country
    that has a row of the selected year with a score at or above the
    threshold, and that row is in the alert panel; the popup of the
    marker is the tooltip of its country. Without a table of centroids
    the map has no markers. *)
Theorem markers_are_alerts centroids info dfy T ms a :
  markers centroids info dfy T = Ok ms →
  alert_df dfy T = Ok a →
  (centroids = None → ms = []) ∧
  Forall (λ m, ∃ p c,
            p ∈ irows dfy ∧
            (∃ q, num_of (p.2 !!! "risk_score") = Some q ∧ (Qc_of_Z T ≤ q)%Qc) ∧
            (p.1, restrict ALERT_COLUMNS p.2) ∈ irows a ∧
            centroids = Some c ∧
            (∃ r, r ∈ rows c ∧ r !!! "iso3" = p.2 !!! "spatial_dim" ∧
                  location m = (r !!! "lat", r !!! "lon")) ∧
            popup m = default "" (dict_get (p.2 !!! "spatial_dim") info))
    ms.
Proof.
  intros Hm Ha. unfold markers in Hm.
  destruct centroids as [c|]; [|injection Hm as <-; split; [done|constructor]].
  split; [done|].
  case_decide as Hempty; [injection Hm as <-; constructor|].
  inv_ok. rename x into cdict.
  unfold to_cdict in Hstep. inv_ok. case_decide; [|done].
  injection Hstep as <-.
  eapply Forall_impl; [by eapply set_markers_spec|].
  intros m (p & Hp & Hhot & Hloc & Hpop). exists p, c.
  split_and!; try done.
  - rewrite (alert_rows _ _ _ Ha), stable_sort_perm.
    apply list_elem_of_fmap. exists p. split; [done|].
    apply list_elem_of_filter. split; [|done].
    destruct Hhot as (q & Hq & Hle). exists q. split; [done|].
    etrans; [|exact Hle].
    apply Qcle_minus_iff. unfold TOLERANCE.
    replace (Qc_of_Z T + - (Qc_of_Z T - Q2Qc (1 # 100000)))%Qc
      with (Q2Qc (1 # 100000)) by ring. done.
  - clear -Hloc. induction (rows c) as [|r l IH]; simpl in Hloc; [done|].
    case_decide as Heq.
    + injection Hloc as <-. exists r. split; [left|]. by rewrite Heq.
    + destruct (IH Hloc) as (r' & ? & ?). exists r'. split; [by right|done].
Qed.

End tooltips_and_markers.

(** The panel of [panel_rows] at the threshold 50: the score just under
    50 is within the tolerance and comes last, the row without a score
    is left out. *)
Lemma alert_panel_witness :
  alert_df panel_rows 50 = Ok (from_ok panel_rows (alert_df panel_rows 50)) ∧
  fst <$> irows (from_ok panel_rows (alert_df panel_rows 50)) = [4%Z; 9%Z; 3%Z] ∧
  StronglySorted
    (λ p q, ∃ x y, num_of (p.2 !!! "risk_score") = Some x ∧
                   num_of (q.2 !!! "risk_score") = Some y ∧ (y ≤ x)%Qc)
    (irows (from_ok panel_rows (alert_df panel_rows 50))).
Proof.
  split; [compute_done|]. split; [compute_done|].
  refine (proj1 (proj2 (alert_panel panel_rows 50
                          (from_ok panel_rows (alert_df panel_rows 50)) _))).
  compute_done.
Defined.

(** The slider of the scenario with two years. *)
Lemma year_slider_witness :
  year_range loaded_two_years = Ok (2019%Z, 2020%Z) ∧
  ∃ lo hi,
    year_range loaded_two_years = Ok (lo, hi) ∧ (lo ≤ hi)%Z ∧
    irows (rows_of_year loaded_two_years lo) ≠ [] ∧
    irows (rows_of_year loaded_two_years hi) ≠ [] ∧
    Forall (λ p, ∃ y, p.2 !!! "year" = VInt y ∧ (lo ≤ y ≤ hi)%Z)
      (irows loaded_two_years).
Proof.
  split; [compute_done|].
  refine (proj2 (year_slider dashboard_world RISK_FILE loaded_two_years _) _);
    compute_done.
Defined.

(** The bins of the threshold 50, the default of the slider. *)
Lemma bins_of_threshold_witness :
  this <$> bins 50 = [0; 25; 40; 50; 60; 70; 80; 100]%Q ∧
  StronglySorted Qcle (bins 50) ∧
  (NoDup (bins 50) ↔ (0 < 50 < 70)%Z).
Proof.
  split; [compute_done|].
  destruct (bins_of_threshold 50) as (_ & _ & Hs & _ & Hn); [lia|].
  split; [exact Hs|exact Hn].
Defined.

(** The country with two rows has the tooltip of its second row; a
    country without a row has none. *)
Lemma tooltip_of_last_row_witness :
  info_by_iso panel_rows = Ok panel_info ∧
  dict_get (VStr "ABC") panel_info
  = Some "<b>Abc Land</b><br>Risk: 60.0<br>Cases/100k: 10.0<br>Lag1: nan | Lag2: nan<br>MA3: 10.0" ∧
  (dict_get (VStr "XYZ") panel_info = None ↔
   Forall (λ p, p.2 !!! "spatial_dim" ≠ VStr "XYZ") (irows panel_rows)).
Proof.
  split; [compute_done|]. split; [compute_done|].
  refine (proj1 (tooltip_of_last_row panel_rows panel_info _) (VStr "XYZ")).
  compute_done.
Defined.

(** Two markers at the threshold 50: the row with the score just under
    50 is in the panel and has no marker. *)
Lemma markers_are_alerts_witness :
  location <$> panel_markers
  = [(VFloat (Qc_of_Z 15), VFloat (Qc_of_Z (-70)));
     (VFloat (Qc_of_Z 10), VFloat (Qc_of_Z (-60)))] ∧
  Forall (λ m, ∃ p c,
            p ∈ irows panel_rows ∧
            (∃ q, num_of (p.2 !!! "risk_score") = Some q ∧ (Qc_of_Z 50 ≤ q)%Qc) ∧
            (p.1, restrict ALERT_COLUMNS p.2)
              ∈ irows (from_ok panel_rows (alert_df panel_rows 50)) ∧
            load_centroids centroid_world "data/iso3_centroids_cleaned.csv"
              = Some c ∧
            (∃ r, r ∈ rows c ∧ r !!! "iso3" = p.2 !!! "spatial_dim" ∧
                  location m = (r !!! "lat", r !!! "lon")) ∧
            popup m = default "" (dict_get (p.2 !!! "spatial_dim") panel_info))
    panel_markers.
Proof.
  split; [compute_done|].
  refine (proj2 (markers_are_alerts
                   (load_centroids centroid_world "data/iso3_centroids_cleaned.csv")
                   panel_info panel_rows 50 panel_markers
                   (from_ok panel_rows (alert_df panel_rows 50)) _ _));
    compute_done.
Defined.

(** ** The cleaning of the centroids *)

Lemma keep_first_fresh {A K} `{EqDecision K} (key : A → K) seen l :
  Forall (λ x, key x ∉ seen) (keep_first key seen l).
Proof.
  revert seen. induction l as [|y l IH]; intros seen; simpl; [constructor|].
  case_decide as Hy; [apply IH|]. constructor; [done|].
  eapply Forall_impl; [apply IH|]. intros x Hx Hin. apply Hx. by right.
Qed.

Lemma keep_first_NoDup {A K} `{EqDecision K} (key : A → K) seen l :
  NoDup (key <$> keep_first key seen l).
Proof.
  revert seen. induction l as [|y l IH]; intros seen; simpl; [constructor|].
  case_decide as Hy; [apply IH|]. csimpl. constructor; [|apply IH].
  intros Hin. apply list_elem_of_fmap in Hin as (x & Hx & Hin).
  pose proof (keep_first_fresh key (key y :: seen) l) as Hf.
  apply (proj1 (Forall_forall _ _) Hf) in Hin. apply Hin. rewrite Hx. left.
Qed.

Lemma keep_first_spec {A K} `{EqDecision K} (key : A → K) seen l x :
  x ∈ keep_first key seen l ↔
  ∃ l1 l2, l = l1 ++ x :: l2 ∧ (key x ∉ seen) ∧ (key x ∉ (key <$> l1)).
Proof.
  revert seen. induction l as [|y l IH]; intros seen; simpl.
  { split; [by intros ?%elem_of_nil|]. by intros ([|??] & ? & ? & _). }
  case_decide as Hy.
  - rewrite IH. split.
    + intros (l1 & l2 & -> & Hs & Hl). exists (y :: l1), l2.
      split; [done|]. split; [done|]. csimpl. intros [E|?]%elem_of_cons; [|done].
      apply Hs. by rewrite E.
    + intros ([|z l1] & l2 & E & Hs & Hl); simplify_eq/=; [done|].
      exists l1, l2. split; [done|]. split; [done|].
      intros Hin. apply Hl. by right.
  - rewrite elem_of_cons, IH. split.
    + intros [->|(l1 & l2 & -> & Hs & Hl)].
      * exists [], l. split; [done|]. split; [done|]. by intros ?%elem_of_nil.
      * exists (y :: l1), l2. split; [done|]. split.
        -- intros Hin. apply Hs. by right.
        -- csimpl. intros [E|?]%elem_of_cons; [|done]. apply Hs. rewrite E. left.
    + intros ([|z l1] & l2 & E & Hs & Hl); simplify_eq/=; [by left|].
      right. exists l1, l2. split; [done|]. split.
      * intros [E|?]%elem_of_cons; [|done]. apply Hl. rewrite E. left.
      * intros Hin. apply Hl. by right.
Qed.

Lemma NoDup_fmap_elem {A K} (key : A → K) (l : list A) x y :
  NoDup (key <$> l) → x ∈ l → y ∈ l → key x = key y → x = y.
Proof.
  intros Hnd Hx Hy Hk.
  apply list_elem_of_lookup_1 in Hx as [i Hi], Hy as [j Hj].
  assert (i = j) as ->.
  { apply (NoDup_lookup (key <$> l) i j (key x)); [done|..];
      rewrite list_lookup_fmap; [by rewrite Hi|by rewrite Hj, Hk]. }
  congruence.
Qed.

Lemma filter_fmap_split {A B} (f : A → B) (P : B → Prop) `{!∀ x, Decision (P x)}
    (l : list A) l1' x' l2' :
  filter P (f <$> l) = l1' ++ x' :: l2' →
  ∃ l1 x l2, l = l1 ++ x :: l2 ∧ f x = x' ∧ P x' ∧
             filter P (f <$> l1) = l1'.
Proof.
  revert l1'. induction l as [|y l IH]; intros l1' E; csimpl in E.
  { by destruct l1'. }
  rewrite filter_cons in E. destruct (decide (P (f y))) as [HP|HP].
  - destruct l1' as [|z l1']; simpl in E; injection E as E1 E2.
    + subst x'. exists [], y, l. by split_and!.
    + subst z. destruct (IH _ E2) as (l1 & x & l2 & -> & Hx & HPx & Hl1).
      exists (y :: l1), x, l2. split_and!; try done.
      csimpl. rewrite filter_cons, decide_True by done. by rewrite Hl1.
  - destruct (IH _ E) as (l1 & x & l2 & -> & Hx & HPx & Hl1).
    exists (y :: l1), x, l2. split_and!; try done.
    csimpl. by rewrite filter_cons, decide_False.
Qed.

Lemma StronglySorted_mono {A} (R S : relation A) (l : list A) :
  (∀ x y, R x y → S x y) → StronglySorted R l → StronglySorted S l.
Proof.
  intros HRS. induction 1 as [|x l _ IH Hx]; constructor; [done|].
  eapply Forall_impl; [exact Hx|]. intros y. apply HRS.
Qed.

Lemma cell_between_spec lo hi v b :
  cell_between lo hi v = Ok b →
  b = true ↔ ∃ q, num_of v = Some q ∧ (Qc_of_Z lo ≤ q)%Qc ∧ (q ≤ Qc_of_Z hi)%Qc.
Proof.
  destruct v as [|c|z|q| |]; simpl; try done; intros [= <-];
    rewrite ?bool_decide_eq_true; unfold num_key; simpl.
  - split; [done|]. by intros (q & ? & _).
  - split; [intros [? ?]; eauto|]. by intros (q & [= <-] & ? & ?).
  - split; [intros [? ?]; eauto|]. by intros (q & [= <-] & ? & ?).
  - split; [intros [? ?]; eauto|]. by intros (q' & [= <-] & ? & ?).
Qed.

Section centroids.
Context `{PyRuntime} `{Iso3166Lib}.

Lemma centroid_row_cells r :
  centroid_row r !!! "iso3" = iso3_of r ∧
  centroid_row r !!! "lat" = r !!! "lat" ∧
  centroid_row r !!! "lon" = r !!! "lon".
Proof.
  unfold centroid_row, CENTROID_COLUMNS.
  rewrite !restrict_lookup by solve_cols.
  rewrite lookup_total_insert_eq, !lookup_total_insert_ne by done. done.
Qed.

Lemma prepare_centroids_rows df out :
  prepare_centroids df = Ok out →
  columns out = CENTROID_COLUMNS ∧
  StronglySorted (row_le ["iso3"]) (rows out) ∧
  rows out ≡ₚ
    filter on_the_globe
      (keep_first (key_of ["iso3"]) []
         (filter (λ r, Forall (λ c, r !!! c ≠ VNaN) CENTROID_COLUMNS)
            (centroid_row <$> rows df))).
Proof.
  unfold prepare_centroids. intros Hout. inv_ok.
  rename x into iso, x0 into d1, x1 into d2, x2 into d3, x3 into lat,
    x4 into in_lat, x5 into lon, x6 into in_lon.
  apply getitem_Ok in Hstep as [_ ->].
  rewrite <-list_fmap_compose in Hstep0.
  rewrite (setitem_fmap df "iso3"
             ((λ v, VStr (iso_to_iso3 v)) ∘ (λ r : Row, r !!! "ISO"))) in Hstep0.
  unfold getitems in Hstep0. simpl in Hstep0.
  destruct (filter _ CENTROID_COLUMNS); [|done]. injection Hstep0 as <-.
  rewrite <-list_fmap_compose in *.
  unfold dropna in Hstep1. inv_ok. subst d2. simpl in *.
  unfold drop_duplicates in Hstep2. inv_ok. subst d3. simpl in *.
  apply getitem_Ok in Hstep3 as [_ ->], Hstep5 as [_ ->]. simpl in *.
  unfold sort_values in Hout. inv_ok. subst out. simpl.
  split; [done|]. split; [apply stable_sort_sorted; apply _|].
  rewrite stable_sort_perm.
  set (kept := keep_first _ _ _) in *.
  assert (fst <$> filter (λ p, p.2 = true) (zip kept (zip_with andb in_lat in_lon))
          = filter on_the_globe kept) as ->; [|done].
  apply filter_by_mask.
  apply try_map_Forall2 in Hstep4, Hstep6.
  apply Forall2_fmap_l in Hstep4, Hstep6.
  clear -Hstep4 Hstep6. revert in_lon Hstep6.
  induction Hstep4 as [|r b l bs Hb _ IH]; intros in_lon Hlon;
    inversion Hlon as [|r' b' l' bs' Hb' Hl']; subst; simpl; constructor.
  - apply cell_between_spec in Hb, Hb'. unfold on_the_globe.
    rewrite andb_true_iff, Hb, Hb'. done.
  - by apply IH.
Qed.

Lemma complete_centroid_row r :
  Forall (λ c, centroid_row r !!! c ≠ VNaN) CENTROID_COLUMNS ↔ located r.
Proof.
  destruct (centroid_row_cells r) as (Hi & Hla & Hlo).
  unfold CENTROID_COLUMNS, located.
  rewrite !Forall_cons, Forall_nil, Hi, Hla, Hlo. unfold iso3_of.
  split; [by intros (_ & ? & ? & _)|by intros [? ?]].
Qed.

Lemma on_the_globe_centroid_row r : on_the_globe (centroid_row r) ↔ on_the_globe r.
Proof.
  destruct (centroid_row_cells r) as (_ & Hla & Hlo).
  unfold on_the_globe. by rewrite Hla, Hlo.
Qed.

(** X22. The cleaned table of centroids has the three columns [iso3],
    [lat] and [lon]; no code stands in it twice, its rows are in
    ascending order of the code, each code is text, and each latitude
    and longitude is a number within its bounds. *)
Theorem cleaned_centroids_table df out :
  prepare_centroids df = Ok out →
  columns out = CENTROID_COLUMNS ∧
  NoDup (column "iso3" out) ∧
  StronglySorted value_le (column "iso3" out) ∧
  Forall (λ r, (∃ s, r !!! "iso3" = VStr s) ∧ on_the_globe r) (rows out).
Proof.
  intros Hout.
  destruct (prepare_centroids_rows _ _ Hout) as (Hcols & Hsorted & Hperm).
  split_and!; [done| | |].
  - assert (NoDup (key_of ["iso3"] <$> rows out)) as Hnd.
    { rewrite Hperm.
      eapply sublist_NoDup; [apply (keep_first_NoDup (key_of ["iso3"]) [])|].
      apply fmap_sublist, sublist_filter. }
    unfold column. revert Hnd. clear.
    induction (rows out) as [|r l IH]; csimpl; [constructor|].
    rewrite !NoDup_cons. intros [Hr Hl]. split; [|by apply IH].
    intros Hin. apply Hr. apply list_elem_of_fmap in Hin as (r' & E & Hin).
    apply list_elem_of_fmap. exists r'. split; [|done].
    unfold key_of. simpl. by rewrite E.
  - unfold column. apply StronglySorted_on.
    eapply StronglySorted_mono; [|exact Hsorted].
    intros r r' Hle. unfold row_le, on, key_of in Hle. simpl in Hle. apply Hle.
  - rewrite Hperm. apply Forall_forall. intros r' [Hglobe Hin]%list_elem_of_filter.
    split; [|done].
    apply keep_first_spec in Hin as (l1 & l2 & E & _).
    apply filter_fmap_split in E as (b & r & a & _ & <- & _).
    destruct (centroid_row_cells r) as (-> & _). by eexists.
Qed.

(** X23. A code is represented by the first row of the raw table that
    has it and has both coordinates: when that row is on the globe, its
    coordinates are the ones written; when it is not, the code is left
    out altogether, whatever the later rows of the code hold. *)
Theorem first_located_row_counts df out :
  prepare_centroids df = Ok out →
  (∀ r', r' ∈ rows out →
     ∃ before r after,
       rows df = before ++ r :: after ∧ located r ∧
       Forall (λ b, located b → iso3_of b ≠ iso3_of r) before ∧
       on_the_globe r ∧
       r' !!! "iso3" = iso3_of r ∧
       r' !!! "lat" = r !!! "lat" ∧ r' !!! "lon" = r !!! "lon") ∧
  (∀ before r after,
     rows df = before ++ r :: after →
     located r →
     Forall (λ b, located b → iso3_of b ≠ iso3_of r) before →
     if decide (on_the_globe r) then
       ∃ r', r' ∈ rows out ∧ r' !!! "iso3" = iso3_of r ∧
             r' !!! "lat" = r !!! "lat" ∧ r' !!! "lon" = r !!! "lon"
     else iso3_of r ∉ column "iso3" out).
Proof.
  intros Hout.
  destruct (prepare_centroids_rows _ _ Hout) as (Hcols & Hsorted & Hperm).
  set (complete := λ r : Row, Forall (λ c, r !!! c ≠ VNaN) CENTROID_COLUMNS) in *.
  assert (∀ l r, key_of ["iso3"] (centroid_row r)
                 ∉ (key_of ["iso3"] <$> filter complete (centroid_row <$> l))
                 ↔ Forall (λ b, located b → iso3_of b ≠ iso3_of r) l) as Hfirst.
  { intros l r. rewrite Forall_forall. split.
    - intros Hnot b Hb Hloc E. apply Hnot. apply list_elem_of_fmap.
      exists (centroid_row b). split.
      + unfold key_of. simpl.
        destruct (centroid_row_cells b) as (-> & _).
        destruct (centroid_row_cells r) as (-> & _). by rewrite E.
      + apply list_elem_of_filter. split; [by apply complete_centroid_row|].
        apply list_elem_of_fmap. eauto.
    - intros Hall Hin. apply list_elem_of_fmap in Hin as (b' & E & Hin).
      apply list_elem_of_filter in Hin as [Hc Hin].
      apply list_elem_of_fmap in Hin as (b & -> & Hin).
      apply complete_centroid_row in Hc.
      apply (Hall b Hin Hc). unfold key_of in E. simpl in E.
      destruct (centroid_row_cells b) as (Eb & _).
      destruct (centroid_row_cells r) as (Er & _).
      rewrite Eb, Er in E. congruence. }
  split.
  - intros r' Hin. rewrite Hperm in Hin.
    apply list_elem_of_filter in Hin as [Hglobe Hin].
    apply keep_first_spec in Hin as (l1 & l2 & E & _ & Hl1).
    apply filter_fmap_split in E as (before & r & after & E & <- & Hc & <-).
    exists before, r, after.
    destruct (centroid_row_cells r) as (Hi & Hla & Hlo).
    split_and!; try done.
    + by apply complete_centroid_row.
    + by apply Hfirst.
    + by apply on_the_globe_centroid_row.
  - intros before r after Hrows Hloc Hbefore.
    assert (centroid_row r
            ∈ keep_first (key_of ["iso3"]) []
                (filter complete (centroid_row <$> rows df))) as Hkept.
    { apply keep_first_spec.
      exists (filter complete (centroid_row <$> before)),
             (filter complete (centroid_row <$> after)).
      split; [|split; [by intros ?%elem_of_nil|by apply Hfirst]].
      rewrite Hrows, fmap_app, filter_app. csimpl.
      rewrite filter_cons, decide_True; [done|].
      by apply complete_centroid_row. }
    destruct (centroid_row_cells r) as (Hi & Hla & Hlo).
    case_decide as Hglobe.
    + exists (centroid_row r). split; [|done].
      rewrite Hperm. apply list_elem_of_filter. split; [|done].
      by apply on_the_globe_centroid_row.
    + intros Hin. apply list_elem_of_fmap in Hin as (r' & E & Hin).
      rewrite Hperm in Hin. apply list_elem_of_filter in Hin as [Hg Hin].
      assert (r' = centroid_row r) as ->.
      { apply (NoDup_fmap_elem (key_of ["iso3"]) _ _ _
                 (keep_first_NoDup _ _ _) Hin Hkept).
        unfold key_of. simpl. by rewrite <-E, Hi. }
      by apply Hglobe, on_the_globe_centroid_row.
Qed.

(** X24. The table that the cleaning writes is one the dashboard can
    use: it has the three columns [load_centroids] asks for, and its
    codes are distinct, so that the dictionary of the markers is built
    without the error of a repeated label, with the coordinates of each
    row under its code. *)
Theorem cleaned_centroids_are_loaded w path df out :
  prepare_centroids df = Ok out →
  files w !! path = Some out →
  load_centroids w path = Some out ∧
  to_cdict out
  = Ok ((λ r : Row, (r !!! "iso3", (r !!! "lat", r !!! "lon"))) <$> rows out) ∧
  ∀ r, r ∈ rows out →
    dict_get (r !!! "iso3")
      ((λ r : Row, (r !!! "iso3", (r !!! "lat", r !!! "lon"))) <$> rows out)
    = Some (r !!! "lat", r !!! "lon").
Proof.
  intros Hout Hfile.
  destruct (cleaned_centroids_table _ _ Hout) as (Hcols & Hnd & _).
  split_and!.
  - unfold load_centroids, read_csv. rewrite Hfile, Hcols.
    by rewrite decide_True by (unfold CENTROID_COLUMNS; repeat constructor; solve_cols).
  - unfold to_cdict, getitem, require_columns. rewrite Hcols. simpl.
    fold (column "iso3" out). by rewrite decide_True.
  - unfold column in Hnd. revert Hnd. clear.
    induction (rows out) as [|r0 l IH]; intros Hnd r Hin; [by apply elem_of_nil in Hin|].
    csimpl in *. apply NoDup_cons in Hnd as [Hr0 Hnd].
    apply elem_of_cons in Hin as [->|Hin]; [by rewrite decide_True|].
    rewrite decide_False; [by apply IH|].
    intros E. apply Hr0. apply list_elem_of_fmap. exists r. by rewrite E.
Qed.

End centroids.

(** The raw centroids of the examples: Mexico is lost with its first
    row, Brazil keeps the coordinates of its first row, the row without
    a longitude is dropped, and the code that is not known stays. *)
Lemma cleaned_centroids_table_witness :
  prepare_centroids raw_centroids = Ok cleaned_centroids ∧
  cells cleaned_centroids
  = [[VStr "BRA"; VFloat (Qc_of_Z (-10)); VFloat (Qc_of_Z (-55))];
     [VStr "PE"; VFloat (Qc_of_Z (-10)); VFloat (Qc_of_Z (-76))]] ∧
  NoDup (column "iso3" cleaned_centroids) ∧
  StronglySorted value_le (column "iso3" cleaned_centroids).
Proof.
  split; [compute_done|]. split; [compute_done|].
  destruct (cleaned_centroids_table raw_centroids cleaned_centroids)
    as (_ & Hnd & Hs & _); [compute_done|].
  split; [exact Hnd|exact Hs].
Defined.

(** The first row of Mexico is off the globe, so Mexico is left out,
    though its second row is not. *)
Lemma first_located_row_witness :
  VStr "MEX" ∉ column "iso3" cleaned_centroids.
Proof.
  refine (proj2 (first_located_row_counts raw_centroids cleaned_centroids _)
            (take 1 (rows raw_centroids)) (rows raw_centroids !!! 1)
            (drop 2 (rows raw_centroids)) _ _ _); compute_done.
Defined.

(** The cleaned file of the examples, as the dashboard loads it. *)
Lemma cleaned_centroids_are_loaded_witness :
  load_centroids
    {| files := {[ CENTROIDS_OUT := cleaned_centroids ]}; os_entropy := 0 |}
    CENTROIDS_OUT
  = Some cleaned_centroids.
Proof.
  refine (proj1 (cleaned_centroids_are_loaded
                   {| files := {[ CENTROIDS_OUT := cleaned_centroids ]};
                      os_entropy := 0 |}
                   CENTROIDS_OUT raw_centroids cleaned_centroids _ _));
    compute_done.
Defined.
